(** * AI Shopping Helper: quality scoring, alternative finder and
      recommendation engine

    A shallow embedding of
      - [backend/ai_scoring/quality_scorer.py]   (module [QualityScorer]),
      - [backend/database/product_db.py]         (module [ProductDb]),
      - [backend/ai/recommendations.py]          (module [Recommender]),
      - [backend/api/routes.py]                  (module [Routes]),
      - [scripts/data_collector.py]              (module [Collector]),
    followed by the properties established about them.  Module [Store]
    holds the methods of [product_db.py] that write and list.

    Numbers.  Python floats are idealised: the scorer and the catalogue
    queries compute over the rationals [Q] (exact, executable); the vector
    arithmetic of the recommender needs square roots and is carried out
    over the reals [R].  Where a statement depends on the last bit of a
    float, the function is embedded a second time with every operation
    rounded to a double (modules [Double], [QualityScorer64],
    [ProductDb64]).  Text is ASCII. *)

From Stdlib Require Import List String Ascii Bool Arith ZArith NArith Lia.
From Stdlib Require Import QArith Qminmax Qround Qabs Qpower Lqa.
From Stdlib Require Import Reals Lra.
From Stdlib Require Import Sorting.Sorted Sorting.Permutation.
Import ListNotations.

Local Open Scope string_scope.

(** ** Python dictionaries

    A [dict] keeps its keys in insertion order, and several functions below
    depend on that order (the join of [specs.values()], the iteration over a
    scorecard), so a dictionary is an association list. *)

Module Dict.

Section Ops.
Context {V : Type}.

Definition dict := list (string * V).

(** [d.get(k)] *)
Fixpoint get (k : string) (d : list (string * V)) : option V :=
  match d with
  | [] => None
  | (k', v) :: rest => if String.eqb k k' then Some v else get k rest
  end.

(** [k in d] *)
Definition mem (k : string) (d : list (string * V)) : bool :=
  match get k d with Some _ => true | None => false end.

(** [d.get(k, default)] *)
Definition get_default (k : string) (default : V) (d : list (string * V)) : V :=
  match get k d with Some v => v | None => default end.

(** [d[k] = v]: overwrite in place, or append a new key. *)
Fixpoint set (k : string) (v : V) (d : list (string * V)) : list (string * V) :=
  match d with
  | [] => [(k, v)]
  | (k', v') :: rest =>
      if String.eqb k k' then (k, v) :: rest else (k', v') :: set k v rest
  end.

(** [d.values()] *)
Definition values (d : list (string * V)) : list V := map snd d.

End Ops.

Arguments dict V : clear implicits.

End Dict.

(** ** Text helpers: [str.lower], [in], [' '.join], [re.search] *)

Module Text.

Definition is_digit (c : ascii) : bool :=
  let n := nat_of_ascii c in (48 <=? n)%nat && (n <=? 57)%nat.

(** [\s] on ASCII text: TAB, LF, VT, FF, CR, FS, GS, RS, US and space. *)
Definition is_space (c : ascii) : bool :=
  let n := nat_of_ascii c in
  ((9 <=? n)%nat && (n <=? 13)%nat) || ((28 <=? n)%nat && (n <=? 32)%nat).

Definition lower_char (c : ascii) : ascii :=
  let n := nat_of_ascii c in
  if (65 <=? n)%nat && (n <=? 90)%nat then ascii_of_nat (n + 32) else c.

(** [s.lower()] *)
Fixpoint lower (s : string) : string :=
  match s with
  | EmptyString => EmptyString
  | String c s' => String (lower_char c) (lower s')
  end.

(** [s.startswith(p)] *)
Fixpoint starts_with (p s : string) : bool :=
  match p, s with
  | EmptyString, _ => true
  | String a p', String b s' => Ascii.eqb a b && starts_with p' s'
  | String _ _, EmptyString => false
  end.

(** [p in s] *)
Fixpoint contains (p s : string) : bool :=
  starts_with p s ||
  match s with
  | EmptyString => false
  | String _ s' => contains p s'
  end.

(** [any(k in s for k in keywords)] *)
Definition any_in (keywords : list string) (s : string) : bool :=
  existsb (fun k => contains k s) keywords.

(** [' '.join(parts)] *)
Fixpoint join_space (parts : list string) : string :=
  match parts with
  | [] => EmptyString
  | [p] => p
  | p :: rest => p ++ " " ++ join_space rest
  end.

(** The regular expressions of the scorer all have the shape
    [(\d+)\s*LIT] with [LIT] a (possibly empty) literal; such a pattern is
    represented by its literal.  The matcher is the backtracking one of
    [re]: greedy, giving characters back one at a time. *)

(** [\s*LIT] anchored at the head of [s]. *)
Fixpoint match_spaces_lit (lit s : string) : bool :=
  match s with
  | String c s' =>
      if is_space c then match_spaces_lit lit s' || starts_with lit s
      else starts_with lit s
  | EmptyString => starts_with lit s
  end.

(** [(\d+)\s*LIT] anchored at the head of [s]; the result is group 1. *)
Fixpoint match_here (lit s : string) : option string :=
  match s with
  | String c s' =>
      if is_digit c then
        match match_here lit s' with
        | Some ds => Some (String c ds)
        | None => if match_spaces_lit lit s' then Some (String c EmptyString) else None
        end
      else None
  | EmptyString => None
  end.

(** [re.search(pattern, s)]: the leftmost match; its group 1. *)
Fixpoint re_search (lit s : string) : option string :=
  match match_here lit s with
  | Some g => Some g
  | None =>
      match s with
      | String _ s' => re_search lit s'
      | EmptyString => None
      end
  end.

(** The number written by a string of decimal digits. *)
Fixpoint digits_value (acc : N) (s : string) : N :=
  match s with
  | EmptyString => acc
  | String c s' => digits_value (10 * acc + (N_of_ascii c - 48))%N s'
  end.

End Text.

(** ** Numeric helpers over [Q] *)

Module Num.

Local Open Scope Q_scope.

(** Round half to even, to an integer. *)
Definition round_half_even (x : Q) : Z :=
  let f := Qfloor x in
  let r := x - inject_Z f in
  match Qcompare r (1 # 2) with
  | Lt => f
  | Gt => (f + 1)%Z
  | Eq => if Z.even f then f else (f + 1)%Z
  end.

(** [round(x, ndigits)] *)
Definition py_round (x : Q) (ndigits : nat) : Q :=
  let scale := inject_Z (10 ^ Z.of_nat ndigits) in
  inject_Z (round_half_even (x * scale)) / scale.

(** [clamp(x, lo, hi)] of the specification. *)
Definition clamp (x lo hi : Q) : Q := Qmax lo (Qmin x hi).

End Num.

(** ** [quality_scorer.py]: class [QualityScorer] *)

Module QualityScorer.

Local Open Scope Q_scope.

(** The raw [specs] mapping of a product: attribute name to free text. *)
Definition specs_dict := Dict.dict string.

(** A scorecard (feature to weight), a reference table (feature to
    saturation value) and a normalized feature set (feature to value). *)
Definition scorecard := Dict.dict Q.

(** The two attributes set by [__init__]. *)
Record scorer : Type := {
  category_scorecards : Dict.dict scorecard;
  reference_values : Dict.dict (Dict.dict Q)
}.

(** [QualityScorer()] *)
Definition new : scorer := {|
  category_scorecards := [
    ("headphones",
      [("battery_life", 30); ("driver_size", 25); ("noise_cancellation", 20);
       ("build_quality", 15); ("frequency_response", 10)]);
    ("trimmer",
      [("runtime", 30); ("blade_material", 25); ("waterproof", 20);
       ("attachments", 15); ("charging_time", 10)]);
    ("mixer",
      [("power_output", 30); ("jar_count", 25); ("speed_settings", 20);
       ("warranty", 15); ("safety_features", 10)]);
    ("smartphone",
      [("camera", 25); ("battery", 25); ("processor", 20); ("ram", 15);
       ("storage", 15)]);
    ("laptop",
      [("processor", 30); ("ram", 25); ("storage", 20); ("display", 15);
       ("battery", 10)]);
    ("clothing",
      [("material", 30); ("fit", 25); ("durability", 20); ("comfort", 15);
       ("design", 10)]);
    ("general",
      [("quality", 40); ("features", 30); ("durability", 20); ("value", 10)])
  ];
  reference_values := [
    ("headphones",
      [("battery_life", 40); ("driver_size", 50); ("noise_cancellation", 1);
       ("build_quality", 5); ("frequency_response", 40000)]);
    ("trimmer",
      [("runtime", 120); ("blade_material", 5); ("waterproof", 1);
       ("attachments", 10); ("charging_time", 8)]);
    ("mixer",
      [("power_output", 1000); ("jar_count", 5); ("speed_settings", 10);
       ("warranty", 5); ("safety_features", 5)]);
    ("smartphone",
      [("camera", 108); ("battery", 5000); ("processor", 5); ("ram", 12);
       ("storage", 256)])
  ]
|}.

(** [_extract_numeric_value(text, patterns)]; [None] is Python's [None].
    Each pattern [(\d+)\s*LIT] is given by its literal. *)
Fixpoint search_patterns (text : string) (patterns : list string) : option Q :=
  match patterns with
  | [] => None
  | pattern :: rest =>
      match Text.re_search pattern text with
      | Some group1 =>
          let value := inject_Z (Z.of_N (Text.digits_value 0 group1)) in
          Some (if Text.contains "khz" text then value * 1000 else value)
      | None => search_patterns text rest
      end
  end.

Definition _extract_numeric_value (text : string) (patterns : list string) : option Q :=
  if String.eqb text "" then None
  else search_patterns (Text.lower text) patterns.

(** [if v: normalized[k] = v] for the result [v] of an extraction: [None]
    and [0.0] are both falsy. *)
Definition set_if_truthy (k : string) (v : option Q) (normalized : Dict.dict Q) : Dict.dict Q :=
  match v with
  | Some x => if Qeq_bool x 0 then normalized else Dict.set k x normalized
  | None => normalized
  end.

(** [specs.get(k1, specs.get(k2, ''))] *)
Definition get2 (k1 k2 : string) (specs : specs_dict) : string :=
  Dict.get_default k1 (Dict.get_default k2 "" specs) specs.

(** [' '.join(str(v).lower() for v in specs.values())] *)
Definition specs_text_of (specs : specs_dict) : string :=
  Text.join_space (map Text.lower (Dict.values specs)).

Definition _normalize_headphones_specs (specs : specs_dict) : Dict.dict Q :=
  let normalized := [] in
  let normalized :=
    if Dict.mem "battery_life" specs || Dict.mem "Battery Life" specs then
      let battery_text := get2 "battery_life" "Battery Life" specs in
      set_if_truthy "battery_life"
        (_extract_numeric_value battery_text ["h"]) normalized
    else normalized in
  let normalized :=
    if Dict.mem "driver_size" specs || Dict.mem "Driver Size" specs then
      let driver_text := get2 "driver_size" "Driver Size" specs in
      set_if_truthy "driver_size"
        (_extract_numeric_value driver_text ["mm"]) normalized
    else normalized in
  let noise_keywords := ["noise cancellation"; "anc"; "active noise"] in
  let specs_text := specs_text_of specs in
  let normalized :=
    if Text.any_in noise_keywords specs_text
    then Dict.set "noise_cancellation" 1 normalized
    else Dict.set "noise_cancellation" 0 normalized in
  let materials := ["metal"; "aluminum"; "premium"; "steel"] in
  let build_quality :=
    if Text.any_in materials specs_text then 5
    else if Text.any_in ["plastic"; "basic"] specs_text then 2
    else 3 in
  let normalized := Dict.set "build_quality" build_quality normalized in
  let freq_text := get2 "frequency_response" "Frequency Response" specs in
  set_if_truthy "frequency_response"
    (_extract_numeric_value freq_text ["hz"; "khz"]) normalized.

Definition _normalize_trimmer_specs (specs : specs_dict) : Dict.dict Q :=
  let normalized := [] in
  let runtime_text := get2 "runtime" "Battery Life" specs in
  let normalized :=
    set_if_truthy "runtime" (_extract_numeric_value runtime_text ["min"]) normalized in
  let specs_text := specs_text_of specs in
  let blade_quality :=
    if Text.contains "stainless steel" specs_text || Text.contains "titanium" specs_text
    then 5
    else if Text.contains "steel" specs_text then 4
    else if Text.contains "ceramic" specs_text then 4
    else 3 in
  let normalized := Dict.set "blade_material" blade_quality normalized in
  let normalized :=
    if Text.any_in ["waterproof"; "water resistant"; "ipx"] specs_text
    then Dict.set "waterproof" 1 normalized
    else Dict.set "waterproof" 0 normalized in
  let attachments_text := get2 "attachments" "Accessories" specs in
  set_if_truthy "attachments" (_extract_numeric_value attachments_text [""]) normalized.

Definition _normalize_mixer_specs (specs : specs_dict) : Dict.dict Q :=
  let normalized := [] in
  let power_text := get2 "power" "Power" specs in
  let normalized :=
    set_if_truthy "power_output" (_extract_numeric_value power_text ["w"]) normalized in
  let jar_text := get2 "jars" "Jars" specs in
  let normalized :=
    set_if_truthy "jar_count" (_extract_numeric_value jar_text [""]) normalized in
  let speed_text := get2 "speeds" "Speed Settings" specs in
  set_if_truthy "speed_settings" (_extract_numeric_value speed_text [""]) normalized.

Definition _normalize_smartphone_specs (specs : specs_dict) : Dict.dict Q :=
  let normalized := [] in
  let camera_text := get2 "camera" "Camera" specs in
  let normalized :=
    set_if_truthy "camera" (_extract_numeric_value camera_text ["mp"]) normalized in
  let battery_text := get2 "battery" "Battery" specs in
  let normalized :=
    set_if_truthy "battery" (_extract_numeric_value battery_text ["mah"]) normalized in
  let ram_text := get2 "ram" "RAM" specs in
  set_if_truthy "ram" (_extract_numeric_value ram_text ["gb"]) normalized.

Definition _normalize_laptop_specs (specs : specs_dict) : Dict.dict Q := [].

Definition _normalize_clothing_specs (specs : specs_dict) : Dict.dict Q :=
  let normalized := [] in
  let specs_text := specs_text_of specs in
  let premium_materials := ["cotton"; "silk"; "wool"; "linen"; "organic"] in
  let basic_materials := ["polyester"; "synthetic"; "blend"] in
  let material_quality :=
    if Text.any_in premium_materials specs_text then 5
    else if Text.any_in basic_materials specs_text then 2
    else 3 in
  Dict.set "material" material_quality normalized.

Definition _normalize_general_specs (specs : specs_dict) : Dict.dict Q :=
  let normalized := [] in
  let normalized := Dict.set "quality" 3 normalized in
  let normalized :=
    Dict.set "features" (inject_Z (Z.of_nat (List.length specs))) normalized in
  let normalized := Dict.set "durability" 3 normalized in
  Dict.set "value" 3 normalized.

(** [_normalize_specs]: the chain of [if category == ...]. *)
Definition _normalize_specs (product_specs : specs_dict) (category : string) : Dict.dict Q :=
  if String.eqb category "headphones" then _normalize_headphones_specs product_specs
  else if String.eqb category "trimmer" then _normalize_trimmer_specs product_specs
  else if String.eqb category "mixer" then _normalize_mixer_specs product_specs
  else if String.eqb category "smartphone" then _normalize_smartphone_specs product_specs
  else if String.eqb category "laptop" then _normalize_laptop_specs product_specs
  else if String.eqb category "clothing" then _normalize_clothing_specs product_specs
  else _normalize_general_specs product_specs.

(** [sum(scorecard.values())] *)
Definition sum_values (d : Dict.dict Q) : Q :=
  fold_left Qplus (Dict.values d) 0.

(** The body of the [for feature, max_points in scorecard.items()] loop.
    [None] is the [ZeroDivisionError] of [value / reference_val]. *)
Definition feature_points (reference_vals normalized_specs : Dict.dict Q)
    (feature : string) (max_points : Q) : option Q :=
  match Dict.get feature normalized_specs with
  | Some value =>
      let reference_val := Dict.get_default feature 1 reference_vals in
      if Qeq_bool reference_val 0 then None
      else if String.eqb feature "charging_time"
      then Some (max_points * (1 - Qmin (value / reference_val) 1))
      else Some (max_points * Qmin (value / reference_val) 1)
  | None => Some (max_points * (6 # 10))
  end.

Fixpoint score_loop (reference_vals normalized_specs : Dict.dict Q)
    (items : list (string * Q)) (total_points : Q) : option Q :=
  match items with
  | [] => Some total_points
  | (feature, max_points) :: rest =>
      match feature_points reference_vals normalized_specs feature max_points with
      | Some points =>
          score_loop reference_vals normalized_specs rest (total_points + points)
      | None => None
      end
  end.

(** [calculate_quality_score]; every exception ends in [return 60.0]. *)
Definition calculate_quality_score (self : scorer) (product_specs : specs_dict)
    (category : string) : Q :=
  let category :=
    if Dict.mem category (category_scorecards self) then category else "general" in
  match Dict.get category (category_scorecards self) with
  | None => 60
  | Some scorecard =>
      let reference_vals := Dict.get_default category [] (reference_values self) in
      let max_possible_points := sum_values scorecard in
      let normalized_specs := _normalize_specs product_specs category in
      match score_loop reference_vals normalized_specs scorecard 0 with
      | None => 60
      | Some total_points =>
          if Qeq_bool max_possible_points 0 then 60
          else
            let quality_score := (total_points / max_possible_points) * 100 in
            Qmax 0 (Qmin 100 quality_score)
      end
  end.

(** [calculate_final_score] *)
Definition calculate_final_score (quality_score rating : Q) : Q :=
  let normalized_rating := rating / 5 in
  let final_score := quality_score * normalized_rating in
  Num.py_round final_score 2.

(** [get_category_scorecard] *)
Definition get_category_scorecard (self : scorer) (category : string) : option scorecard :=
  match Dict.get category (category_scorecards self) with
  | Some sc => Some sc
  | None => Dict.get "general" (category_scorecards self)
  end.

(** [add_custom_scorecard] *)
Definition add_custom_scorecard (self : scorer) (category : string) (sc : scorecard) : scorer :=
  {| category_scorecards := Dict.set category sc (category_scorecards self);
     reference_values := reference_values self |}.

End QualityScorer.

(** ** The scoring algorithm in the words of the specification *)

Module ScorerSpec.

Local Open Scope Q_scope.

(** Features whose semantics are "lower is better". *)
Definition lower_is_better (feature : string) : bool :=
  String.eqb feature "charging_time".

(** Points of one scorecard feature. *)
Definition points (reference : Q) (value : option Q) (feature : string) (weight : Q) : Q :=
  match value with
  | Some v =>
      if lower_is_better feature
      then weight * (1 - Num.clamp (v / reference) 0 1)
      else weight * Num.clamp (v / reference) 0 1
  | None => (6 # 10) * weight
  end.

Fixpoint Qsum (l : list Q) : Q :=
  match l with
  | [] => 0
  | x :: rest => x + Qsum rest
  end.

(** Sum the points, divide by the sum of the weights, multiply by 100,
    clamp to [0,100]. *)
Definition quality_score (card : QualityScorer.scorecard)
    (reference : string -> Q) (normalized : Dict.dict Q) : Q :=
  let total :=
    Qsum (map (fun fw => points (reference (fst fw)) (Dict.get (fst fw) normalized)
                           (fst fw) (snd fw)) card) in
  Num.clamp (total / Qsum (Dict.values card) * 100) 0 100.

(** [score(specs, category)]: resolve the category (unknown ones fall back to
    [general]), then apply the algorithm to the normalized feature set. *)
Definition score (self : QualityScorer.scorer) (product_specs : QualityScorer.specs_dict)
    (category : string) : Q :=
  let category :=
    if Dict.mem category (QualityScorer.category_scorecards self)
    then category else "general" in
  let card := Dict.get_default category [] (QualityScorer.category_scorecards self) in
  let reference_vals :=
    Dict.get_default category [] (QualityScorer.reference_values self) in
  quality_score card (fun feature => Dict.get_default feature 1 reference_vals)
    (QualityScorer._normalize_specs product_specs category).

End ScorerSpec.

(** ** Exceptions and results

    A Python call either returns a value or raises.  The external
    collaborators (SQLite, the Chroma collection, the sentence-transformer
    model) are modelled together with a fault plan saying which of their
    operations raise. *)

Module Py.

(** The operations of the collaborators that can raise. *)
Inductive op : Type :=
| LoadModel                    (* [SentenceTransformer(model_name)] *)
| InitVectorDb                 (* [initialize_vector_db] *)
| SelectProducts               (* the [SELECT] of [get_products_from_db] *)
| SelectProductById (pid : Z)  (* [SELECT ... FROM products WHERE id = ?] *)
| Encode                       (* [model.encode] *)
| ChromaGet                    (* [collection.get] *)
| ChromaDelete                 (* [collection.delete] *)
| ChromaAdd                    (* [collection.add] *)
| ChromaQuery                  (* [collection.query] *)
| SelectEmbeddings             (* [SELECT] on [product_embeddings] *)
| DeleteEmbeddings             (* [DELETE FROM product_embeddings] *)
| InsertEmbedding (pid : Z)    (* [INSERT OR REPLACE] of one row *)
| Commit.                      (* [conn.commit()] *)

Inductive exn : Type :=
| BackendError (o : op)        (* raised by a collaborator *)
| AttributeError.              (* attribute access on [None] *)

Inductive result (A : Type) : Type :=
| Return (a : A)
| Raise (e : exn).

Arguments Return {A} a.
Arguments Raise {A} e.

Definition bind {A B : Type} (m : result A) (k : A -> result B) : result B :=
  match m with
  | Return a => k a
  | Raise e => Raise e
  end.

(** A fault plan: the operations that raise. *)
Definition faults := op -> bool.

Definition no_faults : faults := fun _ => false.

(** Run one collaborator operation under a fault plan. *)
Definition attempt (fails : faults) (o : op) : result unit :=
  if fails o then Raise (BackendError o) else Return tt.

End Py.

Notation "x <- m ;; k" := (Py.bind m (fun x => k))
  (at level 61, m at next level, right associativity).

(** ** Stable insertion sort

    [leb a b] says that [a] may stand before [b].  An element is put before
    the first element it may stand before, so elements that compare equal
    keep their order: the behaviour of [list.sort], also with
    [reverse=True]. *)

Module Sort.

Section Defs.
Context {A : Type} (leb : A -> A -> bool).

Fixpoint insert (x : A) (l : list A) : list A :=
  match l with
  | [] => [x]
  | y :: rest => if leb x y then x :: y :: rest else y :: insert x rest
  end.

Fixpoint sort (l : list A) : list A :=
  match l with
  | [] => []
  | x :: rest => insert x (sort rest)
  end.

End Defs.

End Sort.

(** ** The catalogue: table [products] of [db_connection.py] *)

Module Catalog.

(** One row.  [price] is [REAL NOT NULL]; the nullable columns are
    options. *)
Record product_row : Type := {
  id : Z;
  name : string;
  category : string;
  price : Q;
  rating : option Q;
  platform : string;
  url : option string;
  specs : option string;
  quality_score : option Q;
  final_score : option Q;
  image_url : option string;
  description : option string
}.

(** [WHERE id = ?] on a primary key: at most one row. *)
Definition find_by_id (pid : Z) (rows : list product_row) : option product_row :=
  find (fun r => Z.eqb (id r) pid) rows.

(** [description IS NOT NULL AND description != ''] *)
Definition has_description (r : product_row) : bool :=
  match description r with
  | Some d => negb (String.eqb d "")
  | None => false
  end.

End Catalog.

(** ** [product_db.py]: class [ProductDatabase] *)

Module ProductDb.

Import Catalog.
Local Open Scope Q_scope.

(** The [DatabaseConnection]: whether SQLite answers, and the table. *)
Record database : Type := {
  available : bool;
  products : list product_row
}.

(** [final_score >= ?]: a comparison with [NULL] is not true. *)
Definition score_at_least (min_score : Q) (r : product_row) : bool :=
  match final_score r with
  | Some s => Qle_bool min_score s
  | None => false
  end.

(** The [WHERE] clause of [find_alternatives]. *)
Definition alternatives_where (cat : string) (max_price min_score : Q)
    (r : product_row) : bool :=
  String.eqb (category r) cat && Qle_bool (price r) max_price
  && score_at_least min_score r.

(** Order of two nullable scores in SQLite: [NULL] is the smallest. *)
Definition score_compare (a b : option Q) : comparison :=
  match a, b with
  | Some x, Some y => Qcompare x y
  | Some _, None => Gt
  | None, Some _ => Lt
  | None, None => Eq
  end.

(** [ORDER BY final_score DESC, price ASC]: [a] may stand before [b]. *)
Definition alternatives_order (a b : product_row) : bool :=
  match score_compare (final_score a) (final_score b) with
  | Gt => true
  | Lt => false
  | Eq => Qle_bool (price a) (price b)
  end.

(** [LIMIT n]: a negative [n] is no limit. *)
Definition sql_limit {A : Type} (n : Z) (l : list A) : list A :=
  if (n <? 0)%Z then l else firstn (Z.to_nat n) l.

(** The query of [find_alternatives] on the table. *)
Definition select_alternatives (rows : list product_row) (cat : string)
    (max_price min_score : Q) (limit : Z) : list product_row :=
  sql_limit limit
    (Sort.sort alternatives_order
       (filter (alternatives_where cat max_price min_score) rows)).

(** [self.db.execute_query(query, params)] for that query: raises when the
    connection or the statement fails. *)
Definition execute_query (self : database) (cat : string)
    (max_price min_score : Q) (limit : Z) : Py.result (list product_row) :=
  if available self
  then Py.Return (select_alternatives (products self) cat max_price min_score limit)
  else Py.Raise (Py.BackendError Py.SelectProducts).

Section Json.

(** [json.loads] is a collaborator: [None] is a [JSONDecodeError]. *)
Variable json : Type.
Variable json_loads : string -> option json.
Variable empty_object : json.

(** The value under ['specs'] in a returned product. *)
Inductive specs_value : Type :=
| SpecsRaw (s : option string)   (* left as stored: [None] or [''] *)
| SpecsParsed (j : json).

(** A returned product: the row, with its ['specs'] entry processed. *)
Record product : Type := {
  row : product_row;
  parsed_specs : specs_value
}.

(** The body of [for row in results]. *)
Definition process_row (r : product_row) : product :=
  match specs r with
  | Some s =>
      if String.eqb s "" then {| row := r; parsed_specs := SpecsRaw (Some s) |}
      else
        match json_loads s with
        | Some j => {| row := r; parsed_specs := SpecsParsed j |}
        | None => {| row := r; parsed_specs := SpecsParsed empty_object |}
        end
  | None => {| row := r; parsed_specs := SpecsRaw None |}
  end.

(** [find_alternatives]: any exception is logged and [[]] returned. *)
Definition find_alternatives (self : database) (cat : string)
    (target_score max_price : Q) (limit : Z) : list product :=
  let min_score := target_score * (9 # 10) in
  match execute_query self cat max_price min_score limit with
  | Py.Return results => map process_row results
  | Py.Raise _ => []
  end.

End Json.

End ProductDb.

(** ** Numeric helpers over [R] *)

Module RNum.

Local Open Scope R_scope.

Definition Rleb (x y : R) : bool := if Rle_dec x y then true else false.

(** Round half to even, to an integer. *)
Definition round_half_even_R (x : R) : Z :=
  let f := Int_part x in
  let r := x - IZR f in
  if Rlt_dec r (1 / 2) then f
  else if Rlt_dec (1 / 2) r then (f + 1)%Z
  else if Z.even f then f else (f + 1)%Z.

(** [round(x, ndigits)] *)
Definition py_round_R (x : R) (ndigits : nat) : R :=
  IZR (round_half_even_R (x * 10 ^ ndigits)) / 10 ^ ndigits.

Definition vector := list R.

(** [np.dot(a, b)].  The vectors of one index have the length fixed by the
    embedding model; on vectors of different lengths, where numpy raises,
    the sum stops at the shorter one. *)
Definition dot (a b : vector) : R :=
  fold_right (fun p acc => fst p * snd p + acc) 0 (combine a b).

(** [np.linalg.norm(a)] *)
Definition norm (a : vector) : R := sqrt (dot a a).

(** Squared Euclidean distance, the default distance of a Chroma
    collection. *)
Definition sq_l2 (a b : vector) : R :=
  fold_right (fun p acc => (fst p - snd p) * (fst p - snd p) + acc) 0 (combine a b).

(** [1e-10] *)
Definition eps : R := / 10 ^ 10.

End RNum.

(** ** [recommendations.py]: class [ProductRecommendationEngine] *)

Module Recommender.

Import Catalog Py RNum.
Local Open Scope R_scope.

(** Metadata stored with a vector in the Chroma collection. *)
Record metadata : Type := {
  md_name : string;
  md_category : string;
  md_price : Q;
  md_rating : option Q;
  md_platform : string
}.

(** One entry of the Chroma collection.  Its id is [str(product_id)], read
    back with [int]; the model keeps the integer. *)
Record chroma_item : Type := {
  item_id : Z;
  item_embedding : vector;
  item_metadata : metadata;
  item_document : string
}.

(** The engine with its stores: the [products] table, table
    [product_embeddings] (rows in key order) and the Chroma collection. *)
Record engine : Type := {
  use_chroma : bool;
  products : list product_row;
  embeddings_table : list (Z * vector);
  collection : list chroma_item
}.

Definition with_table (self : engine) (t : list (Z * vector)) : engine :=
  {| use_chroma := use_chroma self; products := products self;
     embeddings_table := t; collection := collection self |}.

Definition with_collection (self : engine) (c : list chroma_item) : engine :=
  {| use_chroma := use_chroma self; products := products self;
     embeddings_table := embeddings_table self; collection := c |}.

(** An element of the list returned by [get_recommendations]. *)
Record recommendation : Type := {
  rec_id : Z;
  rec_name : string;
  rec_category : string;
  rec_price : Q;
  rec_rating : option Q;
  rec_platform : string;
  similarity_score : R;
  description_preview : string
}.

(** [document[:100] + "..." if len(document) > 100 else document] *)
Definition preview (document : string) : string :=
  if (100 <? String.length document)%nat
  then String.substring 0 100 document ++ "..."
  else document.

(** [f"{product['name']} - {product['description']}"] *)
Definition text_to_embed (p : product_row) : string :=
  name p ++ " - " ++ match description p with Some d => d | None => "None" end.

Definition metadata_of (p : product_row) : metadata :=
  {| md_name := name p; md_category := category p; md_price := price p;
     md_rating := rating p; md_platform := platform p |}.

(** [INSERT OR REPLACE] into a table with an integer primary key. *)
Fixpoint table_put (pid : Z) (emb : vector) (t : list (Z * vector)) : list (Z * vector) :=
  match t with
  | [] => [(pid, emb)]
  | (k, v) :: rest =>
      if (pid <? k)%Z then (pid, emb) :: (k, v) :: rest
      else if (pid =? k)%Z then (pid, emb) :: rest
      else (k, v) :: table_put pid emb rest
  end.

Fixpoint table_get (pid : Z) (t : list (Z * vector)) : option vector :=
  match t with
  | [] => None
  | (k, v) :: rest => if (pid =? k)%Z then Some v else table_get pid rest
  end.

Definition in_collection (pid : Z) (c : list chroma_item) : bool :=
  existsb (fun it => (item_id it =? pid)%Z) c.

(** A metadata dictionary that [collection.add] accepts: Chroma takes
    strings, numbers and booleans as values and raises on [None].  Of
    the five values only [rating] comes from a nullable column. *)
Definition accepted_metadata (md : metadata) : bool :=
  match md_rating md with
  | Some _ => true
  | None => false
  end.

(** [l[:n]] *)
Definition py_prefix {A : Type} (n : Z) (l : list A) : list A :=
  if (0 <=? n)%Z then firstn (Z.to_nat n) l
  else firstn (List.length l - Z.to_nat (- n)) l.

(** [np.dot(row, target) / (norm(row) * (norm(target) + 1e-10))].  For a
    stored zero vector numpy yields [nan]; the statements below that
    depend on the value assume stored vectors are not zero. *)
Definition cosine (row target : vector) : R :=
  dot row target / (norm row * (norm target + eps)).

Section Engine.

(** The embedding provider, the fault plan, and what [collection.add] does
    with an id that is already stored: raise, or skip it. *)
Variable encode : string -> vector.
Variable fails : faults.
Variable add_rejects_duplicates : bool.

(** [if not self.model: ...; if not self.collection: ...] *)
Definition ensure_ready : result unit :=
  _ <- attempt fails LoadModel ;; attempt fails InitVectorDb.

(** [self.collection]: stays [None] without Chroma. *)
Definition collection_handle (self : engine) : option (list chroma_item) :=
  if use_chroma self then Some (collection self) else None.

(** [get_products_from_db] *)
Definition get_products_from_db (self : engine) : result (list product_row) :=
  _ <- attempt fails SelectProducts ;;
  Return (filter has_description (products self)).

(** [SELECT ... WHERE id = ? AND description IS NOT NULL AND description != ''] *)
Definition select_described (self : engine) (product_id : Z) : result (option product_row) :=
  _ <- attempt fails (SelectProductById product_id) ;;
  Return (match find_by_id product_id (products self) with
          | Some p => if has_description p then Some p else None
          | None => None
          end).

(** [self.model.encode(texts)] *)
Definition model_encode (texts : list string) : result (list vector) :=
  _ <- attempt fails Encode ;; Return (map encode texts).

(** [collection.query(query_embeddings, n_results)]: the stored entries
    with their distance to the query, nearest first. *)
Definition chroma_query (c : list chroma_item) (q : vector) (n_results : Z)
    : result (list (chroma_item * R)) :=
  _ <- attempt fails ChromaQuery ;;
  if (n_results <=? 0)%Z then Raise (BackendError ChromaQuery)
  else Return (firstn (Z.to_nat n_results)
                 (Sort.sort (fun a b => Rleb (snd a) (snd b))
                    (map (fun it => (it, sq_l2 (item_embedding it) q)) c))).

(** [collection.add(...)]: the call validates its arguments before it
    writes, and refuses a metadata value [None]. *)
Definition chroma_add (items c : list chroma_item) : result (list chroma_item) :=
  _ <- attempt fails ChromaAdd ;;
  if negb (forallb (fun it => accepted_metadata (item_metadata it)) items)
  then Raise (BackendError ChromaAdd)
  else if add_rejects_duplicates && existsb (fun it => in_collection (item_id it) c) items
  then Raise (BackendError ChromaAdd)
  else Return (c ++ filter (fun it => negb (in_collection (item_id it) c)) items)%list.

(** The [for ... in zip(results[...])] loop of the Chroma branch. *)
Fixpoint chroma_loop (product_id num_recommendations : Z)
    (results : list (chroma_item * R)) (recommendations : list recommendation)
    : list recommendation :=
  match results with
  | [] => recommendations
  | (it, distance) :: rest =>
      if (item_id it =? product_id)%Z
      then chroma_loop product_id num_recommendations rest recommendations
      else
        let similarity := 1 / (1 + distance) in
        let document := item_document it in
        let recommendation :=
          {| rec_id := item_id it;
             rec_name := md_name (item_metadata it);
             rec_category := md_category (item_metadata it);
             rec_price := md_price (item_metadata it);
             rec_rating := md_rating (item_metadata it);
             rec_platform := md_platform (item_metadata it);
             similarity_score := py_round_R similarity 4;
             description_preview := preview document |} in
        let recommendations := (recommendations ++ [recommendation])%list in
        if (num_recommendations <=? Z.of_nat (List.length recommendations))%Z
        then recommendations
        else chroma_loop product_id num_recommendations rest recommendations
  end.

(** [pairs]: ids with similarities, target excluded, sorted by
    [pairs.sort(key=lambda x: x[1], reverse=True)]. *)
Definition ranked_pairs (rows : list (Z * vector)) (target_vec : vector)
    (product_id : Z) : list (Z * R) :=
  Sort.sort (fun a b => Rleb (snd b) (snd a))
    (filter (fun p => negb (fst p =? product_id)%Z)
       (map (fun r => (fst r, cosine (snd r) target_vec)) rows)).

(** The [for pid, sim in top] loop of the SQLite branch. *)
Fixpoint exact_loop (rows : list product_row) (top : list (Z * R))
    (recommendations : list recommendation) : result (list recommendation) :=
  match top with
  | [] => Return recommendations
  | (pid, sim) :: rest =>
      _ <- attempt fails (SelectProductById pid) ;;
      match find_by_id pid rows with
      | None => exact_loop rows rest recommendations
      | Some row =>
          let document := match description row with Some d => d | None => "" end in
          let recommendation :=
            {| rec_id := id row;
               rec_name := name row;
               rec_category := category row;
               rec_price := price row;
               rec_rating := rating row;
               rec_platform := platform row;
               similarity_score := py_round_R sim 4;
               description_preview := preview document |} in
          exact_loop rows rest (recommendations ++ [recommendation])%list
      end
  end.

(** [get_recommendations]; it does not change the stores. *)
Definition get_recommendations (self : engine) (product_id num_recommendations : Z)
    : result (list recommendation) :=
  _ <- ensure_ready ;;
  target_product <- select_described self product_id ;;
  match target_product with
  | None => Return []
  | Some target_product =>
      let target_text := text_to_embed target_product in
      target_embedding <- model_encode [target_text] ;;
      if use_chroma self then
        results <- chroma_query (collection self) (hd [] target_embedding)
                     (num_recommendations + 1) ;;
        Return (chroma_loop product_id num_recommendations results [])
      else
        rows <- (_ <- attempt fails SelectEmbeddings ;; Return (embeddings_table self)) ;;
        match rows with
        | [] => Return []
        | _ :: _ =>
            let target_vec := hd [] target_embedding in
            let pairs := ranked_pairs rows target_vec product_id in
            let top := py_prefix num_recommendations pairs in
            exact_loop (products self) top []
        end
  end.

(** The SQLite branch of the rebuild, inside one transaction: the rows
    written since [DELETE], or the exception that ends the transaction
    before [commit]. *)
Fixpoint insert_all (rows : list (Z * vector)) (t : list (Z * vector))
    : result (list (Z * vector)) :=
  match rows with
  | [] => Return t
  | (pid, emb) :: rest =>
      _ <- attempt fails (InsertEmbedding pid) ;;
      insert_all rest (table_put pid emb t)
  end.

Definition sqlite_rebuild (product_ids : list Z) (embeddings : list vector)
    : result (list (Z * vector)) :=
  _ <- attempt fails DeleteEmbeddings ;;
  t <- insert_all (combine product_ids embeddings) [] ;;
  _ <- attempt fails Commit ;;
  Return t.

(** The [try: existing_data = self.collection.get() ... except: warning]
    block: the collection after it. *)
Definition clear_collection (c : list chroma_item) : list chroma_item :=
  match attempt fails ChromaGet with
  | Raise _ => c
  | Return _ =>
      match c with
      | [] => c
      | _ :: _ =>
          match attempt fails ChromaDelete with
          | Raise _ => c
          | Return _ => []
          end
      end
  end.

(** [generate_embeddings_for_all_products]: the engine afterwards, and how
    the call ended. *)
Definition generate_embeddings_for_all_products (self : engine)
    : engine * result unit :=
  match ensure_ready with
  | Raise e => (self, Raise e)
  | Return _ =>
  match get_products_from_db self with
  | Raise e => (self, Raise e)
  | Return [] => (self, Return tt)
  | Return ((_ :: _) as products) =>
      let descriptions := map text_to_embed products in
      let product_ids := map id products in
      let metadatas := map metadata_of products in
      match model_encode descriptions with
      | Raise e => (self, Raise e)
      | Return embeddings =>
          if use_chroma self then
            let cleared := with_collection self (clear_collection (collection self)) in
            let items :=
              map (fun x =>
                     {| item_id := fst (fst (fst x));
                        item_embedding := snd (fst (fst x));
                        item_metadata := snd x;
                        item_document := snd (fst x) |})
                (combine (combine (combine product_ids embeddings) descriptions)
                   metadatas) in
            match chroma_add items (collection cleared) with
            | Raise e => (cleared, Raise e)
            | Return c => (with_collection cleared c, Return tt)
            end
          else
            match sqlite_rebuild product_ids embeddings with
            | Raise e => (self, Raise e)
            | Return t => (with_table self t, Return tt)
            end
      end
  end
  end.

(** [add_product_embedding] *)
Definition add_product_embedding (self : engine) (product_id : Z)
    : engine * result unit :=
  match ensure_ready with
  | Raise e => (self, Raise e)
  | Return _ =>
  match select_described self product_id with
  | Raise e => (self, Raise e)
  | Return None => (self, Return tt)
  | Return (Some product) =>
      let text := text_to_embed product in
      match model_encode [text] with
      | Raise e => (self, Raise e)
      | Return embedding =>
          match collection_handle self with
          | None => (self, Raise AttributeError)
          | Some c =>
              let item :=
                {| item_id := product_id;
                   item_embedding := hd [] embedding;
                   item_metadata := metadata_of product;
                   item_document := text |} in
              match chroma_add [item] c with
              | Raise e => (self, Raise e)
              | Return c' => (with_collection self c', Return tt)
              end
          end
      end
  end
  end.

(** The vectors stored for [pid] in the index the engine is configured
    to use. *)
Definition stored_vectors (self : engine) (pid : Z) : nat :=
  if use_chroma self
  then List.length (filter (fun it => (item_id it =? pid)%Z) (collection self))
  else List.length (filter (fun r => (fst r =? pid)%Z) (embeddings_table self)).

(** The number of entries of that index. *)
Definition index_size (self : engine) : nat :=
  if use_chroma self then List.length (collection self)
  else List.length (embeddings_table self).

End Engine.

End Recommender.

(** ** Invariants and tables used in the statements about the scorer *)

Module ScorerInv.

Import QualityScorer.
Local Open Scope Q_scope.

(** Every value of a feature set is non-negative. *)
Definition nonneg_values (d : Dict.dict Q) : Prop := Forall (fun kv => 0 <= snd kv) d.

(** Every entry of a reference table is positive. *)
Definition positive_values (d : Dict.dict Q) : Prop := Forall (fun kv => 0 < snd kv) d.

(** The categories registered by [__init__]. *)
Definition registered : list string :=
  ["headphones"; "trimmer"; "mixer"; "smartphone"; "laptop"; "clothing"; "general"].

(** The quality score of an empty [specs] mapping, by category. *)
Definition empty_specs_score (category : string) : Q :=
  if String.eqb category "headphones" || String.eqb category "trimmer" then 48
  else if String.eqb category "clothing" then 72
  else if String.eqb category "mixer" || String.eqb category "smartphone"
          || String.eqb category "laptop" then 60
  else 70.

End ScorerInv.

(** ** The contract of [find_alternatives] *)

Module DbSpec.
Import Catalog ProductDb.
Local Open Scope Q_scope.

(** Same category, within the price cap, score within the 10% band. *)
Definition matches (cat : string) (target_score max_price : Q) (r : product_row) : Prop :=
  category r = cat /\ price r <= max_price /\
  exists s, final_score r = Some s /\ target_score * (9 # 10) <= s.

(** Descending final score, then ascending price. *)
Definition before (a b : product_row) : Prop :=
  exists sa sb, final_score a = Some sa /\ final_score b = Some sb /\
    (sb < sa \/ (sa == sb /\ price a <= price b)).

(** What [find_alternatives] owes its caller: [found] holds matching rows
    only, best first, at most [limit] of them, and the matching rows left
    out ([rest]) exist only when the limit is reached and rank no better. *)
Definition contract (rows : list product_row) (cat : string)
    (target_score max_price : Q) (limit : Z) (found : list product_row) : Prop :=
  (forall r, In r found -> In r rows /\ matches cat target_score max_price r) /\
  StronglySorted before found /\
  (List.length found <= Z.to_nat limit)%nat /\
  (exists rest,
      Permutation (found ++ rest)
        (filter (alternatives_where cat max_price (target_score * (9 # 10))) rows) /\
      (rest = [] \/ List.length found = Z.to_nat limit) /\
      (forall a b, In a found -> In b rest -> before a b)) /\
  (forall r, alternatives_where cat max_price (target_score * (9 # 10)) r = true
             <-> matches cat target_score max_price r) /\
  ((forall r, In r rows -> ~ matches cat target_score max_price r) -> found = []).
End DbSpec.


(** ** Notions used in the statements about the recommender *)

Module RecSpec.
Import Catalog Py RNum Recommender.
Local Open Scope R_scope.

(** The collaborator operations [get_recommendations] performs, in order,
    when none of them raises. *)
Definition recommend_ops (encode : string -> vector) (self : engine)
    (product_id num_recommendations : Z) : list op :=
  [LoadModel; InitVectorDb; SelectProductById product_id] ++
  match find_by_id product_id (products self) with
  | None => []
  | Some p =>
      if has_description p then
        Encode ::
        (if use_chroma self then [ChromaQuery]
         else SelectEmbeddings ::
              map (fun pr => SelectProductById (fst pr))
                (py_prefix num_recommendations
                   (ranked_pairs (embeddings_table self) (encode (text_to_embed p))
                      product_id)))
      else []
  end.

(** The catalogue row behind a ranked neighbour, if there is one. *)
Definition in_catalog (self : engine) (pid : Z) : bool :=
  match find_by_id pid (products self) with Some _ => true | None => false end.

(** Stored embeddings other than the one of [product_id]. *)
Definition other_embeddings (self : engine) (product_id : Z) : nat :=
  List.length (filter (fun r => negb (fst r =? product_id)%Z) (embeddings_table self)).

(** The vector the index should hold for [pid]: the embedding of its text
    when the catalogue has the product with a description. *)
Definition indexed_vector (encode : string -> vector) (self : engine) (pid : Z)
    : option vector :=
  match find_by_id pid (products self) with
  | Some p => if has_description p then Some (encode (text_to_embed p)) else None
  | None => None
  end.

(** The product has a rating: column [rating] is not [NULL]. *)
Definition rated (p : product_row) : bool :=
  match rating p with
  | Some _ => true
  | None => false
  end.

(** The catalogue holds [pid] with a rating. *)
Definition has_rating (self : engine) (pid : Z) : bool :=
  match find_by_id pid (products self) with
  | Some p => rated p
  | None => false
  end.

(** No key twice in table [product_embeddings]. *)
Definition keys_increasing (t : list (Z * vector)) : Prop :=
  StronglySorted Z.lt (map fst t).

(** [after] holds the full rebuild of the exact index of [self]: one
    vector per described product, nothing else, other stores untouched. *)
Definition fully_replaced (encode : string -> vector) (self after : engine) : Prop :=
  use_chroma after = use_chroma self /\ products after = products self /\
  collection after = collection self /\
  keys_increasing (embeddings_table after) /\
  forall pid, table_get pid (embeddings_table after) = indexed_vector encode self pid.

(** The similarity score of [r] lies in [[lo, 1]]. *)
Definition score_within (lo : Z) (r : recommendation) : Prop :=
  IZR lo <= similarity_score r <= 1.
End RecSpec.

Module Fixtures.
Import Catalog Py RNum Recommender.

Definition item (pid : Z) (title cat : string) (cost : Q) (score : option Q)
    (desc : option string) : product_row :=
  {| id := pid; name := title; category := cat; price := cost; rating := Some 4%Q;
     platform := "amazon"; url := None; specs := None; quality_score := score;
     final_score := score; image_url := None; description := desc |}.

Local Open Scope R_scope.

(** An embedding provider that maps every text to the same unit vector. *)
Definition unit_encode (text : string) : vector := [1; 0].

(** Exact backend; products 1 and 3 are in the catalogue, product 2 was
    deleted from it but its embedding is still in the table. *)
Definition stale_shop : engine :=
  {| use_chroma := false;
     products := [item 1 "Alpha" "general" 10 None (Some "first");
                  item 3 "Gamma" "general" 30 None (Some "third")];
     embeddings_table := [(1%Z, [1; 0]); (2%Z, [1; 0]); (3%Z, [0; 1])];
     collection := [] |}.

(** Exact backend; product 2 points the other way. *)
Definition opposite_shop : engine :=
  {| use_chroma := false;
     products := [item 1 "Alpha" "general" 10 None (Some "first");
                  item 2 "Beta" "general" 20 None (Some "second")];
     embeddings_table := [(1%Z, [1; 0]); (2%Z, [-1; 0])];
     collection := [] |}.

(** Exact backend; product 1 is described and alone in the index, product
    4 has no description. *)
Definition lonely_shop : engine :=
  {| use_chroma := false;
     products := [item 1 "Alpha" "general" 10 None (Some "first");
                  item 4 "Delta" "general" 40 None None];
     embeddings_table := [(1%Z, [1; 0])];
     collection := [] |}.

Definition old_item : chroma_item :=
  {| item_id := 9; item_embedding := [0; 1];
     item_metadata := {| md_name := "Old"; md_category := "general"; md_price := 5%Q;
                         md_rating := None; md_platform := "amazon" |};
     item_document := "Old - gone" |}.

(** Chroma backend; the collection holds a stale entry, the catalogue one
    described product. *)
Definition chroma_shop : engine :=
  {| use_chroma := true;
     products := [item 1 "Alpha" "general" 10 None (Some "first")];
     embeddings_table := [];
     collection := [old_item] |}.

(** Exact backend; product 1 is described and not indexed yet. *)
Definition unindexed_shop : engine :=
  {| use_chroma := false;
     products := [item 1 "Alpha" "general" 10 None (Some "first")];
     embeddings_table := [];
     collection := [] |}.

(** The five-row fixture of the alternative finder, and a sixth row of
    another category. *)
Definition catalog_rows : list product_row :=
  [item 1 "HP-1" "headphones" 900 (Some 85%Q) None;
   item 2 "HP-2" "headphones" 1200 (Some 90%Q) None;
   item 3 "HP-3" "headphones" 700 (Some 85%Q) None;
   item 4 "HP-4" "headphones" 500 (Some 70%Q) None;
   item 5 "HP-5" "headphones" 1000 (Some 72%Q) None;
   item 6 "TR-1" "trimmer" 300 (Some 95%Q) None].

Definition working_catalog : ProductDb.database :=
  {| ProductDb.available := true; ProductDb.products := catalog_rows |}.

(** The same table behind a connection that raises. *)
Definition broken_catalog : ProductDb.database :=
  {| ProductDb.available := false; ProductDb.products := catalog_rows |}.

(** A [json.loads] that parses nothing. *)
Definition no_json (s : string) : option unit := None.

(** Only [model.encode] raises. *)
Definition encode_fails : faults :=
  fun o => match o with Encode => true | _ => false end.

(** Only [collection.add] raises. *)
Definition add_fails : faults :=
  fun o => match o with ChromaAdd => true | _ => false end.

End Fixtures.

(** ** The records built by the two loops of [get_recommendations] *)

Module RecBuild.

Import Catalog Py RNum Recommender.
Local Open Scope R_scope.

(** The dictionary built in the Chroma loop from one query result. *)
Definition of_item (it : chroma_item) (distance : R) : recommendation :=
  {| rec_id := item_id it;
     rec_name := md_name (item_metadata it);
     rec_category := md_category (item_metadata it);
     rec_price := md_price (item_metadata it);
     rec_rating := md_rating (item_metadata it);
     rec_platform := md_platform (item_metadata it);
     similarity_score := py_round_R (1 / (1 + distance)) 4;
     description_preview := preview (item_document it) |}.

(** The dictionary built in the SQLite loop from a catalogue row. *)
Definition of_row (row : product_row) (sim : R) : recommendation :=
  {| rec_id := id row;
     rec_name := name row;
     rec_category := category row;
     rec_price := price row;
     rec_rating := rating row;
     rec_platform := platform row;
     similarity_score := py_round_R sim 4;
     description_preview :=
       preview (match description row with Some d => d | None => "" end) |}.

(** The collection entry built for a product by the rebuild and by
    [add_product_embedding]. *)
Definition item_of (encode : string -> vector) (p : product_row) : chroma_item :=
  {| item_id := id p;
     item_embedding := encode (text_to_embed p);
     item_metadata := metadata_of p;
     item_document := text_to_embed p |}.

(** The recommendations are in order of similarity, best first. *)
Definition best_first (recs : list recommendation) : Prop :=
  StronglySorted (fun a b => similarity_score b <= similarity_score a) recs.

End RecBuild.

Module Fixtures2.
Import Catalog Py RNum Recommender.

(** Chroma backend; a stale entry in the collection and a catalogue whose
    only product has no description. *)
Definition undescribed_shop : engine :=
  {| use_chroma := true;
     products := [Fixtures.item 4 "Delta" "general" 40 None None];
     embeddings_table := [];
     collection := [Fixtures.old_item] |}.

(** Chroma backend; products 1 and 2 are indexed, product 3 is described
    and not indexed yet. *)
Definition trio_shop : engine :=
  {| use_chroma := true;
     products := [Fixtures.item 1 "Alpha" "general" 10 None (Some "first");
                  Fixtures.item 2 "Beta" "general" 20 None (Some "second");
                  Fixtures.item 3 "Gamma" "general" 30 None (Some "third")];
     embeddings_table := [];
     collection :=
       [RecBuild.item_of Fixtures.unit_encode
          (Fixtures.item 1 "Alpha" "general" 10 None (Some "first"));
        RecBuild.item_of Fixtures.unit_encode
          (Fixtures.item 2 "Beta" "general" 20 None (Some "second"))] |}.
(** Exact backend; product 2, the only neighbour of product 1, has no
    rating. *)
Definition unrated_shop : engine :=
  {| use_chroma := false;
     products :=
       [Fixtures.item 1 "Alpha" "general" 10 None (Some "first");
        {| id := 2; name := "Beta"; category := "general"; price := 20; rating := None;
           platform := "amazon"; url := None; specs := None; quality_score := None;
           final_score := None; image_url := None; description := Some "second" |}];
     embeddings_table := [(1%Z, [1%R; 0%R]); (2%Z, [(-1)%R; 0%R])];
     collection := [] |}.
(** Exact backend; three described products.  Product 3 has the vector
    of product 1, product 2 a vector at a right angle to it. *)
Definition ranked_shop : engine :=
  {| use_chroma := false;
     products := [Fixtures.item 1 "Alpha" "general" 10 None (Some "first");
                  Fixtures.item 2 "Beta" "general" 20 None (Some "second");
                  Fixtures.item 3 "Gamma" "general" 30 None (Some "third")];
     embeddings_table := [(1%Z, [1%R; 0%R]); (2%Z, [0%R; 1%R]); (3%Z, [1%R; 0%R])];
     collection := [] |}.
End Fixtures2.

(** ** [product_db.py]: the methods that write and read single tables

    The [products] table is kept with the counter of [AUTOINCREMENT]
    (table [sqlite_sequence]).  Columns [created_at] and [updated_at]
    are not modelled. *)

Module Store.

Import Catalog.
Local Open Scope Q_scope.

(** What a [dict] holds under a key: nothing, [None], or a value. *)
Inductive field (A : Type) : Type :=
| Missing
| PyNone
| Value (a : A).

Arguments Missing {A}.
Arguments PyNone {A}.
Arguments Value {A} a.

(** [d.get(key, default)] *)
Definition get_or {A : Type} (f : field A) (default : A) : option A :=
  match f with
  | Missing => Some default
  | PyNone => None
  | Value a => Some a
  end.

(** [key in d] *)
Definition present {A : Type} (f : field A) : bool :=
  match f with Missing => false | _ => true end.

(** The [DatabaseConnection]: whether SQLite answers, table [products]
    in rowid order, and the largest rowid the table ever held. *)
Record store : Type := {
  available : bool;
  rows : list product_row;
  sequence : Z
}.

Definition with_rows (self : store) (rs : list product_row) : store :=
  {| available := available self; rows := rs; sequence := sequence self |}.

Definition max_id (rs : list product_row) : Z :=
  fold_right (fun r m => Z.max (id r) m) 0%Z rs.

(** The rowid [AUTOINCREMENT] gives the next inserted row. *)
Definition next_id (self : store) : Z := (Z.max (sequence self) (max_id (rows self)) + 1)%Z.

(** The columns of the listing queries ([get_products_by_category],
    [search_products]). *)
Record listing : Type := {
  l_id : Z;
  l_name : string;
  l_category : string;
  l_price : Q;
  l_rating : option Q;
  l_platform : string;
  l_url : option string;
  l_quality_score : option Q;
  l_final_score : option Q;
  l_image_url : option string
}.

Definition listing_of (r : product_row) : listing :=
  {| l_id := id r; l_name := name r; l_category := category r; l_price := price r;
     l_rating := rating r; l_platform := platform r; l_url := url r;
     l_quality_score := quality_score r; l_final_score := final_score r;
     l_image_url := image_url r |}.

(** [LIMIT n OFFSET k]: a negative offset is no offset, a negative limit
    no limit. *)
Definition sql_limit_offset {A : Type} (n k : Z) (l : list A) : list A :=
  ProductDb.sql_limit n (skipn (Z.to_nat k) l).

(** [get_products_by_category] *)
Definition get_products_by_category (self : store) (cat : string) (page limit : Z)
    : list listing :=
  let offset := ((page - 1) * limit)%Z in
  if available self then
    map listing_of
      (sql_limit_offset limit offset
         (Sort.sort ProductDb.alternatives_order
            (filter (fun r => String.eqb (category r) cat) (rows self))))
  else [].

(** SQLite's [LIKE] on ASCII text: [%] stands for any run of characters,
    [_] for one character, letters match without regard to case. *)
Fixpoint like (pattern text : string) : bool :=
  match pattern with
  | EmptyString => match text with EmptyString => true | String _ _ => false end
  | String p pattern' =>
      if Ascii.eqb p "%" then
        (fix any_run (t : string) : bool :=
           like pattern' t ||
           match t with
           | EmptyString => false
           | String _ t' => any_run t'
           end) text
      else
        match text with
        | EmptyString => false
        | String c text' =>
            (Ascii.eqb p "_" || Ascii.eqb (Text.lower_char p) (Text.lower_char c))
            && like pattern' text'
        end
  end.

(** [x LIKE ?] on a nullable column: [NULL LIKE ...] is not true. *)
Definition like_column (pattern : string) (x : option string) : bool :=
  match x with
  | Some s => like pattern s
  | None => false
  end.

(** The [WHERE] clause of [search_products]; [if category:] skips the
    category test for [None] and for the empty string. *)
Definition search_where (query : string) (cat : option string) (r : product_row) : bool :=
  let pattern := ("%" ++ query ++ "%")%string in
  (like pattern (name r) || like_column pattern (description r))
  && match cat with
     | Some c => if String.eqb c "" then true else String.eqb (category r) c
     | None => true
     end.

(** [if category:] *)
Definition category_given (cat : option string) : bool :=
  match cat with
  | Some c => negb (String.eqb c "")
  | None => false
  end.

(** The order in which SQLite reads the rows it then sorts.  With a
    category it finds them through [idx_products_category], in rowid
    order.  Without one it walks [idx_products_final_score] backwards,
    so rows come by descending rowid, and rows that tie on
    [(final_score, price)] are returned in that order. *)
Definition scan_order (cat : option string) (rs : list product_row) : list product_row :=
  if category_given cat then rs else rev rs.

(** [search_products] *)
Definition search_products (self : store) (query : string) (cat : option string)
    (limit : Z) : list listing :=
  if available self then
    map listing_of
      (ProductDb.sql_limit limit
         (Sort.sort ProductDb.alternatives_order
            (scan_order cat (filter (search_where query cat) (rows self)))))
  else [].

(** [delete_product]: [rows_affected > 0]. *)
Definition delete_product (self : store) (product_id : Z) : store * bool :=
  if available self then
    let kept := filter (fun r => negb (id r =? product_id)%Z) (rows self) in
    (with_rows self kept, (List.length kept <? List.length (rows self))%nat)
  else (self, false).

Section Json.

(** [json.dumps] and [json.loads] are collaborators; [empty_object] is
    [{}] and [null] is [None]. *)
Variable json : Type.
Variable json_dumps : json -> string.
Variable json_loads : string -> option json.
Variable empty_object : json.
Variable null : json.

(** The [product_data] dictionary, by the keys the methods read. *)
Record product_data : Type := {
  pd_name : field string;
  pd_category : field string;
  pd_price : field Q;
  pd_rating : field Q;
  pd_platform : field string;
  pd_url : field string;
  pd_specs : field json;
  pd_quality_score : field Q;
  pd_final_score : field Q;
  pd_image_url : field string;
  pd_description : field string
}.

(** [json.dumps(product_data.get('specs', {}))] *)
Definition specs_text (f : field json) : string :=
  match f with
  | Missing => json_dumps empty_object
  | PyNone => json_dumps null
  | Value j => json_dumps j
  end.

(** The row [INSERT] writes for [insert_data] under rowid [new_id];
    [None] when a [NOT NULL] column ([name], [category], [price],
    [platform]) would get [NULL]. *)
Definition new_row (new_id : Z) (pd : product_data) : option product_row :=
  match get_or (pd_name pd) "", get_or (pd_category pd) "general",
        get_or (pd_price pd) 0, get_or (pd_platform pd) "" with
  | Some n, Some c, Some p, Some pf =>
      Some {| id := new_id; name := n; category := c; price := p;
              rating := get_or (pd_rating pd) 4;
              platform := pf;
              url := get_or (pd_url pd) "";
              specs := Some (specs_text (pd_specs pd));
              quality_score := get_or (pd_quality_score pd) 0;
              final_score := get_or (pd_final_score pd) 0;
              image_url := get_or (pd_image_url pd) "";
              description := get_or (pd_description pd) "" |}
  | _, _, _, _ => None
  end.

(** [add_product]: the store afterwards and the returned id; a failed
    statement is rolled back and [None] returned. *)
Definition add_product (self : store) (pd : product_data) : store * option Z :=
  if available self then
    match new_row (next_id self) pd with
    | Some r =>
        ({| available := true; rows := (rows self ++ [r])%list;
            sequence := next_id self |}, Some (next_id self))
    | None => (self, None)
    end
  else (self, None).

(** [executemany] of the same [INSERT]: the rows written so far, or
    [None] at the first statement that fails. *)
Fixpoint insert_many (self : store) (pds : list product_data) : option store :=
  match pds with
  | [] => Some self
  | pd :: rest =>
      match new_row (next_id self) pd with
      | Some r =>
          insert_many {| available := available self; rows := (rows self ++ [r])%list;
                         sequence := next_id self |} rest
      | None => None
      end
  end.

(** [batch_insert_products]: commit and the row count, or rollback and
    [0]. *)
Definition batch_insert_products (self : store) (pds : list product_data) : store * Z :=
  if available self then
    match insert_many self pds with
    | Some after => (after, Z.of_nat (List.length pds))
    | None => (self, 0%Z)
    end
  else (self, 0%Z).

(** [get_product_by_id] *)
Definition get_product_by_id (self : store) (product_id : Z)
    : option (ProductDb.product json) :=
  if available self then
    match find_by_id product_id (rows self) with
    | Some r => Some (ProductDb.process_row json json_loads empty_object r)
    | None => None
    end
  else None.

(** A column of an [UPDATE ... SET] list: kept, or set to the value
    given, which may be [NULL]. *)
Definition assign {A : Type} (f : field A) (old : option A) : option A :=
  match f with
  | Missing => old
  | PyNone => None
  | Value a => Some a
  end.

(** The same for a [NOT NULL] column; [None] is the constraint
    violation. *)
Definition assign_not_null {A : Type} (f : field A) (old : A) : option A :=
  match f with
  | Missing => Some old
  | PyNone => None
  | Value a => Some a
  end.

(** The row after the [UPDATE] of [update_product]. *)
Definition updated_row (pd : product_data) (r : product_row) : option product_row :=
  match assign_not_null (pd_name pd) (name r), assign_not_null (pd_category pd) (category r),
        assign_not_null (pd_price pd) (price r),
        assign_not_null (pd_platform pd) (platform r) with
  | Some n, Some c, Some p, Some pf =>
      Some {| id := id r; name := n; category := c; price := p;
              rating := assign (pd_rating pd) (rating r);
              platform := pf;
              url := assign (pd_url pd) (url r);
              specs := match pd_specs pd with
                       | Missing => specs r
                       | f => Some (specs_text f)
                       end;
              quality_score := assign (pd_quality_score pd) (quality_score r);
              final_score := assign (pd_final_score pd) (final_score r);
              image_url := assign (pd_image_url pd) (image_url r);
              description := assign (pd_description pd) (description r) |}
  | _, _, _, _ => None
  end.

(** [if not update_fields] *)
Definition no_update_fields (pd : product_data) : bool :=
  negb (present (pd_name pd) || present (pd_category pd) || present (pd_price pd)
        || present (pd_rating pd) || present (pd_platform pd) || present (pd_url pd)
        || present (pd_specs pd) || present (pd_quality_score pd)
        || present (pd_final_score pd) || present (pd_image_url pd)
        || present (pd_description pd)).

(** The table after [UPDATE products SET ... WHERE id = ?], and the
    number of rows changed; [None] when a row violates a constraint. *)
Fixpoint update_rows (pd : product_data) (product_id : Z) (rs : list product_row)
    : option (list product_row * nat) :=
  match rs with
  | [] => Some ([], 0%nat)
  | r :: rest =>
      match update_rows pd product_id rest with
      | None => None
      | Some (rest', n) =>
          if (id r =? product_id)%Z then
            match updated_row pd r with
            | Some r' => Some (r' :: rest', S n)
            | None => None
            end
          else Some (r :: rest', n)
      end
  end.

(** [update_product] *)
Definition update_product (self : store) (product_id : Z) (pd : product_data)
    : store * bool :=
  if no_update_fields pd then (self, false)
  else if available self then
    match update_rows pd product_id (rows self) with
    | Some (rs, n) => (with_rows self rs, (0 <? n)%nat)
    | None => (self, false)
    end
  else (self, false).

End Json.

Arguments pd_name {json} p.
Arguments pd_category {json} p.
Arguments pd_price {json} p.
Arguments pd_rating {json} p.
Arguments pd_platform {json} p.
Arguments pd_url {json} p.
Arguments pd_specs {json} p.
Arguments pd_quality_score {json} p.
Arguments pd_final_score {json} p.
Arguments pd_image_url {json} p.
Arguments pd_description {json} p.

End Store.

(** ** Notions used in the statements about the store *)

Module StoreSpec.
Import Catalog Store.

(** No [NOT NULL] column of the row to insert is given as [None]. *)
Definition storable {json : Type} (pd : product_data json) : bool :=
  match pd_name pd, pd_category pd, pd_price pd, pd_platform pd with
  | PyNone, _, _, _ | _, PyNone, _, _ | _, _, PyNone, _ | _, _, _, PyNone => false
  | _, _, _, _ => true
  end.

(** The text holds neither of the wildcards of [LIKE]. *)
Fixpoint wildcard_free (s : string) : bool :=
  match s with
  | EmptyString => true
  | String c s' => negb (Ascii.eqb c "%") && negb (Ascii.eqb c "_") && wildcard_free s'
  end.

(** [needle] occurs in [text], letters compared without regard to case. *)
Definition occurs_in (needle text : string) : bool :=
  Text.contains (Text.lower needle) (Text.lower text).

(** The complete listing of a category, in the order of the listing
    queries. *)
Definition whole_category (self : store) (cat : string) : list listing :=
  map listing_of
    (Sort.sort ProductDb.alternatives_order
       (filter (fun r => String.eqb (category r) cat) (rows self))).

(** Pages [1] to [n]. *)
Fixpoint pages (self : store) (cat : string) (limit : Z) (n : nat) : list listing :=
  match n with
  | O => []
  | S m => (pages self cat limit m
            ++ get_products_by_category self cat (Z.of_nat n) limit)%list
  end.

(** A [json] stand-in for examples: a document is its text behind a
    one-character mark. *)
Definition sample_dumps (j : string) : string := String "j" j.
Definition sample_loads (s : string) : option string :=
  match s with
  | String "j" rest => Some rest
  | _ => None
  end.

Definition sample_data : product_data string :=
  {| pd_name := Value "Rockerz"; pd_category := Value "headphones";
     pd_price := Value 1499%Q; pd_rating := Missing; pd_platform := Value "amazon";
     pd_url := Missing; pd_specs := Value "battery"; pd_quality_score := Value 48%Q;
     pd_final_score := Value (192 # 5)%Q; pd_image_url := Missing;
     pd_description := PyNone |}.

(** A product without a price: [price] is given as [None]. *)
Definition unpriced_data : product_data string :=
  {| pd_name := Value "Nameless"; pd_category := Missing;
     pd_price := PyNone; pd_rating := Missing; pd_platform := Missing;
     pd_url := Missing; pd_specs := Missing; pd_quality_score := Missing;
     pd_final_score := Missing; pd_image_url := Missing;
     pd_description := Missing |}.

Definition sample_store : store :=
  {| available := true; rows := Fixtures.catalog_rows; sequence := 6 |}.

End StoreSpec.

(** ** What the scraper and the image processor hand over

    [scrape_product] and [extract_product_info] catch their own
    exceptions and return [None], an empty dictionary, or a dictionary
    that holds every key below with a value of its type. *)

Module Scraped.

Import QualityScorer.

Record product_data : Type := {
  name : string;
  price : Q;
  rating : Q;
  specs : specs_dict;
  category : string;
  platform : option string;   (* the scraper sets it, the image processor does not *)
  url : option string
}.

End Scraped.

(** ** [data_collector.py]: class [DataCollector] *)

Module Collector.

Import QualityScorer.
Local Open Scope Q_scope.

Section Collect.

(** [scraper.scrape_product], and [json.dumps] with the JSON value of
    a specification dictionary. *)
Variable scrape_product : string -> option Scraped.product_data.
Variable json : Type.
Variable json_dumps : json -> string.
Variable empty_object : json.
Variable null : json.
Variable json_of_specs : specs_dict -> json.

Definition field_of {A : Type} (x : option A) : Store.field A :=
  match x with
  | Some a => Store.Value a
  | None => Store.Missing
  end.

(** [product_data] as [add_product] gets it, the two scores added. *)
Definition scored (pd : Scraped.product_data) (quality_score final_score : Q)
    : Store.product_data json :=
  {| Store.pd_name := Store.Value (Scraped.name pd);
     Store.pd_category := Store.Value (Scraped.category pd);
     Store.pd_price := Store.Value (Scraped.price pd);
     Store.pd_rating := Store.Value (Scraped.rating pd);
     Store.pd_platform := field_of (Scraped.platform pd);
     Store.pd_url := field_of (Scraped.url pd);
     Store.pd_specs := Store.Value (json_of_specs (Scraped.specs pd));
     Store.pd_quality_score := Store.Value quality_score;
     Store.pd_final_score := Store.Value final_score;
     Store.pd_image_url := Store.Missing;
     Store.pd_description := Store.Missing |}.

(** The body of the [for] loop of [collect_category_data]. *)
Definition collect_one (scorer : scorer) (state : Store.store * Z) (url : string)
    : Store.store * Z :=
  let (db, success_count) := state in
  match scrape_product url with
  | None => (db, success_count)
  | Some product_data =>
      let quality_score :=
        calculate_quality_score scorer (Scraped.specs product_data)
          (Scraped.category product_data) in
      let final_score := calculate_final_score quality_score (Scraped.rating product_data) in
      match Store.add_product json json_dumps empty_object null db
              (scored product_data quality_score final_score) with
      | (db', Some product_id) =>
          if (product_id =? 0)%Z then (db', success_count)
          else (db', (success_count + 1)%Z)
      | (db', None) => (db', success_count)
      end
  end.

(** The products of the pages the scraper can read, in the order of
    the list. *)
Definition readable (urls : list string) : list Scraped.product_data :=
  flat_map (fun url => match scrape_product url with
                       | Some pd => [pd]
                       | None => []
                       end) urls.

(** [collect_category_data]: the database afterwards and the count
    returned.  The [category] argument is only logged. *)
Definition collect_category_data (scorer : scorer) (db : Store.store) (category : string)
    (urls : list string) : Store.store * Z :=
  fold_left (collect_one scorer) urls (db, 0%Z).

End Collect.

End Collector.

(** ** [routes.py] *)

Module Routes.

Import Catalog Py RNum QualityScorer.
Local Open Scope Q_scope.

(** How a route ends: with a body (status 200) or with an
    [HTTPException]. *)
Inductive response (A : Type) : Type :=
| Ok (body : A)
| HTTPException (status_code : Z).

Arguments Ok {A} body.
Arguments HTTPException {A} status_code.

(** What a [try] body raises: an [HTTPException], or anything else. *)
Inductive raised : Type :=
| Http (status_code : Z)
| OtherError.

(** [RecommendationResponse] *)
Record RecommendationResponse : Type := {
  rr_id : Z;
  rr_name : string;
  rr_category : string;
  rr_price : Q;
  rr_rating : Q;
  rr_platform : string;
  rr_similarity_score : R;
  rr_description_preview : string
}.

(** Building a [RecommendationResponse] from a recommendation:
    [rating: float] refuses [None]. *)
Definition validate_recommendation (rec : Recommender.recommendation)
    : option RecommendationResponse :=
  match Recommender.rec_rating rec with
  | Some rating =>
      Some {| rr_id := Recommender.rec_id rec; rr_name := Recommender.rec_name rec;
              rr_category := Recommender.rec_category rec;
              rr_price := Recommender.rec_price rec; rr_rating := rating;
              rr_platform := Recommender.rec_platform rec;
              rr_similarity_score := Recommender.similarity_score rec;
              rr_description_preview := Recommender.description_preview rec |}
  | None => None
  end.

(** [[f(x) for x in l]] where [f] may raise: all the results, or
    [None]. *)
Fixpoint validate_all {A B : Type} (f : A -> option B) (l : list A) : option (list B) :=
  match l with
  | [] => Some []
  | x :: rest =>
      match f x with
      | Some y =>
          match validate_all f rest with
          | Some ys => Some (y :: ys)
          | None => None
          end
      | None => None
      end
  end.

Section Recommendations.

Variable encode : string -> vector.
Variable fails : faults.

(** [get_product_recommendations] *)
Definition get_product_recommendations (engine : Recommender.engine)
    (product_id limit : Z) : response (list RecommendationResponse) :=
  let limit := if (20 <? limit)%Z then 20%Z else limit in
  match Recommender.get_recommendations encode fails engine product_id limit with
  | Raise _ => HTTPException 500
  | Return [] => HTTPException 404
  | Return ((_ :: _) as recommendations) =>
      match validate_all validate_recommendation recommendations with
      | Some body => Ok body
      | None => HTTPException 500
      end
  end.

End Recommendations.

(** [ProductInfo] *)
Record ProductInfo : Type := {
  pi_name : string;
  pi_price : Q;
  pi_quality_score : Q;
  pi_final_score : Q;
  pi_rating : Q;
  pi_specs : specs_dict
}.

(** [Alternative] *)
Record Alternative : Type := {
  alt_id : Z;
  alt_name : string;
  alt_category : string;
  alt_price : Q;
  alt_rating : Q;
  alt_platform : string;
  alt_url : string;
  alt_quality_score : Q;
  alt_final_score : Q;
  alt_image_url : option string
}.

(** [AnalysisResponse] *)
Record AnalysisResponse : Type := {
  original_product : ProductInfo;
  alternatives : list Alternative;
  savings_amount : Q;
  savings_percentage : Q;
  recommendation : option Alternative
}.

(** Building an [Alternative] from a returned product: [rating],
    [url], [quality_score] and [final_score] refuse [None]. *)
Definition validate_alternative (r : product_row) : option Alternative :=
  match Catalog.rating r, Catalog.url r, Catalog.quality_score r, Catalog.final_score r with
  | Some rt, Some u, Some q, Some f =>
      Some {| alt_id := Catalog.id r; alt_name := Catalog.name r;
              alt_category := Catalog.category r; alt_price := Catalog.price r;
              alt_rating := rt; alt_platform := Catalog.platform r; alt_url := u;
              alt_quality_score := q; alt_final_score := f;
              alt_image_url := Catalog.image_url r |}
  | _, _, _, _ => None
  end.

(** [if s:] on an optional string. *)
Definition truthy (s : option string) : bool :=
  match s with
  | Some t => negb (String.eqb t "")
  | None => false
  end.

Section Analyze.

(** [scraper.scrape_product], [image_processor.extract_product_info]
    ([None] stands for a falsy result) and [json.loads]. *)
Variable scrape_product : string -> option Scraped.product_data.
Variable extract_product_info : string -> option Scraped.product_data.
Variable json : Type.
Variable json_loads : string -> option json.
Variable empty_object : json.

(** The first statement of the [try] block: the product data, or the
    [HTTPException] raised. *)
Definition read_request (url image : option string) : raised + Scraped.product_data :=
  if truthy url then
    match scrape_product (match url with Some u => u | None => "" end) with
    | Some product_data => inr product_data
    | None => inl (Http 400)
    end
  else if truthy image then
    match extract_product_info (match image with Some i => i | None => "" end) with
    | Some product_data => inr product_data
    | None => inl (Http 400)
    end
  else inl (Http 400).

(** The [try] block of [analyze_product]. *)
Definition analyze_body (scorer : scorer) (db : ProductDb.database)
    (url image : option string) : raised + AnalysisResponse :=
  match read_request url image with
  | inl e => inl e
  | inr product_data =>
      let quality_score :=
        calculate_quality_score scorer (Scraped.specs product_data)
          (Scraped.category product_data) in
      let final_score := calculate_final_score quality_score (Scraped.rating product_data) in
      let alternatives :=
        ProductDb.find_alternatives json json_loads empty_object db
          (Scraped.category product_data) final_score
          (Scraped.price product_data * (8 # 10)) 10 in
      let original_price := Scraped.price product_data in
      let best_alternative := hd_error alternatives in
      let savings :=
        match best_alternative with
        | Some best => original_price - Catalog.price (ProductDb.row json best)
        | None => 0
        end in
      let savings_percentage :=
        if Qlt_le_dec 0 original_price then savings / original_price * 100 else 0 in
      match validate_all (fun alt => validate_alternative (ProductDb.row json alt))
              alternatives with
      | None => inl OtherError
      | Some valid =>
          inr {| original_product :=
                   {| pi_name := Scraped.name product_data;
                      pi_price := original_price;
                      pi_quality_score := quality_score;
                      pi_final_score := final_score;
                      pi_rating := Scraped.rating product_data;
                      pi_specs := Scraped.specs product_data |};
                 alternatives := valid;
                 savings_amount := savings;
                 savings_percentage := Num.py_round savings_percentage 2;
                 recommendation := hd_error valid |}
      end
  end.

(** [analyze_product]: [except Exception] catches whatever the block
    raises, the [HTTPException]s of the block included, and raises
    status 500. *)
Definition analyze_product (scorer : scorer) (db : ProductDb.database)
    (url image : option string) : response AnalysisResponse :=
  match analyze_body scorer db url image with
  | inr body => Ok body
  | inl _ => HTTPException 500
  end.

End Analyze.

End Routes.

Module Fixtures3.
Import Catalog.

(** A catalogue row with the link every stored product has. *)
Definition linked (r : product_row) : product_row :=
  {| id := id r; name := name r; category := category r; price := price r;
     rating := rating r; platform := platform r; url := Some "https://shop.example/p";
     specs := specs r; quality_score := quality_score r; final_score := final_score r;
     image_url := image_url r; description := description r |}.

Definition linked_catalog : ProductDb.database :=
  {| ProductDb.available := true;
     ProductDb.products := map linked Fixtures.catalog_rows |}.

(** What the scraper found on a page: headphones without readable
    specifications. *)
Definition plain_headphones : Scraped.product_data :=
  {| Scraped.name := "Rockerz"; Scraped.price := 1000; Scraped.rating := 4;
     Scraped.specs := []; Scraped.category := "headphones";
     Scraped.platform := Some "amazon"; Scraped.url := Some "https://shop.example/r" |}.

(** A scraper that reads the page [good] and no other. *)
Definition scrape_good (url : string) : option Scraped.product_data :=
  if String.eqb url "good" then Some plain_headphones else None.

End Fixtures3.

(** ** Binary64 arithmetic on exact rationals

    A double is a rational.  The operations of the interpreter are the
    exact operations followed by rounding to the nearest double, ties
    to the even significand (IEEE 754). *)

Module Double.
Local Open Scope Q_scope.

(** [2 ** z] *)
Definition pow2 (z : Z) : Q := 2 ^ z.

(** The binary exponent of a positive number: [floor (log2 a)]. *)
Definition exponent (a : Q) : Z :=
  let k := (Z.log2 (Qnum a) - Z.log2 (Z.pos (Qden a)))%Z in
  if Qle_bool (pow2 k) a then k else (k - 1)%Z.

(** The distance between neighbouring doubles at [x]: 53 significant
    bits, and [2 ** -1074] in the subnormal range. *)
Definition quantum (x : Q) : Q := pow2 (Z.max (exponent (Qabs x) - 52) (-1074)).

(** The double nearest to [x], ties to the even significand. *)
Definition to_double (x : Q) : Q :=
  if Qeq_bool x 0 then 0
  else inject_Z (Num.round_half_even (x / quantum x)) * quantum x.

Definition is_double (x : Q) : bool := Qeq_bool (to_double x) x.

(** [x * y] and [x / y] on floats. *)
Definition mul (x y : Q) : Q := to_double (x * y).
Definition div (x y : Q) : Q := to_double (x / y).

(** [round(x, ndigits)] on a float. *)
Definition round (x : Q) (ndigits : nat) : Q := to_double (Num.py_round x ndigits).

End Double.

(** ** The two places where the last bit matters, in binary64

    The models above compute in exact rationals.  [calculate_final_score]
    and the score floor of [find_alternatives] are embedded here a
    second time with every operation rounded to a double, as the
    interpreter computes them.  The arguments are doubles; results
    beyond the largest double are not modelled. *)

Module QualityScorer64.

Local Open Scope Q_scope.

(** [calculate_final_score]; the [except] branch is not reached for
    numbers. *)
Definition calculate_final_score (quality_score rating : Q) : Q :=
  let normalized_rating := Double.div rating 5 in
  let final_score := Double.mul quality_score normalized_rating in
  Double.round final_score 2.

End QualityScorer64.

Module ProductDb64.

Import Catalog ProductDb.
Local Open Scope Q_scope.

Section Json.

Variable json : Type.
Variable json_loads : string -> option json.
Variable empty_object : json.

(** [find_alternatives]: [min_score = target_score * 0.9] is a product
    of doubles, [0.9] the double nearest to nine tenths. *)
Definition find_alternatives (self : database) (cat : string)
    (target_score max_price : Q) (limit : Z) : list (product json) :=
  let min_score := Double.mul target_score (Double.to_double (9 # 10)) in
  match execute_query self cat max_price min_score limit with
  | Py.Return results => map (process_row json json_loads empty_object) results
  | Py.Raise _ => []
  end.

End Json.

End ProductDb64.

(** ** The contract of [find_alternatives] with the floor the code computes *)

Module DbSpec64.
Import Catalog ProductDb.
Local Open Scope Q_scope.

(** The lowest final score that passes for [target_score]. *)
Definition band_floor (target_score : Q) : Q :=
  Double.mul target_score (Double.to_double (9 # 10)).

(** Same category, within the price cap, score not below [floor]. *)
Definition matches (cat : string) (floor max_price : Q) (r : product_row) : Prop :=
  category r = cat /\ price r <= max_price /\
  exists s, final_score r = Some s /\ floor <= s.

(** [DbSpec.contract] for a given floor: [found] holds matching rows
    only, best first, at most [limit] of them, and the matching rows
    left out ([rest]) exist only when the limit is reached and rank no
    better. *)
Definition contract (rows : list product_row) (cat : string)
    (floor max_price : Q) (limit : Z) (found : list product_row) : Prop :=
  (forall r, In r found -> In r rows /\ matches cat floor max_price r) /\
  StronglySorted DbSpec.before found /\
  (List.length found <= Z.to_nat limit)%nat /\
  (exists rest,
      Permutation (found ++ rest) (filter (alternatives_where cat max_price floor) rows) /\
      (rest = [] \/ List.length found = Z.to_nat limit) /\
      (forall a b, In a found -> In b rest -> DbSpec.before a b)) /\
  (forall r, alternatives_where cat max_price floor r = true
             <-> matches cat floor max_price r) /\
  ((forall r, In r rows -> ~ matches cat floor max_price r) -> found = []).

(** One headphone with the given final score, behind a working
    connection. *)
Definition one_product (score : Q) : database :=
  {| available := true;
     products := [Fixtures.item 1 "HP-1" "headphones" 900 (Some score) None] |}.

End DbSpec64.

(** * Properties *)

(** ** Lists *)

Module ListFacts.

Lemma in_firstn {A} (n : nat) (l : list A) (x : A) : In x (firstn n l) -> In x l.
Proof.
  intros H. rewrite <- (firstn_skipn n l). apply in_or_app. now left.
Qed.

Lemma firstn_length_cases {A} (n : nat) (l : list A) :
  skipn n l = [] \/ List.length (firstn n l) = n.
Proof.
  destruct (Nat.le_gt_cases (List.length l) n) as [H|H].
  - left. apply skipn_all2. exact H.
  - right. apply firstn_length_le. lia.
Qed.

End ListFacts.

(** ** The insertion sort *)

Module SortFacts.
Section Facts.
Context {A : Type} (leb : A -> A -> bool).
Hypothesis leb_total : forall a b, leb a b = true \/ leb b a = true.
Hypothesis leb_trans : forall a b c, leb a b = true -> leb b c = true -> leb a c = true.

Lemma insert_perm (x : A) (l : list A) : Permutation (Sort.insert leb x l) (x :: l).
Proof.
  induction l as [|y l IH]; simpl; [reflexivity|].
  destruct (leb x y); [reflexivity|].
  rewrite IH. apply perm_swap.
Qed.

Lemma sort_perm (l : list A) : Permutation (Sort.sort leb l) l.
Proof.
  induction l as [|x l IH]; simpl; [reflexivity|].
  rewrite insert_perm. now constructor.
Qed.

Lemma insert_sorted (x : A) (l : list A) :
  StronglySorted (fun a b => leb a b = true) l ->
  StronglySorted (fun a b => leb a b = true) (Sort.insert leb x l).
Proof.
  induction 1 as [|y l Hs IH Hy]; simpl.
  - repeat constructor.
  - destruct (leb x y) eqn:E.
    + constructor; [constructor; assumption|].
      constructor; [exact E|].
      rewrite Forall_forall in *. intros z Hz. eapply leb_trans; [exact E | auto].
    + constructor; [exact IH|].
      rewrite Forall_forall in *. intros z Hz.
      apply (Permutation_in _ (insert_perm x l)) in Hz. destruct Hz as [<-|Hz]; [|auto].
      destruct (leb_total x y) as [H|H]; [congruence | exact H].
Qed.

Lemma sort_sorted (l : list A) :
  StronglySorted (fun a b => leb a b = true) (Sort.sort leb l).
Proof.
  induction l as [|x l IH]; simpl; [constructor|]. now apply insert_sorted.
Qed.
End Facts.

Lemma sorted_app {A} (R : A -> A -> Prop) (l1 l2 : list A) :
  StronglySorted R (l1 ++ l2) ->
  StronglySorted R l1 /\ forall a b, In a l1 -> In b l2 -> R a b.
Proof.
  induction l1 as [|x l1 IH]; simpl; intros H.
  - split; [constructor | intros a b []].
  - inversion H as [|? ? Hs Hx]; subst. destruct (IH Hs) as [H1 H2].
    rewrite Forall_forall in Hx. split.
    + constructor; [exact H1|]. rewrite Forall_forall. intros z Hz. apply Hx.
      apply in_or_app. now left.
    + intros a b [<-|Ha] Hb; [|now apply H2]. apply Hx, in_or_app. now right.
Qed.

Lemma sorted_weaken {A} (R R' : A -> A -> Prop) (l : list A) :
  (forall a b, In a l -> In b l -> R a b -> R' a b) ->
  StronglySorted R l -> StronglySorted R' l.
Proof.
  intros HR Hs. induction Hs as [|x l Hs IH Hx]; constructor.
  - apply IH. intros a b Ha Hb. apply HR; now right.
  - rewrite Forall_forall in *. intros z Hz. apply HR; [now left | now right | auto].
Qed.
End SortFacts.

(** ** The quality scorer *)

Module ScorerFacts.
Import QualityScorer ScorerInv.
Import Lqa.
Local Open Scope Q_scope.


Lemma get_in {V} (k : string) (d : Dict.dict V) (v : V) :
  Dict.get k d = Some v -> In (k, v) d.
Proof.
  induction d as [|[k' v'] d IH]; simpl; [discriminate|].
  destruct (String.eqb k k') eqn:E.
  - apply String.eqb_eq in E. intros [= ->]. subst. now left.
  - intros H. right. auto.
Qed.

Lemma nonneg_get d k v : nonneg_values d -> Dict.get k d = Some v -> 0 <= v.
Proof.
  intros Hd Hg. apply get_in in Hg.
  unfold nonneg_values in Hd. rewrite Forall_forall in Hd. exact (Hd _ Hg).
Qed.

Lemma positive_get_default d k : positive_values d -> 0 < Dict.get_default k 1 d.
Proof.
  intros Hd. unfold Dict.get_default.
  destruct (Dict.get k d) eqn:Hg; [|reflexivity].
  apply get_in in Hg. unfold positive_values in Hd. rewrite Forall_forall in Hd.
  exact (Hd _ Hg).
Qed.

Lemma nonneg_set d k v : nonneg_values d -> 0 <= v -> nonneg_values (Dict.set k v d).
Proof.
  unfold nonneg_values. intros Hd Hv.
  induction d as [|[k' v'] d IH]; simpl.
  - repeat constructor. exact Hv.
  - inversion Hd; subst. destruct (String.eqb k k'); constructor; auto.
Qed.

Lemma search_patterns_nonneg text patterns v :
  search_patterns text patterns = Some v -> 0 <= v.
Proof.
  induction patterns as [|p ps IH]; simpl; [discriminate|].
  destruct (Text.re_search p text) as [g|]; [|exact IH].
  intros [= <-].
  assert (H0 : 0 <= inject_Z (Z.of_N (Text.digits_value 0 g))).
  { unfold Qle; simpl. lia. }
  destruct (Text.contains "khz" text); [|exact H0].
  apply Qmult_le_0_compat; [exact H0 | discriminate].
Qed.

Lemma extract_nonneg text patterns v :
  _extract_numeric_value text patterns = Some v -> 0 <= v.
Proof.
  unfold _extract_numeric_value. destruct (String.eqb text ""); [discriminate|].
  apply search_patterns_nonneg.
Qed.

Lemma nonneg_set_if_truthy d k text patterns :
  nonneg_values d ->
  nonneg_values (set_if_truthy k (_extract_numeric_value text patterns) d).
Proof.
  intros Hd. unfold set_if_truthy.
  destruct (_extract_numeric_value text patterns) as [x|] eqn:E; [|exact Hd].
  destruct (Qeq_bool x 0); [exact Hd|].
  apply nonneg_set; [exact Hd | eapply extract_nonneg; exact E].
Qed.

Ltac nonneg_step :=
  first [ apply nonneg_set_if_truthy
        | apply nonneg_set; [| discriminate ]
        | apply nonneg_set
        | apply Forall_nil ].

Lemma normalize_nonneg product_specs category :
  nonneg_values (_normalize_specs product_specs category).
Proof.
  unfold _normalize_specs.
  repeat match goal with |- context [String.eqb category ?s] => destruct (String.eqb category s) end.
  - unfold _normalize_headphones_specs.
    repeat match goal with
    | |- nonneg_values (if ?b then _ else _) => destruct b
    | |- nonneg_values (Dict.set _ (if ?b then _ else _) _) => destruct b
    | _ => nonneg_step
    end.
  - unfold _normalize_trimmer_specs.
    repeat match goal with
    | |- nonneg_values (if ?b then _ else _) => destruct b
    | |- nonneg_values (Dict.set _ (if ?b then _ else _) _) => destruct b
    | _ => nonneg_step
    end.
  - unfold _normalize_mixer_specs. repeat nonneg_step.
  - unfold _normalize_smartphone_specs. repeat nonneg_step.
  - apply Forall_nil.
  - unfold _normalize_clothing_specs.
    repeat match goal with
    | |- nonneg_values (Dict.set _ (if ?b then _ else _) _) => destruct b
    | _ => nonneg_step
    end.
  - unfold _normalize_general_specs. repeat nonneg_step.
    unfold Qle; simpl; lia.
Qed.

Lemma min_is_clamp (x : Q) : 0 <= x -> Qmin x 1 == Num.clamp x 0 1.
Proof.
  intros Hx. unfold Num.clamp. symmetry. apply Q.max_r.
  apply Q.min_glb; [exact Hx | discriminate].
Qed.

Lemma div_nonneg (v r : Q) : 0 <= v -> 0 < r -> 0 <= v / r.
Proof.
  intros Hv Hr. unfold Qdiv. apply Qmult_le_0_compat; [exact Hv|].
  apply Qinv_le_0_compat. apply Qlt_le_weak. exact Hr.
Qed.

(** One iteration of the loop gives the points of the specification. *)
Lemma feature_points_spec reference_vals normalized feature max_points :
  positive_values reference_vals -> nonneg_values normalized ->
  exists p,
    feature_points reference_vals normalized feature max_points = Some p /\
    p == ScorerSpec.points (Dict.get_default feature 1 reference_vals)
           (Dict.get feature normalized) feature max_points.
Proof.
  intros Hr Hn. unfold feature_points, ScorerSpec.points, ScorerSpec.lower_is_better.
  destruct (Dict.get feature normalized) as [value|] eqn:Hg.
  - pose proof (positive_get_default reference_vals feature Hr) as Hpos.
    pose proof (nonneg_get _ _ _ Hn Hg) as Hv.
    destruct (Qeq_bool (Dict.get_default feature 1 reference_vals) 0) eqn:Hz.
    + apply Qeq_bool_iff in Hz. rewrite Hz in Hpos. discriminate.
    + pose proof (min_is_clamp _ (div_nonneg _ _ Hv Hpos)) as Hc.
      destruct (String.eqb feature "charging_time"); eexists; (split; [reflexivity|]);
        rewrite Hc; reflexivity.
  - eexists; split; [reflexivity|]. apply Qmult_comm.
Qed.

Lemma score_loop_spec reference_vals normalized items total :
  positive_values reference_vals -> nonneg_values normalized ->
  exists t,
    score_loop reference_vals normalized items total = Some t /\
    t == total + ScorerSpec.Qsum
           (map (fun fw => ScorerSpec.points (Dict.get_default (fst fw) 1 reference_vals)
                             (Dict.get (fst fw) normalized) (fst fw) (snd fw)) items).
Proof.
  intros Hr Hn. revert total.
  induction items as [|[feature max_points] items IH]; intros total; simpl.
  - exists total. split; [reflexivity|]. ring.
  - destruct (feature_points_spec reference_vals normalized feature max_points Hr Hn)
      as (p & Hp & Hpe).
    rewrite Hp.
    destruct (IH (total + p)) as (t & Ht & Hte).
    exists t. split; [exact Ht|]. rewrite Hte, Hpe. ring.
Qed.

Lemma fold_left_Qplus (l : list Q) (acc : Q) :
  fold_left Qplus l acc == acc + ScorerSpec.Qsum l.
Proof.
  revert acc. induction l as [|x l IH]; intros acc; simpl.
  - ring.
  - rewrite IH. ring.
Qed.

Lemma sum_values_spec (d : Dict.dict Q) :
  sum_values d == ScorerSpec.Qsum (Dict.values d).
Proof. unfold sum_values. rewrite fold_left_Qplus. ring. Qed.

(** The refinement for any scorer state whose tables are sane. *)
Lemma calculate_quality_score_refines (self : scorer) product_specs category card :
  let resolved :=
    if Dict.mem category (category_scorecards self) then category else "general" in
  Dict.get resolved (category_scorecards self) = Some card ->
  positive_values (Dict.get_default resolved [] (reference_values self)) ->
  ~ sum_values card == 0 ->
  calculate_quality_score self product_specs category
  == ScorerSpec.score self product_specs category.
Proof.
  intros resolved Hcard Hrefs Hsum.
  unfold calculate_quality_score, ScorerSpec.score, ScorerSpec.quality_score.
  cbv zeta. fold resolved. unfold scorecard, Dict.dict in *.
  assert (Hdef : Dict.get_default resolved [] (category_scorecards self) = card).
  { unfold Dict.get_default. rewrite Hcard. reflexivity. }
  rewrite Hdef, Hcard.
  destruct (score_loop_spec (Dict.get_default resolved [] (reference_values self))
              (_normalize_specs product_specs resolved) card 0 Hrefs
              (normalize_nonneg product_specs resolved)) as (t & Ht & Hte).
  rewrite Ht.
  destruct (Qeq_bool (sum_values card) 0) eqn:Hz.
  { apply Qeq_bool_iff in Hz. contradiction. }
  unfold Num.clamp. rewrite Q.min_comm.
  rewrite Hte, (sum_values_spec card), Qplus_0_l. reflexivity.
Qed.


Lemma category_cases (category : string) :
  In category registered \/ Dict.mem category (category_scorecards new) = false.
Proof.
  unfold Dict.mem. cbn [category_scorecards new Dict.get].
  repeat match goal with
  | |- context [String.eqb category ?s] =>
      let E := fresh "E" in
      destruct (String.eqb category s) eqn:E;
      [ apply String.eqb_eq in E; left; rewrite E; cbn; tauto | ]
  end.
  right. reflexivity.
Qed.

Lemma new_tables_sane (category : string) :
  let resolved :=
    if Dict.mem category (category_scorecards new) then category else "general" in
  exists card,
    Dict.get resolved (category_scorecards new) = Some card /\
    positive_values (Dict.get_default resolved [] (reference_values new)) /\
    ~ sum_values card == 0.
Proof.
  destruct (category_cases category) as [Hin | Hout].
  - cbn in Hin.
    repeat (destruct Hin as [<- | Hin];
            [ cbn; eexists; split; [reflexivity|]; split;
              [ repeat constructor | vm_compute; discriminate ] | ]).
    contradiction.
  - cbv zeta. rewrite Hout. cbn. eexists; split; [reflexivity|]; split;
      [ constructor | vm_compute; discriminate ].
Qed.

(** C2.  For every specs mapping and every category,
    [calculate_quality_score] returns what the algorithm of the
    specification gives: [weight * clamp(value / reference, 0, 1)] for a
    feature present in the normalized feature set, [weight * (1 - clamp ...)]
    for [charging_time], [0.6 * weight] for an absent feature, the sum
    divided by the sum of the weights, times 100, clamped to [[0, 100]].
    The code has no lower clamp on [value / reference] and an exception
    path; neither shows, since normalized values are never negative and no
    reference or weight sum of the tables is zero. *)
Theorem quality_score_matches_algorithm (product_specs : specs_dict) (category : string) :
  calculate_quality_score new product_specs category
  == ScorerSpec.score new product_specs category.
Proof.
  destruct (new_tables_sane category) as (card & Hcard & Hrefs & Hsum).
  exact (calculate_quality_score_refines new product_specs category card Hcard Hrefs Hsum).
Qed.


(** *** The cases of [tests/test_core.py] *)

Example test_headphones_scoring :
  calculate_quality_score new
    [("battery_life", "24 hours"); ("driver_size", "40mm");
     ("noise_cancellation", "Active Noise Cancellation");
     ("build_quality", "Premium metal construction")] "headphones" == 79.
Proof. vm_compute. reflexivity. Qed.

Example test_final_score_calculation :
  calculate_final_score 80 (45 # 10) == 80 * ((45 # 10) / 5).
Proof. vm_compute. reflexivity. Qed.

Example test_invalid_category :
  0 < calculate_quality_score new [("some_feature", "value")] "invalid_category".
Proof. vm_compute. reflexivity. Qed.

(** Extraction: the first pattern that matches wins, and [khz] anywhere in
    the text scales the value. *)
Example extract_frequency :
  _extract_numeric_value "20Hz - 20kHz" ["hz"; "khz"] = Some (20 * 1000) /\
  _extract_numeric_value "up to 40 KHZ" ["hz"; "khz"] = Some (40 * 1000) /\
  _extract_numeric_value "Playtime 30 h" ["h"] = Some 30 /\
  _extract_numeric_value "0 h" ["h"] = Some 0 /\
  _extract_numeric_value "fast" ["h"] = None /\
  _extract_numeric_value "" [""] = None.
Proof. vm_compute. repeat split. Qed.

(** *** Empty specs *)

(** C1, counterexample.  With empty specs the headphones normalizer still
    sets [noise_cancellation = 0] and [build_quality = 3], so the score is
    18 + 15 + 0 + 9 + 6 = 48, not 60. *)
Lemma empty_specs_headphones :
  calculate_quality_score new [] "headphones" == 48 /\
  ~ calculate_quality_score new [] "headphones" == 60.
Proof. split; vm_compute; [reflexivity | discriminate]. Qed.

(** C1, as the code has it.  With an empty specs mapping the quality
    score is 60 for [mixer], [smartphone] and [laptop], whose normalizers
    find nothing; it is 48 for [headphones] and [trimmer], 72 for
    [clothing], and 70 for [general] and every unregistered category,
    because those normalizers synthesize features from no text. *)
Theorem empty_specs_score_by_category (category : string) :
  calculate_quality_score new [] category == empty_specs_score category.
Proof.
  unfold empty_specs_score.
  destruct (String.eqb category "headphones") eqn:E1.
  { apply String.eqb_eq in E1; subst. vm_compute. reflexivity. }
  destruct (String.eqb category "trimmer") eqn:E2.
  { apply String.eqb_eq in E2; subst. vm_compute. reflexivity. }
  destruct (String.eqb category "clothing") eqn:E3.
  { apply String.eqb_eq in E3; subst. vm_compute. reflexivity. }
  destruct (String.eqb category "mixer") eqn:E4.
  { apply String.eqb_eq in E4; subst. vm_compute. reflexivity. }
  destruct (String.eqb category "smartphone") eqn:E5.
  { apply String.eqb_eq in E5; subst. vm_compute. reflexivity. }
  destruct (String.eqb category "laptop") eqn:E6.
  { apply String.eqb_eq in E6; subst. vm_compute. reflexivity. }
  cbn [orb].
  unfold calculate_quality_score, Dict.mem, _normalize_specs.
  cbn [category_scorecards new Dict.get].
  rewrite E1, E2, E3, E4, E5, E6.
  destruct (String.eqb category "general") eqn:E7.
  { apply String.eqb_eq in E7; subst. vm_compute. reflexivity. }
  vm_compute. reflexivity.
Qed.

(** *** Rounding and the final score *)

Lemma round_half_even_comp (x y : Q) :
  x == y -> Num.round_half_even x = Num.round_half_even y.
Proof.
  intros H. unfold Num.round_half_even.
  rewrite (Qfloor_comp _ _ H).
  assert (Hr : x - inject_Z (Qfloor y) == y - inject_Z (Qfloor y)) by (rewrite H; reflexivity).
  rewrite (Qcompare_comp _ _ Hr (1 # 2) (1 # 2) (Qeq_refl _)). reflexivity.
Qed.

Lemma round_half_even_Z (n : Z) : Num.round_half_even (inject_Z n) = n.
Proof.
  unfold Num.round_half_even. rewrite Qfloor_Z.
  assert (Hr : inject_Z n - inject_Z n == 0) by ring.
  rewrite (Qcompare_comp _ _ Hr (1 # 2) (1 # 2) (Qeq_refl _)). reflexivity.
Qed.

Lemma py_round_comp (x y : Q) (nd : nat) : x == y -> Num.py_round x nd == Num.py_round y nd.
Proof.
  intros H. unfold Num.py_round.
  set (scale := inject_Z (10 ^ Z.of_nat nd)).
  rewrite (round_half_even_comp (x * scale) (y * scale)); [reflexivity|].
  rewrite H. reflexivity.
Qed.

(** A number with at most two decimals is its own rounding. *)
Lemma py_round_2_fixed (n : Z) : Num.py_round (inject_Z n / 100) 2 == inject_Z n / 100.
Proof.
  unfold Num.py_round.
  change (inject_Z (10 ^ Z.of_nat 2)) with 100.
  rewrite (round_half_even_comp (inject_Z n / 100 * 100) (inject_Z n)).
  - rewrite round_half_even_Z. reflexivity.
  - field.
Qed.

Lemma py_round_0 (nd : nat) : Num.py_round 0 nd == 0.
Proof.
  unfold Num.py_round.
  set (scale := inject_Z (10 ^ Z.of_nat nd)).
  rewrite (round_half_even_comp (0 * scale) (inject_Z 0)) by ring.
  rewrite round_half_even_Z. unfold Qdiv. ring.
Qed.

(** Rounding to an integer moves a number by at most one half. *)
Lemma round_half_even_close (x : Q) :
  Qabs (inject_Z (Num.round_half_even x) - x) <= 1 # 2.
Proof.
  pose proof (Qfloor_le x) as Hlo. pose proof (Qlt_floor x) as Hhi.
  rewrite inject_Z_plus in Hhi. change (inject_Z 1) with 1 in Hhi.
  unfold Num.round_half_even. apply Qabs_Qle_condition.
  destruct (Qcompare_spec (x - inject_Z (Qfloor x)) (1 # 2)) as [He|Hl|Hg].
  - destruct (Z.even (Qfloor x)).
    + split; lra.
    + rewrite inject_Z_plus. change (inject_Z 1) with 1. split; lra.
  - split; lra.
  - rewrite inject_Z_plus. change (inject_Z 1) with 1. split; lra.
Qed.

(** [round(x, 2)] is a number of hundredths, at most 0.005 away from [x]. *)
Lemma py_round_2_close (x : Q) :
  (exists m : Z, Num.py_round x 2 == inject_Z m / 100) /\
  Qabs (Num.py_round x 2 - x) <= 1 # 200.
Proof.
  unfold Num.py_round. change (inject_Z (10 ^ Z.of_nat 2)) with 100. split.
  - eexists. reflexivity.
  - pose proof (round_half_even_close (x * 100)) as H.
    apply Qabs_Qle_condition in H. apply Qabs_Qle_condition.
    set (m := inject_Z (Num.round_half_even (x * 100))) in *.
    assert (Hd : m / 100 == m * (1 # 100)) by (field).
    rewrite Hd. split; lra.
Qed.

(** In exact arithmetic.  The quality score of a smartphone whose only
    spec is a 12 MP camera is 430/9 = 47.77...; its final score at rating 5
    is 47.78, not the quality score. *)
Lemma final_score_rating5_not_identity :
  calculate_quality_score new [("camera", "12MP")] "smartphone" == 430 # 9 /\
  calculate_final_score (430 # 9) 5 == 4778 # 100 /\
  ~ calculate_final_score (430 # 9) 5 == 430 # 9.
Proof. split; [|split]; vm_compute; (reflexivity || discriminate). Qed.

(** In exact arithmetic [calculate_final_score] is
    [quality_score * (rating / 5)] rounded to two decimals: a number of
    hundredths at most 0.005 away from the product.  At rating 5 it is the
    quality score rounded to two decimals, hence the quality score itself
    when that has at most two decimals ([n / 100]); at rating 0 it is 0. *)
Theorem final_score_rounds (quality_score rating : Q) (n : Z) :
  calculate_final_score quality_score rating
    == Num.py_round (quality_score * (rating / 5)) 2 /\
  (exists m : Z, calculate_final_score quality_score rating == inject_Z m / 100) /\
  Qabs (calculate_final_score quality_score rating - quality_score * (rating / 5))
    <= 1 # 200 /\
  calculate_final_score quality_score 5 == Num.py_round quality_score 2 /\
  calculate_final_score (inject_Z n / 100) 5 == inject_Z n / 100 /\
  calculate_final_score quality_score 0 == 0.
Proof.
  unfold calculate_final_score.
  destruct (py_round_2_close (quality_score * (rating / 5))) as [Hm Hclose].
  split; [|split; [|split; [|split; [|split]]]].
  - reflexivity.
  - exact Hm.
  - exact Hclose.
  - apply py_round_comp. field.
  - rewrite (py_round_comp _ (inject_Z n / 100)) by field. apply py_round_2_fixed.
  - rewrite (py_round_comp _ 0) by field. apply py_round_0.
Qed.

End ScorerFacts.

(** ** The alternative finder *)

Module DbFacts.
Import Catalog ProductDb SortFacts ListFacts.
Import Lqa.
Local Open Scope Q_scope.

Lemma score_compare_gt a b :
  score_compare a b = Gt <->
  match a, b with
  | Some x, Some y => y < x
  | Some _, None => True
  | None, _ => False
  end.
Proof.
  destruct a as [x|], b as [y|]; simpl.
  - rewrite <- Qgt_alt. reflexivity.
  - split; [tauto | reflexivity].
  - split; [discriminate | tauto].
  - split; [discriminate | tauto].
Qed.

Lemma score_compare_eq a b :
  score_compare a b = Eq <->
  match a, b with
  | Some x, Some y => x == y
  | None, None => True
  | _, _ => False
  end.
Proof.
  destruct a as [x|], b as [y|]; simpl.
  - rewrite <- Qeq_alt. reflexivity.
  - split; [discriminate | tauto].
  - split; [discriminate | tauto].
  - tauto.
Qed.

Lemma score_compare_lt a b : score_compare a b = Lt <-> score_compare b a = Gt.
Proof.
  destruct a as [x|], b as [y|]; simpl; try (split; discriminate); try tauto.
  rewrite <- Qlt_alt, <- Qgt_alt. reflexivity.
Qed.

Lemma order_spec a b :
  alternatives_order a b = true <->
  score_compare (final_score a) (final_score b) = Gt \/
  (score_compare (final_score a) (final_score b) = Eq /\ price a <= price b).
Proof.
  unfold alternatives_order.
  destruct (score_compare (final_score a) (final_score b)).
  - rewrite Qle_bool_iff. intuition discriminate.
  - intuition discriminate.
  - intuition.
Qed.

Lemma order_total a b : alternatives_order a b = true \/ alternatives_order b a = true.
Proof.
  rewrite !order_spec.
  destruct (score_compare (final_score a) (final_score b)) eqn:E.
  - assert (E' : score_compare (final_score b) (final_score a) = Eq).
    { apply score_compare_eq. apply score_compare_eq in E.
      destruct (final_score a), (final_score b); try tauto. symmetry. exact E. }
    rewrite E'. destruct (Qlt_le_dec (price b) (price a)) as [H|H].
    + right. right. split; [reflexivity|]. apply Qlt_le_weak. exact H.
    + left. right. split; [reflexivity | exact H].
  - apply score_compare_lt in E. right. left. exact E.
  - left. left. reflexivity.
Qed.

Lemma order_trans a b c :
  alternatives_order a b = true -> alternatives_order b c = true ->
  alternatives_order a c = true.
Proof.
  rewrite !order_spec, !score_compare_gt, !score_compare_eq.
  destruct (final_score a) as [x|], (final_score b) as [y|], (final_score c) as [z|];
    intros [H1|[H1 P1]] [H2|[H2 P2]];
    solve [ tauto | left; lra | right; split; [lra | lra] | right; split; [tauto | lra] ].
Qed.

Lemma where_spec cat target_score max_price r :
  alternatives_where cat max_price (target_score * (9 # 10)) r = true
  <-> DbSpec.matches cat target_score max_price r.
Proof.
  unfold alternatives_where, DbSpec.matches, score_at_least.
  rewrite !andb_true_iff, String.eqb_eq, Qle_bool_iff.
  destruct (final_score r) as [s|].
  - rewrite Qle_bool_iff. split.
    + intros [[H1 H2] H3]. repeat split; try assumption. exists s. split; [reflexivity | exact H3].
    + intros (H1 & H2 & s' & [= <-] & H3). tauto.
  - split.
    + intros [_ H]. discriminate.
    + intros (_ & _ & s' & H & _). discriminate.
Qed.

(** Between rows that carry a score, the model order is the order of the
    specification. *)
Lemma order_before a b sa sb :
  final_score a = Some sa -> final_score b = Some sb ->
  alternatives_order a b = true -> DbSpec.before a b.
Proof.
  intros Ha Hb. rewrite order_spec, score_compare_gt, score_compare_eq, Ha, Hb.
  intros H. exists sa, sb. split; [exact Ha | split; [exact Hb | exact H]].
Qed.

Section Json.
Variable json : Type.
Variable json_loads : string -> option json.
Variable empty_object : json.

Lemma row_process_row r : row json (process_row json json_loads empty_object r) = r.
Proof.
  unfold process_row. destruct (specs r) as [s|]; [|reflexivity].
  destruct (String.eqb s ""); [reflexivity|]. destruct (json_loads s); reflexivity.
Qed.

Lemma rows_of_processed l : map (row json) (map (process_row json json_loads empty_object) l) = l.
Proof.
  induction l as [|r l IH]; simpl; [reflexivity|]. now rewrite row_process_row, IH.
Qed.

Lemma find_alternatives_rows self cat target_score max_price limit :
  available self = true ->
  map (row json) (find_alternatives json json_loads empty_object self cat target_score max_price limit)
  = select_alternatives (products self) cat max_price (target_score * (9 # 10)) limit.
Proof.
  intros Hav. unfold find_alternatives, execute_query. rewrite Hav. apply rows_of_processed.
Qed.

(** In exact arithmetic: for every table behind a working connection and
    every non-negative limit, [find_alternatives] returns rows of the table that
    have the category, a price within the cap and a final score of at
    least [0.9 * target_score]; ordered by descending final score, then
    ascending price; at most [limit] of them; the matching rows left out
    exist only when the limit is reached and none of them ranks before a
    returned one; and the list is empty when nothing matches. *)
Theorem find_alternatives_contract self cat target_score max_price limit :
  available self = true -> (0 <= limit)%Z ->
  DbSpec.contract (products self) cat target_score max_price limit
    (map (row json)
       (find_alternatives json json_loads empty_object self cat target_score max_price limit)).
Proof.
  intros Hav Hlim. rewrite (find_alternatives_rows _ _ _ _ _ Hav).
  unfold select_alternatives, sql_limit.
  destruct (Z.ltb_spec limit 0) as [Hneg|_]; [lia|].
  set (min_score := target_score * (9 # 10)).
  set (matching := filter (alternatives_where cat max_price min_score) (products self)).
  set (sorted := Sort.sort alternatives_order matching).
  set (n := Z.to_nat limit).
  assert (Hperm : Permutation sorted matching) by apply sort_perm.
  assert (Hsorted : StronglySorted (fun a b => alternatives_order a b = true) sorted)
    by (apply sort_sorted; [apply order_total | apply order_trans]).
  assert (Hin : forall r, In r sorted ->
                  In r (products self) /\ DbSpec.matches cat target_score max_price r).
  { intros r Hr. apply (Permutation_in _ Hperm) in Hr. apply filter_In in Hr.
    destruct Hr as [Hr Hm]. split; [exact Hr | apply where_spec; exact Hm]. }
  assert (Hscore : forall r, In r sorted -> exists s, final_score r = Some s).
  { intros r Hr. destruct (Hin r Hr) as [_ (_ & _ & s & Hs & _)]. now exists s. }
  assert (Hbefore : StronglySorted DbSpec.before sorted).
  { apply (sorted_weaken (fun a b => alternatives_order a b = true)); [|exact Hsorted].
    intros a b Ha Hb Hab. destruct (Hscore a Ha) as [sa Hsa], (Hscore b Hb) as [sb Hsb].
    exact (order_before a b sa sb Hsa Hsb Hab). }
  rewrite <- (firstn_skipn n sorted) in Hbefore.
  apply sorted_app in Hbefore. destruct Hbefore as [Hb1 Hb2].
  unfold DbSpec.contract. split; [|split; [|split; [|split; [|split]]]].
  - intros r Hr. apply Hin. eapply in_firstn; exact Hr.
  - exact Hb1.
  - apply firstn_le_length.
  - exists (skipn n sorted). split; [|split].
    + rewrite firstn_skipn. exact Hperm.
    + apply firstn_length_cases.
    + exact Hb2.
  - intros r. apply where_spec.
  - intros Hnone. destruct (firstn n sorted) as [|r l] eqn:E; [reflexivity|].
    exfalso. assert (Hr : In r sorted).
    { apply (in_firstn n). rewrite E. now left. }
    destruct (Hin r Hr) as [Hr1 Hr2]. exact (Hnone r Hr1 Hr2).
Qed.

End Json.

(** On the fixture: target score 80 and price cap 1000 keep the rows with
    price <= 1000 and final score >= 72, best first, cheapest first among
    equals. *)
Example fixture_alternatives :
  map (fun p => id (row unit p))
    (find_alternatives unit Fixtures.no_json tt Fixtures.working_catalog
       "headphones" 80 1000 10)
  = [3; 1; 5]%Z.
Proof. vm_compute. reflexivity. Qed.

(** A limit below the number of matches keeps the best ones. *)
Example fixture_alternatives_limit :
  map (fun p => id (row unit p))
    (find_alternatives unit Fixtures.no_json tt Fixtures.working_catalog
       "headphones" 80 1000 2)
  = [3; 1]%Z.
Proof. vm_compute. reflexivity. Qed.

(** A negative limit is no limit in SQLite. *)
Example fixture_alternatives_negative_limit :
  map (fun p => id (row unit p))
    (find_alternatives unit Fixtures.no_json tt Fixtures.working_catalog
       "headphones" 80 1000 (-1))
  = [3; 1; 5]%Z.
Proof. vm_compute. reflexivity. Qed.

Lemma find_alternatives_contract_witness :
  available Fixtures.working_catalog = true /\ (0 <= 10)%Z /\
  DbSpec.contract (products Fixtures.working_catalog) "headphones" 80 1000 10
    (map (row unit)
       (find_alternatives unit Fixtures.no_json tt Fixtures.working_catalog
          "headphones" 80 1000 10)).
Proof.
  split; [reflexivity|]. split; [discriminate|].
  apply find_alternatives_contract; [reflexivity | discriminate].
Defined.

End DbFacts.

(** ** Real arithmetic: rounding, norms, Cauchy-Schwarz *)

Module RFacts.
Import RNum.
Import Lra.
Local Open Scope R_scope.

Lemma Rleb_true x y : x <= y -> Rleb x y = true.
Proof. intros H. unfold Rleb. destruct (Rle_dec x y); [reflexivity | contradiction]. Qed.

Lemma Rleb_false x y : y < x -> Rleb x y = false.
Proof. intros H. unfold Rleb. destruct (Rle_dec x y); [lra | reflexivity]. Qed.

Lemma round_half_even_lower (x : R) (m : Z) : IZR m <= x -> (m <= round_half_even_R x)%Z.
Proof.
  intros H. destruct (base_Int_part x) as [H1 H2].
  assert (Hm : (m <= Int_part x)%Z).
  { apply Z.lt_succ_r. apply lt_IZR. rewrite succ_IZR. lra. }
  unfold round_half_even_R.
  destruct (Rlt_dec _ _); [exact Hm|]. destruct (Rlt_dec _ _); [lia|].
  destruct (Z.even _); lia.
Qed.

Lemma round_half_even_upper (x : R) (m : Z) : x <= IZR m -> (round_half_even_R x <= m)%Z.
Proof.
  intros H. destruct (base_Int_part x) as [H1 H2].
  assert (Hm : (Int_part x <= m)%Z) by (apply le_IZR; lra).
  unfold round_half_even_R.
  destruct (Rlt_dec _ _) as [Hlt|Hge]; [exact Hm|].
  assert (Hneq : Int_part x <> m).
  { intros Heq. apply Hge. rewrite Heq in *. lra. }
  destruct (Rlt_dec _ _); [lia|]. destruct (Z.even _); lia.
Qed.

Lemma pow10_pos (n : nat) : 0 < 10 ^ n.
Proof. apply pow_lt. lra. Qed.

(** Rounding stays between integer bounds. *)
Lemma py_round_bounds (x : R) (nd : nat) (lo hi : Z) :
  IZR lo <= x <= IZR hi -> IZR lo <= py_round_R x nd <= IZR hi.
Proof.
  intros [Hlo Hhi]. pose proof (pow10_pos nd) as Hp.
  assert (Hpow : 10 ^ nd = IZR (10 ^ Z.of_nat nd)).
  { rewrite <- pow_IZR. reflexivity. }
  unfold py_round_R.
  assert (H1 : (lo * 10 ^ Z.of_nat nd <= round_half_even_R (x * 10 ^ nd))%Z).
  { apply round_half_even_lower. rewrite mult_IZR, <- Hpow. nra. }
  assert (H2 : (round_half_even_R (x * 10 ^ nd) <= hi * 10 ^ Z.of_nat nd)%Z).
  { apply round_half_even_upper. rewrite mult_IZR, <- Hpow. nra. }
  apply IZR_le in H1, H2. rewrite mult_IZR, <- Hpow in H1, H2.
  split.
  - apply Rmult_le_reg_r with (10 ^ nd); [exact Hp|].
    unfold Rdiv. rewrite Rmult_assoc, Rinv_l by lra. lra.
  - apply Rmult_le_reg_r with (10 ^ nd); [exact Hp|].
    unfold Rdiv. rewrite Rmult_assoc, Rinv_l by lra. lra.
Qed.

Lemma dot_self_nonneg (a : vector) : 0 <= dot a a.
Proof.
  induction a as [|x a IH].
  - unfold dot; simpl; lra.
  - change (dot (x :: a) (x :: a)) with (x * x + dot a a). nra.
Qed.

Lemma sq_l2_nonneg (a b : vector) : 0 <= sq_l2 a b.
Proof.
  revert b. induction a as [|x a IH]; intros [|y b]; try (unfold sq_l2; simpl; lra).
  change (sq_l2 (x :: a) (y :: b)) with ((x - y) * (x - y) + sq_l2 a b).
  specialize (IH b). pose proof (Rle_0_sqr (x - y)) as Hsq. unfold Rsqr in Hsq. lra.
Qed.

(** Cauchy-Schwarz; [dot] stops at the shorter vector, the norms do not. *)
Lemma cauchy_schwarz (a b : vector) : dot a b * dot a b <= dot a a * dot b b.
Proof.
  revert b. induction a as [|x a IH]; intros [|y b].
  - unfold dot; simpl; lra.
  - unfold dot at 1 2 3; simpl. pose proof (dot_self_nonneg (y :: b)). lra.
  - unfold dot at 1 2 4; simpl. pose proof (dot_self_nonneg (x :: a)). lra.
  - specialize (IH b).
    pose proof (dot_self_nonneg a) as HA. pose proof (dot_self_nonneg b) as HB.
    change (dot (x :: a) (y :: b)) with (x * y + dot a b).
    change (dot (x :: a) (x :: a)) with (x * x + dot a a).
    change (dot (y :: b) (y :: b)) with (y * y + dot b b).
    set (d := dot a b) in *. set (A := dot a a) in *. set (B := dot b b) in *.
    assert (Hkey : 2 * (x * y * d) <= x * x * B + A * (y * y)).
    { destruct (Rle_dec (2 * (x * y * d)) 0) as [Hn|Hp]; [nra|].
      assert (Hs : 0 <= x * x * B + A * (y * y)) by nra.
      assert (Hsq : (2 * (x * y * d)) * (2 * (x * y * d))
                    <= (x * x * B + A * (y * y)) * (x * x * B + A * (y * y))).
      { assert (H4 : 4 * (x * x) * (y * y) * (d * d) <= 4 * (x * x) * (y * y) * (A * B)).
        { apply Rmult_le_compat_l; [nra | exact IH]. }
        pose proof (Rle_0_sqr (x * x * B - A * (y * y))) as Hq. unfold Rsqr in Hq.
        lra. }
      set (s := x * x * B + A * (y * y)) in *. set (t := 2 * (x * y * d)) in *.
      destruct (Rle_dec t s) as [Hts|Hts]; [exact Hts|]. exfalso.
      assert (Hlt : s < t) by lra. assert (Hpos : 0 < t) by lra.
      assert (s * s < t * t) by nra. lra. }
    lra.
Qed.

Lemma abs_dot_le_norms (a b : vector) : Rabs (dot a b) <= norm a * norm b.
Proof.
  unfold norm. rewrite <- sqrt_mult by apply dot_self_nonneg.
  rewrite <- sqrt_Rsqr_abs. apply sqrt_le_1.
  - apply Rle_0_sqr.
  - apply Rmult_le_pos; apply dot_self_nonneg.
  - unfold Rsqr. apply cauchy_schwarz.
Qed.

Lemma norm_nonneg (a : vector) : 0 <= norm a.
Proof. apply sqrt_pos. Qed.

Lemma eps_pos : 0 < eps.
Proof. unfold eps. apply Rinv_0_lt_compat. apply pow10_pos. Qed.
End RFacts.

(** ** The recommendation engine *)

Module RecFacts.
Import Catalog Py RNum Recommender RFacts.
Import Lra.
Local Open Scope R_scope.

Lemma attempt_ok fails o : fails o = false -> attempt fails o = Return tt.
Proof. unfold attempt. now intros ->. Qed.

Lemma attempt_raises fails o : fails o = true -> attempt fails o = Raise (BackendError o).
Proof. unfold attempt. now intros ->. Qed.

Lemma attempt_cases fails o :
  (fails o = false /\ attempt fails o = Return tt) \/
  (fails o = true /\ attempt fails o = Raise (BackendError o)).
Proof. unfold attempt. destruct (fails o); auto. Qed.

(** C3, as the code has it.  When the model, the vector store and the
    lookup work, [get_recommendations] returns the empty list, and raises
    nothing, for a product id that is absent from the catalogue and for a
    product whose description is absent or empty. *)
Theorem recommend_without_description_is_empty encode fails self product_id k :
  fails LoadModel = false -> fails InitVectorDb = false ->
  fails (SelectProductById product_id) = false ->
  match find_by_id product_id (products self) with
  | Some p => has_description p = false
  | None => True
  end ->
  get_recommendations encode fails self product_id k = Return [].
Proof.
  intros H1 H2 H3 Hp. unfold get_recommendations, ensure_ready, select_described.
  rewrite (attempt_ok _ _ H1), (attempt_ok _ _ H2), (attempt_ok _ _ H3). cbn [bind].
  destruct (find_by_id product_id (products self)) as [p|]; [|reflexivity].
  rewrite Hp. reflexivity.
Qed.

Lemma recommend_without_description_is_empty_witness :
  no_faults LoadModel = false /\ no_faults InitVectorDb = false /\
  no_faults (SelectProductById 4) = false /\
  get_recommendations Fixtures.unit_encode no_faults Fixtures.lonely_shop 4 5 = Return [].
Proof.
  split; [reflexivity|]. split; [reflexivity|]. split; [reflexivity|].
  apply recommend_without_description_is_empty; reflexivity.
Defined.

(** C3, counterexample.  Product 7 is not in the catalogue and product 4
    has no description: both calls return [[]] instead of failing, the
    same answer as for product 1, which is described and has no
    neighbour. *)
Lemma recommend_absent_product_not_an_error :
  find_by_id 7 (products Fixtures.lonely_shop) = None /\
  get_recommendations Fixtures.unit_encode no_faults Fixtures.lonely_shop 7 5 = Return [] /\
  get_recommendations Fixtures.unit_encode no_faults Fixtures.lonely_shop 4 5 = Return [] /\
  get_recommendations Fixtures.unit_encode no_faults Fixtures.lonely_shop 1 5 = Return [].
Proof.
  split; [reflexivity|]. split; [reflexivity|]. split; [reflexivity|].
  reflexivity.
Qed.

Lemma exact_loop_raises fails rows top recs pid sim :
  In (pid, sim) top -> fails (SelectProductById pid) = true ->
  exists e, exact_loop fails rows top recs = Raise e.
Proof.
  intros Hin Hf. revert recs. induction top as [|[p s] top IH]; intros recs; [contradiction|].
  cbn [exact_loop].
  destruct (attempt_cases fails (SelectProductById p)) as [[F A]|[F A]]; rewrite A; cbn [bind].
  - destruct Hin as [Heq|Hin]; [injection Heq as -> ->; congruence|].
    destruct (find_by_id p rows); apply (IH Hin).
  - eexists; reflexivity.
Qed.

(** Without faults the loop keeps, in rank order, the neighbours that have
    a catalogue row, and nothing else. *)
Lemma exact_loop_ids fails rows top recs :
  (forall p, In p top -> fails (SelectProductById (fst p)) = false) ->
  exists out,
    exact_loop fails rows top recs = Return out /\
    map rec_id out =
    (map rec_id recs ++
     filter (fun i => match find_by_id i rows with Some _ => true | None => false end)
       (map fst top))%list.
Proof.
  revert recs. induction top as [|[p s] top IH]; intros recs Hok.
  - exists recs. split; [reflexivity|]. cbn. now rewrite app_nil_r.
  - cbn [exact_loop].
    pose proof (Hok (p, s) (or_introl eq_refl)) as Hp. cbn [fst] in Hp.
    rewrite (attempt_ok _ _ Hp). cbn [bind].
    cbn [map filter fst].
    assert (Hok' : forall q, In q top -> fails (SelectProductById (fst q)) = false)
      by (intros q Hq; apply Hok; now right).
    destruct (find_by_id p rows) as [row|] eqn:Hrow.
    + match goal with
      | |- context [exact_loop _ _ _ ?r] => destruct (IH r Hok') as (out & Hout & Hids)
      end.
      exists out. split; [exact Hout|]. rewrite Hids, map_app, <- app_assoc. cbn.
      unfold find_by_id in Hrow. apply find_some in Hrow. destruct Hrow as [_ Hid].
      apply Z.eqb_eq in Hid. now rewrite Hid.
    + exact (IH recs Hok').
Qed.

(** [get_recommendations] re-raises: a failing operation on its path ends
    the call with an exception. *)
Lemma recommend_propagates encode fails self product_id k o :
  In o (RecSpec.recommend_ops encode self product_id k) -> fails o = true ->
  exists e, get_recommendations encode fails self product_id k = Raise e.
Proof.
  intros Hin Hf. unfold get_recommendations, ensure_ready, select_described.
  destruct (attempt_cases fails LoadModel) as [[F1 A1]|[F1 A1]]; rewrite A1; cbn [bind];
    [|eexists; reflexivity].
  destruct (attempt_cases fails InitVectorDb) as [[F2 A2]|[F2 A2]]; rewrite A2; cbn [bind];
    [|eexists; reflexivity].
  destruct (attempt_cases fails (SelectProductById product_id)) as [[F3 A3]|[F3 A3]];
    rewrite A3; cbn [bind]; [|eexists; reflexivity].
  unfold RecSpec.recommend_ops in Hin. apply in_app_or in Hin.
  destruct Hin as [Hin|Hin].
  { cbn in Hin. destruct Hin as [<-|[<-|[<-|[]]]]; congruence. }
  destruct (find_by_id product_id (products self)) as [p|]; [|contradiction].
  destruct (has_description p); [|contradiction].
  unfold model_encode.
  destruct (attempt_cases fails Encode) as [[F4 A4]|[F4 A4]]; rewrite A4; cbn [bind];
    [|eexists; reflexivity].
  destruct Hin as [<-|Hin]; [congruence|].
  cbn [map hd].
  destruct (use_chroma self).
  - destruct Hin as [<-|[]]. unfold chroma_query. rewrite (attempt_raises _ _ Hf).
    eexists; reflexivity.
  - destruct (attempt_cases fails SelectEmbeddings) as [[F5 A5]|[F5 A5]]; rewrite A5;
      cbn [bind]; [|eexists; reflexivity].
    destruct Hin as [<-|Hin]; [congruence|].
    apply in_map_iff in Hin. destruct Hin as ([pid sim] & <- & Hin). cbn [fst] in Hf.
    destruct (embeddings_table self) as [|r t] eqn:Ht.
    + unfold ranked_pairs in Hin. cbn in Hin. unfold py_prefix in Hin.
      destruct (0 <=? k)%Z; rewrite firstn_nil in Hin; contradiction.
    + exact (exact_loop_raises _ _ _ _ _ _ Hin Hf).
Qed.

Lemma norm_e1 : norm [1; 0] = 1.
Proof.
  unfold norm, dot. cbn [combine fold_right fst snd].
  replace (1 * 1 + (0 * 0 + 0)) with 1 by lra. apply sqrt_1.
Qed.

Lemma cosine_e1_e1_pos : 0 < cosine [1; 0] [1; 0].
Proof.
  unfold cosine. rewrite norm_e1. unfold dot. cbn [combine fold_right fst snd].
  pose proof eps_pos. apply Rdiv_lt_0_compat; nra.
Qed.

Lemma cosine_e2_e1 : cosine [0; 1] [1; 0] = 0.
Proof.
  unfold cosine, dot. cbn [combine fold_right fst snd].
  replace (0 * 1 + (1 * 0 + 0)) with 0 by lra. unfold Rdiv. apply Rmult_0_l.
Qed.

Lemma stale_shop_ranking :
  ranked_pairs (embeddings_table Fixtures.stale_shop) [1; 0] 1
  = [(2%Z, cosine [1; 0] [1; 0]); (3%Z, cosine [0; 1] [1; 0])].
Proof.
  unfold ranked_pairs. cbn [Fixtures.stale_shop embeddings_table map filter fst snd Z.eqb negb
                            Pos.eqb Sort.sort Sort.insert].
  rewrite Rleb_true; [reflexivity|].
  rewrite cosine_e2_e1. apply Rlt_le, cosine_e1_e1_pos.
Qed.

(** C10.  On the exact backend, without faults, the recommendations are
    the neighbours among the first [k] ranked pairs that still have a
    catalogue row, and nothing from further down the ranking.  So in a
    shop whose index holds the vectors of products 2 and 3 besides the
    target, where product 2 ranks first and has left the catalogue while
    product 3 is still there, a request for one recommendation returns
    none. *)
Theorem exact_backend_does_not_backfill :
  (forall encode self product_id k target,
      use_chroma self = false ->
      find_by_id product_id (products self) = Some target ->
      has_description target = true ->
      exists recs,
        get_recommendations encode no_faults self product_id k = Return recs /\
        map rec_id recs =
        filter (RecSpec.in_catalog self)
          (map fst (py_prefix k (ranked_pairs (embeddings_table self)
                                   (encode (text_to_embed target)) product_id)))) /\
  (exists recs,
      get_recommendations Fixtures.unit_encode no_faults Fixtures.stale_shop 1 1 = Return recs /\
      (1 <= RecSpec.other_embeddings Fixtures.stale_shop 1)%nat /\
      RecSpec.in_catalog Fixtures.stale_shop 2 = false /\
      RecSpec.in_catalog Fixtures.stale_shop 3 = true /\
      (List.length recs < 1)%nat).
Proof.
  assert (Hall : forall encode self product_id k target,
      use_chroma self = false ->
      find_by_id product_id (products self) = Some target ->
      has_description target = true ->
      exists recs,
        get_recommendations encode no_faults self product_id k = Return recs /\
        map rec_id recs =
        filter (RecSpec.in_catalog self)
          (map fst (py_prefix k (ranked_pairs (embeddings_table self)
                                   (encode (text_to_embed target)) product_id)))).
  { intros encode self product_id k target Hexact Hfind Hdesc.
    unfold get_recommendations, ensure_ready, select_described, model_encode.
    cbn [attempt no_faults bind]. rewrite Hfind, Hdesc, Hexact. cbn [map hd].
    destruct (embeddings_table self) as [|r t] eqn:Ht.
    - exists []. split; [reflexivity|]. unfold ranked_pairs, py_prefix.
      cbn [map filter Sort.sort].
      destruct (0 <=? k)%Z; rewrite firstn_nil; reflexivity.
    - destruct (exact_loop_ids no_faults (products self)
                  (py_prefix k (ranked_pairs (r :: t) (encode (text_to_embed target)) product_id))
                  []) as (out & Hout & Hids); [reflexivity|].
      exists out. split; [exact Hout|]. exact Hids. }
  split; [exact Hall|].
  destruct (Hall Fixtures.unit_encode Fixtures.stale_shop 1%Z 1%Z
              (Fixtures.item 1 "Alpha" "general" 10 None (Some "first")))
    as (recs & Hrecs & Hids); try reflexivity.
  exists recs. split; [exact Hrecs|]. split; [cbn; lia|]. split; [reflexivity|].
  split; [reflexivity|].
  change (Fixtures.unit_encode _) with [1; 0] in Hids.
  rewrite stale_shop_ranking in Hids. cbn in Hids.
  destruct recs; [cbn; lia | discriminate].
Qed.

Lemma exact_backend_does_not_backfill_witness :
  use_chroma Fixtures.stale_shop = false /\
  find_by_id 1 (products Fixtures.stale_shop)
  = Some (Fixtures.item 1 "Alpha" "general" 10 None (Some "first")) /\
  has_description (Fixtures.item 1 "Alpha" "general" 10 None (Some "first")) = true /\
  exists recs,
    get_recommendations Fixtures.unit_encode no_faults Fixtures.stale_shop 1 1 = Return recs /\
    map rec_id recs =
    filter (RecSpec.in_catalog Fixtures.stale_shop)
      (map fst (py_prefix 1 (ranked_pairs (embeddings_table Fixtures.stale_shop)
                               (Fixtures.unit_encode
                                  (text_to_embed
                                     (Fixtures.item 1 "Alpha" "general" 10 None
                                        (Some "first")))) 1))).
Proof.
  split; [reflexivity|]. split; [reflexivity|]. split; [reflexivity|].
  apply (proj1 exact_backend_does_not_backfill); reflexivity.
Defined.

(** *** Similarity scores *)

Lemma round_half_even_near (y : R) (m : Z) :
  IZR m <= y < IZR m + 1 / 2 -> round_half_even_R y = m.
Proof.
  intros [H1 H2].
  assert (Hf : Int_part y = m).
  { symmetry. apply Int_part_spec. lra. }
  unfold round_half_even_R. rewrite Hf.
  destruct (Rlt_dec (y - IZR m) (1 / 2)); [reflexivity | lra].
Qed.

Lemma eps_small : eps < 1 / 100000.
Proof.
  unfold eps. cbn [pow]. lra.
Qed.

Lemma cosine_bounds (a b : vector) : 0 < norm a -> -1 <= cosine a b <= 1.
Proof.
  intros Ha. unfold cosine.
  pose proof (abs_dot_le_norms a b) as Hcs. pose proof (norm_nonneg b) as Hb.
  pose proof eps_pos as He.
  set (D := norm a * (norm b + eps)).
  assert (HD : 0 < D) by (unfold D; nra).
  assert (Habs : Rabs (dot a b) <= D) by (unfold D; nra).
  assert (H2 : dot a b <= D) by (pose proof (Rle_abs (dot a b)); lra).
  assert (H1 : - D <= dot a b).
  { pose proof (Rle_abs (- dot a b)) as H. rewrite Rabs_Ropp in H. lra. }
  split.
  - apply Rmult_le_reg_r with D; [exact HD|]. unfold Rdiv.
    rewrite Rmult_assoc, Rinv_l by lra. lra.
  - apply Rmult_le_reg_r with D; [exact HD|]. unfold Rdiv.
    rewrite Rmult_assoc, Rinv_l by lra. lra.
Qed.

Lemma distance_score_bounds (d : R) : 0 <= d -> 0 <= 1 / (1 + d) <= 1.
Proof.
  intros Hd. assert (H : 0 < 1 + d) by lra. split.
  - apply Rlt_le. apply Rdiv_lt_0_compat; lra.
  - apply Rmult_le_reg_r with (1 + d); [exact H|]. unfold Rdiv.
    rewrite Rmult_assoc, Rinv_l by lra. lra.
Qed.

Lemma chroma_loop_scores product_id k results recs :
  Forall (fun x => 0 <= snd x) results -> Forall (RecSpec.score_within 0) recs ->
  Forall (RecSpec.score_within 0) (chroma_loop product_id k results recs).
Proof.
  intros Hres. revert recs. induction Hres as [|[it d] results Hd Hres IH]; intros recs Hrecs.
  - exact Hrecs.
  - cbn [chroma_loop]. destruct (item_id it =? product_id)%Z; [apply IH; exact Hrecs|].
    match goal with
    | |- context [(recs ++ [?r])%list] => assert (Hnew : Forall (RecSpec.score_within 0) (recs ++ [r]))
    end.
    { apply Forall_app. split; [exact Hrecs|]. constructor; [|constructor].
      unfold RecSpec.score_within. cbn [similarity_score].
      apply (py_round_bounds _ 4 0 1). apply distance_score_bounds. exact Hd. }
    destruct (_ <=? _)%Z; [exact Hnew | apply IH; exact Hnew].
Qed.

Lemma exact_loop_scores fails rows top recs out :
  Forall (fun x => -1 <= snd x <= 1) top -> Forall (RecSpec.score_within (-1)) recs ->
  exact_loop fails rows top recs = Return out -> Forall (RecSpec.score_within (-1)) out.
Proof.
  intros Htop. revert recs. induction Htop as [|[pid sim] top Hs Htop IH]; intros recs Hrecs.
  - cbn. intros [= <-]. exact Hrecs.
  - cbn [exact_loop]. destruct (attempt fails (SelectProductById pid)); cbn [bind];
      [|discriminate].
    destruct (find_by_id pid rows) as [row|]; [|apply IH; exact Hrecs].
    apply IH. apply Forall_app. split; [exact Hrecs|]. constructor; [|constructor].
    unfold RecSpec.score_within. cbn [similarity_score]. apply (py_round_bounds _ 4 (-1) 1). exact Hs.
Qed.

Lemma chroma_query_distances fails c q n results :
  chroma_query fails c q n = Return results -> Forall (fun x => 0 <= snd x) results.
Proof.
  unfold chroma_query. destruct (attempt fails ChromaQuery); cbn [bind]; [|discriminate].
  destruct (n <=? 0)%Z; [discriminate|]. intros [= <-].
  rewrite Forall_forall. intros x Hx.
  apply ListFacts.in_firstn in Hx.
  apply (Permutation_in _ (SortFacts.sort_perm _ _)) in Hx.
  apply in_map_iff in Hx. destruct Hx as (it & <- & _). apply sq_l2_nonneg.
Qed.

Lemma ranked_pairs_bounds rows target product_id :
  Forall (fun row => 0 < norm (snd row)) rows ->
  Forall (fun x => -1 <= snd x <= 1) (ranked_pairs rows target product_id).
Proof.
  intros Hrows. rewrite Forall_forall in *. intros x Hx. unfold ranked_pairs in Hx.
  apply (Permutation_in _ (SortFacts.sort_perm _ _)) in Hx.
  apply filter_In in Hx. destruct Hx as [Hx _].
  apply in_map_iff in Hx. destruct Hx as (row & <- & Hrow).
  cbn [snd]. apply cosine_bounds. exact (Hrows row Hrow).
Qed.

Lemma py_prefix_incl {A} (n : Z) (l : list A) (x : A) : In x (py_prefix n l) -> In x l.
Proof. unfold py_prefix. destruct (0 <=? n)%Z; apply ListFacts.in_firstn. Qed.

(** C7, as the code has it.  Every similarity score returned lies in
    [[0, 1]] on the Chroma backend, where it is [1 / (1 + distance)] of a
    non-negative distance, and in [[-1, 1]] on the exact backend, where it
    is the cosine of the stored and the query vector (stored vectors being
    non-zero). *)
Theorem similarity_score_bounds encode fails self product_id k recs r :
  Forall (fun row => 0 < norm (snd row)) (embeddings_table self) ->
  get_recommendations encode fails self product_id k = Return recs ->
  In r recs ->
  (if use_chroma self then 0 else -1) <= similarity_score r <= 1.
Proof.
  intros Hrows Hrec Hin. revert Hrec.
  unfold get_recommendations, ensure_ready, select_described, model_encode.
  destruct (attempt fails LoadModel); cbn [bind]; [|discriminate].
  destruct (attempt fails InitVectorDb); cbn [bind]; [|discriminate].
  destruct (attempt fails (SelectProductById product_id)); cbn [bind]; [|discriminate].
  destruct (match find_by_id product_id (products self) with
            | Some p => if has_description p then Some p else None
            | None => None
            end) as [target|]; [|intros [= <-]; contradiction].
  destruct (attempt fails Encode); cbn [bind]; [|discriminate].
  destruct (use_chroma self).
  - destruct (chroma_query _ _ _ _) as [results|] eqn:Hq; cbn [bind]; [|discriminate].
    intros [= <-].
    pose proof (chroma_loop_scores product_id k results []
                  (chroma_query_distances _ _ _ _ _ Hq) (Forall_nil _)) as Hall.
    rewrite Forall_forall in Hall. exact (Hall r Hin).
  - destruct (attempt fails SelectEmbeddings); cbn [bind]; [|discriminate].
    destruct (embeddings_table self) as [|row rows] eqn:Ht; [intros [= <-]; contradiction|].
    intros Hloop.
    assert (Htop : Forall (fun x => -1 <= snd x <= 1)
                     (py_prefix k (ranked_pairs (row :: rows)
                                     (hd [] (map encode [text_to_embed target])) product_id))).
    { pose proof (ranked_pairs_bounds (row :: rows)
                    (hd [] (map encode [text_to_embed target])) product_id Hrows) as Hb.
      rewrite Forall_forall in *. intros x Hx. apply Hb. eapply py_prefix_incl. exact Hx. }
    pose proof (exact_loop_scores _ _ _ _ _ Htop (Forall_nil _) Hloop) as Hall.
    rewrite Forall_forall in Hall. exact (Hall r Hin).
Qed.

Lemma norm_minus_e1 : norm [-1; 0] = 1.
Proof.
  unfold norm, dot. cbn [combine fold_right fst snd].
  replace (-1 * -1 + (0 * 0 + 0)) with 1 by lra. apply sqrt_1.
Qed.

Lemma cosine_opposite : cosine [-1; 0] [1; 0] = - / (1 + eps).
Proof.
  unfold cosine. rewrite norm_minus_e1, norm_e1. unfold dot.
  cbn [combine fold_right fst snd]. pose proof eps_pos. field. lra.
Qed.

Lemma py_round_cosine_opposite : py_round_R (cosine [-1; 0] [1; 0]) 4 = -1.
Proof.
  rewrite cosine_opposite. unfold py_round_R.
  pose proof eps_pos as He. pose proof eps_small as Hs.
  assert (Hinv : 1 - 1 / 100000 < / (1 + eps) <= 1).
  { split.
    - apply Rmult_lt_reg_r with (1 + eps); [lra|]. rewrite Rinv_l by lra. nra.
    - rewrite <- Rinv_1 at 2. apply Rinv_le_contravar; lra. }
  rewrite (round_half_even_near _ (-10000)).
  - cbn [pow]. field.
  - cbn [pow]. lra.
Qed.

(** C7, counterexample.  On the exact backend a neighbour whose vector
    points the other way gets the score -1, outside [[0, 1]]. *)
Lemma exact_backend_negative_similarity :
  exists r,
    get_recommendations Fixtures.unit_encode no_faults Fixtures.opposite_shop 1 5 = Return [r] /\
    rec_id r = 2%Z /\ similarity_score r = -1 /\ ~ (0 <= similarity_score r <= 1).
Proof.
  eexists. split; [reflexivity|]. split; [reflexivity|].
  cbn [similarity_score].
  change (py_round_R (cosine [-1; 0] [1; 0]) 4 = -1 /\
          ~ 0 <= py_round_R (cosine [-1; 0] [1; 0]) 4 <= 1).
  rewrite py_round_cosine_opposite. split; [reflexivity | lra].
Qed.

Lemma similarity_score_bounds_witness :
  Forall (fun row => 0 < norm (snd row)) (embeddings_table Fixtures.opposite_shop) /\
  exists r,
    get_recommendations Fixtures.unit_encode no_faults Fixtures.opposite_shop 1 5 = Return [r] /\
    In r [r] /\ -1 <= similarity_score r <= 1.
Proof.
  assert (Hrows : Forall (fun row => 0 < norm (snd row))
                    (embeddings_table Fixtures.opposite_shop)).
  { repeat constructor; cbn [snd]; [rewrite norm_e1 | rewrite norm_minus_e1]; lra. }
  split; [exact Hrows|].
  eexists. split; [reflexivity|]. split; [left; reflexivity|].
  exact (similarity_score_bounds Fixtures.unit_encode no_faults Fixtures.opposite_shop 1 5
           _ _ Hrows eq_refl (or_introl eq_refl)).
Defined.

(** *** The rebuild *)

Lemma table_get_put pid k v t :
  table_get pid (table_put k v t) = if (pid =? k)%Z then Some v else table_get pid t.
Proof.
  induction t as [|[k' v'] t IH]; cbn [table_put table_get].
  - destruct (pid =? k)%Z; reflexivity.
  - destruct (Z.ltb_spec k k') as [Hlt|Hge].
    + cbn [table_get]. destruct (Z.eqb_spec pid k); reflexivity.
    + destruct (Z.eqb_spec k k') as [->|Hne]; cbn [table_get].
      * destruct (Z.eqb_spec pid k'); reflexivity.
      * rewrite IH. destruct (Z.eqb_spec pid k'), (Z.eqb_spec pid k); try reflexivity.
        congruence.
Qed.

Lemma table_put_keys k v t x :
  In x (map fst (table_put k v t)) -> x = k \/ In x (map fst t).
Proof.
  induction t as [|[k' v'] t IH]; cbn [table_put map fst In].
  - intros [<-|[]]. now left.
  - destruct (k <? k')%Z; [cbn; intuition|].
    destruct (k =? k')%Z; cbn [map fst In]; intuition.
Qed.

Lemma table_put_increasing k v t :
  RecSpec.keys_increasing t -> RecSpec.keys_increasing (table_put k v t).
Proof.
  unfold RecSpec.keys_increasing. induction t as [|[k' v'] t IH]; cbn [table_put map fst].
  - intros _. repeat constructor.
  - intros Hs. inversion Hs as [|? ? Hs' Hall]; subst.
    destruct (Z.ltb_spec k k') as [Hlt|Hge].
    + cbn [map fst]. constructor; [exact Hs|]. constructor; [exact Hlt|].
      rewrite Forall_forall in *. intros x Hx. specialize (Hall x Hx). lia.
    + destruct (Z.eqb_spec k k') as [->|Hne]; cbn [map fst].
      * constructor; assumption.
      * constructor; [apply IH; exact Hs'|].
        rewrite Forall_forall in *. intros x Hx. apply table_put_keys in Hx.
        destruct Hx as [->|Hx]; [lia | apply Hall; exact Hx].
Qed.

(** The table a transaction that ran to its end has written. *)
Lemma insert_all_spec fails rows t t' :
  insert_all fails rows t = Return t' ->
  t' = fold_left (fun acc r => table_put (fst r) (snd r) acc) rows t.
Proof.
  revert t. induction rows as [|[pid emb] rows IH]; intros t; cbn [insert_all fold_left].
  - now intros [= <-].
  - destruct (attempt fails (InsertEmbedding pid)); cbn [bind]; [|discriminate].
    apply IH.
Qed.

Lemma fold_put_increasing rows t :
  RecSpec.keys_increasing t ->
  RecSpec.keys_increasing (fold_left (fun acc r => table_put (fst r) (snd r) acc) rows t).
Proof.
  revert t. induction rows as [|r rows IH]; intros t Ht; cbn [fold_left]; [exact Ht|].
  apply IH. apply table_put_increasing. exact Ht.
Qed.

Lemma fold_put_get (rows : list (Z * vector)) t pid :
  NoDup (map fst rows) ->
  table_get pid (fold_left (fun acc r => table_put (fst r) (snd r) acc) rows t)
  = match find (fun r => (fst r =? pid)%Z) rows with
    | Some r => Some (snd r)
    | None => table_get pid t
    end.
Proof.
  revert t. induction rows as [|[k v] rows IH]; intros t Hnd; cbn [fold_left find fst snd].
  - reflexivity.
  - inversion Hnd as [|? ? Hnotin Hnd']; subst. rewrite (IH _ Hnd'), table_get_put.
    destruct (Z.eqb_spec k pid) as [->|Hne].
    + rewrite Z.eqb_refl.
      destruct (find (fun r => (fst r =? pid)%Z) rows) as [r|] eqn:Hf; [|reflexivity].
      exfalso. apply find_some in Hf. destruct Hf as [Hin Heq]. apply Z.eqb_eq in Heq.
      apply Hnotin. rewrite <- Heq. apply in_map. exact Hin.
    + destruct (Z.eqb_spec pid k); [congruence|]. reflexivity.
Qed.

Lemma combine_ids_embeddings (encode : string -> vector) (ps : list product_row) :
  combine (map id ps) (map encode (map text_to_embed ps))
  = map (fun p => (id p, encode (text_to_embed p))) ps.
Proof.
  induction ps as [|p ps IH]; cbn [map combine]; [reflexivity|]. now rewrite IH.
Qed.

Lemma find_absent (pid : Z) (l : list product_row) :
  ~ In pid (map id l) -> find (fun p => (id p =? pid)%Z) l = None.
Proof.
  intros Hn. destruct (find _ l) as [p|] eqn:Hf; [|reflexivity].
  apply find_some in Hf. destruct Hf as [Hin Heq]. apply Z.eqb_eq in Heq.
  exfalso. apply Hn. rewrite <- Heq. apply in_map. exact Hin.
Qed.

Lemma find_filter (f : product_row -> bool) (pid : Z) (l : list product_row) :
  NoDup (map id l) ->
  find (fun p => (id p =? pid)%Z) (filter f l)
  = match find (fun p => (id p =? pid)%Z) l with
    | Some p => if f p then Some p else None
    | None => None
    end.
Proof.
  induction l as [|p l IH]; cbn [map filter find]; intros Hnd; [reflexivity|].
  inversion Hnd as [|? ? Hnotin Hnd']; subst. specialize (IH Hnd').
  destruct (Z.eqb_spec (id p) pid) as [Heq|Hne].
  - destruct (f p) eqn:Hf.
    + cbn [find]. rewrite <- Heq, Z.eqb_refl. reflexivity.
    + rewrite IH, find_absent; [reflexivity | now rewrite <- Heq].
  - destruct (f p); [|exact IH]. cbn [find].
    destruct (Z.eqb_spec (id p) pid); [contradiction | exact IH].
Qed.

Lemma NoDup_ids_filter (f : product_row -> bool) (l : list product_row) :
  NoDup (map id l) -> NoDup (map id (filter f l)).
Proof.
  induction l as [|p l IH]; cbn [map filter]; intros Hnd; [constructor|].
  inversion Hnd as [|? ? Hnotin Hnd']; subst. destruct (f p); [|auto].
  cbn [map]. constructor; [|auto].
  intros Hin. apply Hnotin. apply in_map_iff in Hin. destruct Hin as (q & Hq & Hin).
  apply filter_In in Hin. rewrite <- Hq. apply in_map. tauto.
Qed.

Lemma find_mapped (encode : string -> vector) (pid : Z) (ps : list product_row) :
  find (fun r => (fst r =? pid)%Z) (map (fun p => (id p, encode (text_to_embed p))) ps)
  = option_map (fun p => (id p, encode (text_to_embed p)))
      (find (fun p => (id p =? pid)%Z) ps).
Proof.
  induction ps as [|p ps IH]; cbn [map find fst option_map]; [reflexivity|].
  destruct (id p =? pid)%Z; [reflexivity | exact IH].
Qed.

(** The table written by a committed rebuild. *)
Lemma rebuilt_table_spec encode (self : engine) :
  NoDup (map id (products self)) ->
  let ps := filter has_description (products self) in
  let t := fold_left (fun acc r => table_put (fst r) (snd r) acc)
             (combine (map id ps) (map encode (map text_to_embed ps))) [] in
  RecSpec.keys_increasing t /\
  forall pid, table_get pid t = RecSpec.indexed_vector encode self pid.
Proof.
  intros Hnd ps t. split.
  - apply fold_put_increasing. constructor.
  - intros pid. unfold t. rewrite combine_ids_embeddings, fold_put_get.
    + rewrite find_mapped. unfold ps. rewrite (find_filter _ _ _ Hnd).
      unfold RecSpec.indexed_vector, find_by_id.
      destruct (find _ (products self)) as [p|]; [|reflexivity].
      destruct (has_description p); reflexivity.
    + rewrite map_map. cbn [fst]. apply NoDup_ids_filter. exact Hnd.
Qed.

Lemma rebuild_exact_atomic encode fails dup (self : engine) :
  use_chroma self = false -> NoDup (map id (products self)) ->
  let result := generate_embeddings_for_all_products encode fails dup self in
  (exists e, snd result = Raise e /\ fst result = self) \/
  (snd result = Return tt /\ filter has_description (products self) = [] /\
   fst result = self) \/
  (snd result = Return tt /\ filter has_description (products self) <> [] /\
   RecSpec.fully_replaced encode self (fst result)).
Proof.
  intros Hexact Hnd. cbv zeta.
  unfold generate_embeddings_for_all_products, get_products_from_db, model_encode.
  destruct ensure_ready; [|left; eexists; split; reflexivity].
  destruct (attempt fails SelectProducts); cbn [bind]; [|left; eexists; split; reflexivity].
  destruct (filter has_description (products self)) as [|p ps] eqn:Hps.
  { right; left. repeat split. }
  destruct (attempt fails Encode); cbn [bind]; [|left; eexists; split; reflexivity].
  rewrite Hexact. unfold sqlite_rebuild.
  destruct (attempt fails DeleteEmbeddings); cbn [bind]; [|left; eexists; split; reflexivity].
  destruct (insert_all fails _ []) as [t|] eqn:Hins; cbn [bind];
    [|left; eexists; split; reflexivity].
  destruct (attempt fails Commit); cbn [bind]; [|left; eexists; split; reflexivity].
  right; right. split; [reflexivity|]. split; [discriminate|].
  apply insert_all_spec in Hins. cbn [fst].
  pose proof (rebuilt_table_spec encode self Hnd) as Hspec. cbv zeta in Hspec.
  rewrite Hps in Hspec. rewrite <- Hins in Hspec. destruct Hspec as [Hinc Hget].
  unfold RecSpec.fully_replaced, with_table. cbn. repeat split; assumption.
Qed.

Lemma rebuild_chroma_add_failure encode fails dup (self : engine) :
  use_chroma self = true ->
  fails LoadModel = false -> fails InitVectorDb = false -> fails SelectProducts = false ->
  fails Encode = false -> fails ChromaGet = false -> fails ChromaDelete = false ->
  fails ChromaAdd = true ->
  filter has_description (products self) <> [] ->
  generate_embeddings_for_all_products encode fails dup self
  = (with_collection self [], Raise (BackendError ChromaAdd)).
Proof.
  intros Hc F1 F2 F3 F4 F5 F6 F7 Hps.
  unfold generate_embeddings_for_all_products, ensure_ready, get_products_from_db,
    model_encode, chroma_add, clear_collection.
  rewrite (attempt_ok _ _ F1), (attempt_ok _ _ F2), (attempt_ok _ _ F3),
    (attempt_ok _ _ F4), (attempt_ok _ _ F5), (attempt_ok _ _ F6), (attempt_raises _ _ F7).
  cbn [bind]. destruct (filter has_description (products self)); [contradiction|].
  rewrite Hc. cbn [collection with_collection bind].
  destruct (collection self); reflexivity.
Qed.

(** C8, as the code has it.  On the exact backend the rebuild is all or
    nothing: it ends with an exception and the stores untouched, or it
    finds no described product and leaves the stores untouched, or it
    commits a table with exactly one vector per described product.  On the
    Chroma backend the collection is emptied before [collection.add]: when
    that call raises, the rebuild ends with the exception and an empty
    collection. *)
Theorem rebuild_atomic_on_exact_backend_only :
  (forall encode fails dup (self : engine),
      use_chroma self = false -> NoDup (map id (products self)) ->
      let result := generate_embeddings_for_all_products encode fails dup self in
      (exists e, snd result = Raise e /\ fst result = self) \/
      (snd result = Return tt /\ filter has_description (products self) = [] /\
       fst result = self) \/
      (snd result = Return tt /\ filter has_description (products self) <> [] /\
       RecSpec.fully_replaced encode self (fst result))) /\
  (forall encode fails dup (self : engine),
      use_chroma self = true ->
      fails LoadModel = false -> fails InitVectorDb = false ->
      fails SelectProducts = false -> fails Encode = false ->
      fails ChromaGet = false -> fails ChromaDelete = false ->
      fails ChromaAdd = true ->
      filter has_description (products self) <> [] ->
      generate_embeddings_for_all_products encode fails dup self
      = (with_collection self [], Raise (BackendError ChromaAdd))).
Proof.
  split.
  - exact rebuild_exact_atomic.
  - exact rebuild_chroma_add_failure.
Qed.

Lemma rebuild_atomic_on_exact_backend_only_witness :
  (use_chroma Fixtures.unindexed_shop = false /\
   NoDup (map id (products Fixtures.unindexed_shop)) /\
   let result :=
     generate_embeddings_for_all_products Fixtures.unit_encode no_faults false
       Fixtures.unindexed_shop in
   (exists e, snd result = Raise e /\ fst result = Fixtures.unindexed_shop) \/
   (snd result = Return tt /\
    filter has_description (products Fixtures.unindexed_shop) = [] /\
    fst result = Fixtures.unindexed_shop) \/
   (snd result = Return tt /\
    filter has_description (products Fixtures.unindexed_shop) <> [] /\
    RecSpec.fully_replaced Fixtures.unit_encode Fixtures.unindexed_shop (fst result))) /\
  (use_chroma Fixtures.chroma_shop = true /\
   Fixtures.add_fails ChromaAdd = true /\
   filter has_description (products Fixtures.chroma_shop) <> [] /\
   generate_embeddings_for_all_products Fixtures.unit_encode Fixtures.add_fails false
     Fixtures.chroma_shop
   = (with_collection Fixtures.chroma_shop [], Raise (BackendError ChromaAdd))).
Proof.
  split.
  - split; [reflexivity|].
    assert (Hnd : NoDup (map id (products Fixtures.unindexed_shop))).
    { constructor; [intros [] | constructor]. }
    split; [exact Hnd|].
    exact (proj1 rebuild_atomic_on_exact_backend_only Fixtures.unit_encode no_faults false
             Fixtures.unindexed_shop eq_refl Hnd).
  - split; [reflexivity|]. split; [reflexivity|]. split; [discriminate|].
    apply (proj2 rebuild_atomic_on_exact_backend_only); try reflexivity. discriminate.
Defined.

(** C8, counterexample.  On the Chroma backend, when [collection.add]
    raises, the old entry is gone and the vector of product 1 is not
    stored: neither the prior state nor the rebuilt one. *)
Lemma rebuild_chroma_not_atomic :
  let result :=
    generate_embeddings_for_all_products Fixtures.unit_encode Fixtures.add_fails false
      Fixtures.chroma_shop in
  snd result = Raise (BackendError ChromaAdd) /\
  collection (fst result) = [] /\
  collection Fixtures.chroma_shop = [Fixtures.old_item] /\
  RecSpec.indexed_vector Fixtures.unit_encode Fixtures.chroma_shop 1 = Some [1; 0].
Proof. cbv zeta. repeat split. Qed.

(** *** [add_product_embedding] *)

(** Without Chroma the call never touches an index: [self.collection] is
    [None]. *)
Lemma index_one_exact_backend encode fails dup (self : engine) product_id :
  use_chroma self = false ->
  fst (add_product_embedding encode fails dup self product_id) = self /\
  (fails LoadModel = false -> fails InitVectorDb = false ->
   fails (SelectProductById product_id) = false -> fails Encode = false ->
   RecSpec.indexed_vector encode self product_id <> None ->
   snd (add_product_embedding encode fails dup self product_id) = Raise AttributeError).
Proof.
  intros Hexact. unfold add_product_embedding, collection_handle. rewrite Hexact. split.
  - destruct ensure_ready; [|reflexivity].
    destruct (select_described fails self product_id) as [[p|]|]; try reflexivity.
    destruct (model_encode encode fails _); reflexivity.
  - intros F1 F2 F3 F4 Hv. unfold ensure_ready, select_described, model_encode.
    rewrite (attempt_ok _ _ F1), (attempt_ok _ _ F2), (attempt_ok _ _ F3),
      (attempt_ok _ _ F4). cbn [bind].
    unfold RecSpec.indexed_vector in Hv.
    destruct (find_by_id product_id (products self)) as [p|]; [|contradiction].
    destruct (has_description p); [reflexivity | contradiction].
Qed.

(** C9, at the failing input.  Exact backend, product 1 described and
    not yet indexed: both calls of [add_product_embedding] raise
    [AttributeError], since [self.collection] is [None], and the index
    holds no vector for product 1. *)
Theorem index_one_twice_exact_backend :
  let first := add_product_embedding Fixtures.unit_encode no_faults false
                 Fixtures.unindexed_shop 1 in
  let second := add_product_embedding Fixtures.unit_encode no_faults false (fst first) 1 in
  RecSpec.indexed_vector Fixtures.unit_encode Fixtures.unindexed_shop 1 = Some [1; 0] /\
  snd first = Raise AttributeError /\ snd second = Raise AttributeError /\
  stored_vectors (fst second) 1 = 0%nat /\ index_size (fst second) = 0%nat.
Proof. cbv zeta. repeat split. Qed.

Lemma count_app_new (pid : Z) (c : list chroma_item) (it : chroma_item) :
  item_id it = pid -> in_collection pid c = false ->
  List.length (filter (fun x => (item_id x =? pid)%Z) (c ++ [it])) = 1%nat.
Proof.
  intros Hid Hnot. rewrite filter_app, length_app. cbn [filter].
  rewrite Hid, Z.eqb_refl. cbn [List.length].
  assert (Hnil : filter (fun x => (item_id x =? pid)%Z) c = []).
  { unfold in_collection in Hnot. induction c as [|x c IH]; [reflexivity|].
    cbn [existsb filter] in *. apply orb_false_elim in Hnot. destruct Hnot as [Hx Hc].
    rewrite Hx. exact (IH Hc). }
  rewrite Hnil. reflexivity.
Qed.

Lemma count_present (pid : Z) (c : list chroma_item) :
  in_collection pid c = true ->
  (1 <= List.length (filter (fun x => (item_id x =? pid)%Z) c))%nat.
Proof.
  unfold in_collection. induction c as [|x c IH]; cbn [existsb filter]; [discriminate|].
  destruct (item_id x =? pid)%Z; cbn [orb List.length]; [lia | exact IH].
Qed.

(** On the Chroma backend the call is idempotent for a product with a
    rating, whichever way [collection.add] treats an id it already
    holds: a second call leaves the one vector stored by the first. *)
Lemma index_one_chroma_idempotent encode dup (self : engine) product_id :
  use_chroma self = true ->
  RecSpec.indexed_vector encode self product_id <> None ->
  RecSpec.has_rating self product_id = true ->
  (stored_vectors self product_id <= 1)%nat ->
  let first := fst (add_product_embedding encode no_faults dup self product_id) in
  let second := fst (add_product_embedding encode no_faults dup first product_id) in
  stored_vectors second product_id = 1%nat /\ index_size second = index_size first.
Proof.
  intros Hc Hv Hrated Hcount. unfold RecSpec.indexed_vector in Hv.
  unfold RecSpec.has_rating, RecSpec.rated in Hrated.
  destruct (find_by_id product_id (products self)) as [p|] eqn:Hfind; [|contradiction].
  destruct (has_description p) eqn:Hdesc; [|contradiction].
  destruct (rating p) as [stars|] eqn:Hstars; [|discriminate].
  assert (Hstep : forall s : engine,
             use_chroma s = true -> products s = products self ->
             let s' := fst (add_product_embedding encode no_faults dup s product_id) in
             use_chroma s' = true /\ products s' = products self /\
             (in_collection product_id (collection s) = true -> collection s' = collection s) /\
             (in_collection product_id (collection s) = false ->
              in_collection product_id (collection s') = true /\
              stored_vectors s' product_id = 1%nat)).
  { intros s Hs Hp. cbv zeta.
    unfold add_product_embedding, ensure_ready, select_described, model_encode,
      collection_handle, chroma_add.
    cbn [attempt no_faults bind]. rewrite Hp, Hfind, Hdesc, Hs.
    unfold accepted_metadata, metadata_of. cbn [forallb item_metadata md_rating].
    rewrite Hstars. cbn [andb negb].
    cbn [existsb item_id orb filter].
    rewrite orb_false_r.
    destruct (in_collection product_id (collection s)) eqn:Hin.
    - rewrite andb_true_r. cbn [negb]. rewrite app_nil_r. destruct dup; cbn [fst].
      + split; [exact Hs|]. split; [exact Hp|]. split; [reflexivity | discriminate].
      + cbn [with_collection use_chroma products collection].
        split; [exact Hs|]. split; [exact Hp|]. split; [reflexivity | discriminate].
    - rewrite andb_false_r. cbn [negb fst with_collection use_chroma products collection].
      split; [exact Hs|]. split; [exact Hp|]. split; [discriminate|]. intros _.
      unfold stored_vectors, with_collection. cbn [use_chroma collection]. rewrite Hs. split.
      + unfold in_collection. rewrite existsb_app. cbn [existsb item_id].
        rewrite Z.eqb_refl. apply orb_true_r.
      + apply count_app_new; [reflexivity | exact Hin]. }
  cbv zeta.
  destruct (Hstep self Hc eq_refl) as (Hc1 & Hp1 & Hsame1 & Hnew1).
  set (first := fst (add_product_embedding encode no_faults dup self product_id)) in *.
  assert (Hin1 : in_collection product_id (collection first) = true /\
                 stored_vectors first product_id = 1%nat).
  { destruct (in_collection product_id (collection self)) eqn:Hin.
    - rewrite (Hsame1 eq_refl). split; [exact Hin|].
      unfold stored_vectors in *. rewrite Hc1, (Hsame1 eq_refl). rewrite Hc in Hcount.
      pose proof (count_present _ _ Hin). lia.
    - exact (Hnew1 eq_refl). }
  destruct Hin1 as [Hin1 Hone].
  destruct (Hstep first Hc1 Hp1) as (Hc2 & _ & Hsame2 & _).
  specialize (Hsame2 Hin1).
  set (second := fst (add_product_embedding encode no_faults dup first product_id)) in *.
  unfold stored_vectors, index_size in *. rewrite Hc2, Hsame2. rewrite Hc1 in Hone.
  rewrite Hc1. split; [exact Hone | reflexivity].
Qed.
End RecFacts.

(** ** Failure policy of the retrieval operations *)

Module RetrievalFacts.

Import Catalog Py Recommender.

(** C4, counterexample.  The catalogue store raises, and
    [find_alternatives] answers with an empty list as if nothing matched,
    although the same table behind a working connection has three
    alternatives. *)
Lemma find_alternatives_swallows_failure :
  ProductDb.execute_query Fixtures.broken_catalog "headphones" 1000 72 10
  = Raise (BackendError SelectProducts) /\
  ProductDb.find_alternatives unit Fixtures.no_json tt Fixtures.broken_catalog
    "headphones" 80 1000 10 = [] /\
  map (fun p => id (ProductDb.row unit p))
    (ProductDb.find_alternatives unit Fixtures.no_json tt Fixtures.working_catalog
       "headphones" 80 1000 10) = [3; 1; 5]%Z.
Proof. split; [reflexivity|]. split; [reflexivity|]. vm_compute. reflexivity. Qed.

(** C4, as the code has it.  [get_recommendations], the index query
    included, re-raises: when any collaborator operation on its path
    raises, the call ends with an exception.  [find_alternatives] does
    not: when the catalogue store raises it returns the empty list. *)
Theorem retrieval_failure_policy
    (encode : string -> RNum.vector) (fails : faults) (self : engine)
    (product_id k : Z) (o : op)
    (json : Type) (json_loads : string -> option json) (empty_object : json)
    (db : ProductDb.database) (cat : string) (target_score max_price : Q) (limit : Z) :
  In o (RecSpec.recommend_ops encode self product_id k) -> fails o = true ->
  ProductDb.available db = false ->
  (exists e, get_recommendations encode fails self product_id k = Raise e) /\
  ProductDb.find_alternatives json json_loads empty_object db cat target_score
    max_price limit = [].
Proof.
  intros Hin Hf Hdb. split.
  - exact (RecFacts.recommend_propagates encode fails self product_id k o Hin Hf).
  - unfold ProductDb.find_alternatives, ProductDb.execute_query. rewrite Hdb. reflexivity.
Qed.

Lemma retrieval_failure_policy_witness :
  In Encode (RecSpec.recommend_ops Fixtures.unit_encode Fixtures.lonely_shop 1 5) /\
  Fixtures.encode_fails Encode = true /\
  ProductDb.available Fixtures.broken_catalog = false /\
  (exists e,
      get_recommendations Fixtures.unit_encode Fixtures.encode_fails Fixtures.lonely_shop 1 5
      = Raise e) /\
  ProductDb.find_alternatives unit Fixtures.no_json tt Fixtures.broken_catalog
    "headphones" 80 1000 10 = [].
Proof.
  assert (Hin : In Encode
                  (RecSpec.recommend_ops Fixtures.unit_encode Fixtures.lonely_shop 1 5)).
  { right. right. right. left. reflexivity. }
  split; [exact Hin|]. split; [reflexivity|]. split; [reflexivity|].
  exact (retrieval_failure_policy Fixtures.unit_encode Fixtures.encode_fails
           Fixtures.lonely_shop 1 5 Encode unit Fixtures.no_json tt
           Fixtures.broken_catalog "headphones" 80 1000 10 Hin eq_refl eq_refl).
Defined.

End RetrievalFacts.

(** ** More on the scorer: ranges, ceilings, custom scorecards *)

Module ScorerMore.
Import QualityScorer ScorerInv.
Import Lqa.
Local Open Scope Q_scope.

Lemma get_set {V} (k k' : string) (v : V) (d : Dict.dict V) :
  Dict.get k (Dict.set k' v d) = if String.eqb k k' then Some v else Dict.get k d.
Proof.
  induction d as [|[k0 v0] d IH]; cbn [Dict.set Dict.get].
  - destruct (String.eqb k k'); reflexivity.
  - destruct (String.eqb k' k0) eqn:E0; cbn [Dict.get].
    + apply String.eqb_eq in E0. subst k0.
      destruct (String.eqb k k'); reflexivity.
    + rewrite IH. destruct (String.eqb k k0) eqn:E1; [|reflexivity].
      apply String.eqb_eq in E1. subst k0.
      destruct (String.eqb k k') eqn:E2; [|reflexivity].
      apply String.eqb_eq in E2. subst k'. rewrite String.eqb_refl in E0. discriminate.
Qed.

Lemma score_in_range (self : scorer) (product_specs : specs_dict) (category : string) :
  0 <= calculate_quality_score self product_specs category <= 100.
Proof.
  unfold calculate_quality_score.
  destruct (Dict.get _ (category_scorecards self)) as [card|]; [|split; discriminate].
  destruct (score_loop _ _ card 0) as [total|]; [|split; discriminate].
  destruct (Qeq_bool (sum_values card) 0); [split; discriminate|].
  split.
  - apply Q.le_max_l.
  - apply Q.max_lub; [discriminate | apply Q.le_min_l].
Qed.

(** X1.  The quality score is a percentage, whatever scorecards are
    registered and also on the exception path. *)
Theorem quality_score_range (self : scorer) (product_specs : specs_dict) (category : string) :
  0 <= calculate_quality_score self product_specs category <= 100.
Proof. exact (score_in_range self product_specs category). Qed.

Lemma score_new_is_spec (product_specs : specs_dict) (category : string) :
  calculate_quality_score new product_specs category
  == ScorerSpec.score new product_specs category.
Proof.
  destruct (ScorerFacts.new_tables_sane category) as (card & Hcard & Hrefs & Hsum).
  exact (ScorerFacts.calculate_quality_score_refines new product_specs category card
           Hcard Hrefs Hsum).
Qed.

Lemma clamp01_bounds (x : Q) : 0 <= Num.clamp x 0 1 <= 1.
Proof.
  unfold Num.clamp. split; [apply Q.le_max_l|].
  apply Q.max_lub; [discriminate | apply Q.le_min_r].
Qed.

(** A feature earns between nothing and its weight. *)
Lemma points_bounds (reference : Q) (value : option Q) (feature : string) (weight : Q) :
  0 <= weight -> 0 <= ScorerSpec.points reference value feature weight <= weight.
Proof.
  intros Hw. unfold ScorerSpec.points. destruct value as [v|]; [|split; lra].
  pose proof (clamp01_bounds (v / reference)) as [H0 H1].
  set (c := Num.clamp (v / reference) 0 1) in *.
  destruct (ScorerSpec.lower_is_better feature); split; nra.
Qed.

Lemma clamp_percent_le (x cap : Q) : 0 <= cap -> x <= cap -> Num.clamp x 0 100 <= cap.
Proof.
  intros Hc Hx. unfold Num.clamp. apply Q.max_lub; [exact Hc|].
  eapply Qle_trans; [apply Q.le_min_l | exact Hx].
Qed.


Lemma clamp_percent_eq (x c : Q) : 0 <= c <= 100 -> x == c -> Num.clamp x 0 100 == c.
Proof.
  intros [H0 H1] Hx. unfold Num.clamp. rewrite Hx.
  rewrite (Q.min_l c 100 H1). apply Q.max_r. exact H0.
Qed.

Lemma points_absent (reference : Q) (feature : string) (weight : Q) :
  ScorerSpec.points reference None feature weight == (6 # 10) * weight.
Proof. reflexivity. Qed.

(** A value at or above the reference earns the whole weight. *)
Lemma points_saturated (reference v : Q) (feature : string) (weight : Q) :
  0 < reference -> reference <= v -> ScorerSpec.lower_is_better feature = false ->
  ScorerSpec.points reference (Some v) feature weight == weight.
Proof.
  intros Hr Hv Hf. unfold ScorerSpec.points. rewrite Hf.
  assert (H1 : 1 <= v / reference).
  { apply Qle_shift_div_l; [exact Hr | lra]. }
  assert (Hc : Num.clamp (v / reference) 0 1 == 1).
  { unfold Num.clamp. rewrite (Q.min_r _ 1 H1). apply Q.max_r. discriminate. }
  rewrite Hc. ring.
Qed.

Lemma points_zero (reference : Q) (feature : string) (weight : Q) :
  ScorerSpec.lower_is_better feature = false ->
  ScorerSpec.points reference (Some 0) feature weight == 0.
Proof.
  intros Hf. unfold ScorerSpec.points. rewrite Hf.
  assert (Hc : Num.clamp (0 / reference) 0 1 == 0).
  { unfold Num.clamp. assert (H0 : 0 / reference == 0) by (unfold Qdiv; ring).
    rewrite H0. reflexivity. }
  rewrite Hc. ring.
Qed.

Lemma get_set_if_truthy_other (k k' : string) (o : option Q) (d : Dict.dict Q) :
  String.eqb k k' = false -> Dict.get k (set_if_truthy k' o d) = Dict.get k d.
Proof.
  intros Hk. unfold set_if_truthy. destruct o as [x|]; [|reflexivity].
  destruct (Qeq_bool x 0); [reflexivity|]. rewrite get_set, Hk. reflexivity.
Qed.

Ltac drop_other_keys :=
  repeat first [ rewrite get_set_if_truthy_other by reflexivity
               | rewrite get_set; cbn [String.eqb Ascii.eqb Bool.eqb] ].

(** Features no normalizer produces. *)
Lemma smartphone_never_extracted (product_specs : specs_dict) :
  Dict.get "processor" (_normalize_smartphone_specs product_specs) = None /\
  Dict.get "storage" (_normalize_smartphone_specs product_specs) = None.
Proof.
  unfold _normalize_smartphone_specs. split; drop_other_keys; reflexivity.
Qed.

Lemma mixer_never_extracted (product_specs : specs_dict) :
  Dict.get "warranty" (_normalize_mixer_specs product_specs) = None /\
  Dict.get "safety_features" (_normalize_mixer_specs product_specs) = None.
Proof.
  unfold _normalize_mixer_specs. split; drop_other_keys; reflexivity.
Qed.

Lemma trimmer_never_extracted (product_specs : specs_dict) :
  Dict.get "charging_time" (_normalize_trimmer_specs product_specs) = None.
Proof.
  unfold _normalize_trimmer_specs. drop_other_keys.
  destruct (Text.any_in _ _); drop_other_keys; reflexivity.
Qed.

Ltac bound_points :=
  repeat match goal with
  | |- context [ScorerSpec.points ?r ?o ?f ?w] =>
      let p := fresh "p" in
      let Hp := fresh "Hp" in
      pose proof (points_bounds r o f w ltac:(discriminate)) as Hp;
      set (p := ScorerSpec.points r o f w) in *; clearbody p
  end.

(** Arithmetic on a score: the weights of a default scorecard sum to 100. *)
Ltac percent_arith :=
  match goal with
  | |- context [?t / ?d * 100] =>
      let Hd := fresh "Hd" in
      assert (Hd : t / d * 100 == t) by (unfold Qdiv; change (/ d) with (1 # 100); ring);
      rewrite Hd; clear Hd
  end; lra.

(** X2.  The ceilings of the categories with features that are never
    extracted, and specs that reach them. *)
Theorem category_ceilings (product_specs : specs_dict) :
  calculate_quality_score new product_specs "smartphone" <= 86 /\
  calculate_quality_score new product_specs "mixer" <= 90 /\
  calculate_quality_score new product_specs "trimmer" <= 96 /\
  calculate_quality_score new
    [("camera", "108MP"); ("battery", "5000mAh"); ("ram", "12GB")] "smartphone" == 86 /\
  calculate_quality_score new
    [("power", "1000W"); ("jars", "5"); ("speeds", "10")] "mixer" == 90 /\
  calculate_quality_score new
    [("runtime", "120 min"); ("blade", "titanium, IPX7"); ("attachments", "10")]
    "trimmer" == 96.
Proof.
  split; [|split; [|split; [|split; [|split]]]].
  - rewrite score_new_is_spec. unfold ScorerSpec.score, ScorerSpec.quality_score. cbn.
    destruct (smartphone_never_extracted product_specs) as [H1 H2]. rewrite H1, H2.
    apply clamp_percent_le; [discriminate|].
    rewrite !points_absent. bound_points. percent_arith.
  - rewrite score_new_is_spec. unfold ScorerSpec.score, ScorerSpec.quality_score. cbn.
    destruct (mixer_never_extracted product_specs) as [H1 H2]. rewrite H1, H2.
    apply clamp_percent_le; [discriminate|].
    rewrite !points_absent. bound_points. percent_arith.
  - rewrite score_new_is_spec. unfold ScorerSpec.score, ScorerSpec.quality_score. cbn.
    rewrite (trimmer_never_extracted product_specs).
    apply clamp_percent_le; [discriminate|].
    rewrite !points_absent. bound_points. percent_arith.
  - vm_compute. reflexivity.
  - vm_compute. reflexivity.
  - vm_compute. reflexivity.
Qed.

Lemma clothing_material (product_specs : specs_dict) :
  exists m, Dict.get "material" (_normalize_clothing_specs product_specs) = Some m /\ 1 <= m.
Proof.
  unfold _normalize_clothing_specs. rewrite get_set. cbn [String.eqb Ascii.eqb Bool.eqb].
  destruct (Text.any_in _ _); [eexists; split; [reflexivity | discriminate]|].
  destruct (Text.any_in _ _); eexists; (split; [reflexivity | discriminate]).
Qed.

Lemma clothing_others_absent (product_specs : specs_dict) (feature : string) :
  String.eqb feature "material" = false ->
  Dict.get feature (_normalize_clothing_specs product_specs) = None.
Proof.
  intros Hf. unfold _normalize_clothing_specs. rewrite get_set, Hf. reflexivity.
Qed.

(** X3.  Two categories whose score no specification can change. *)
Theorem specs_blind_categories (product_specs : specs_dict) :
  calculate_quality_score new product_specs "laptop" == 60 /\
  calculate_quality_score new product_specs "clothing" == 72.
Proof.
  split.
  - vm_compute. reflexivity.
  - rewrite score_new_is_spec. unfold ScorerSpec.score, ScorerSpec.quality_score.
    cbn -[_normalize_clothing_specs].
    destruct (clothing_material product_specs) as (m & Hm & Hm1). rewrite Hm.
    rewrite !clothing_others_absent by reflexivity.
    apply clamp_percent_eq; [split; discriminate|].
    rewrite !points_absent.
    rewrite (points_saturated 1 m "material" 30 ltac:(reflexivity) Hm1 eq_refl).
    vm_compute. reflexivity.
Qed.

Lemma general_features (product_specs : specs_dict) :
  _normalize_general_specs product_specs
  = [("quality", 3); ("features", inject_Z (Z.of_nat (List.length product_specs)));
     ("durability", 3); ("value", 3)].
Proof. reflexivity. Qed.

(** X4.  [general] and every unregistered category: 70 for empty specs, 100
    as soon as there is one attribute, whatever it says. *)
Theorem general_category_score (product_specs : specs_dict) (category : string) :
  category = "general" \/ Dict.mem category (category_scorecards new) = false ->
  calculate_quality_score new product_specs category
  == match product_specs with [] => 70 | _ :: _ => 100 end.
Proof.
  intros Hcat. rewrite score_new_is_spec. unfold ScorerSpec.score.
  assert (Hres : (if Dict.mem category (category_scorecards new)
                  then category else "general") = "general").
  { destruct Hcat as [->|Hout]; [reflexivity | rewrite Hout; reflexivity]. }
  rewrite Hres. unfold ScorerSpec.quality_score. cbn.
  destruct product_specs as [|kv rest].
  - vm_compute. reflexivity.
  - apply clamp_percent_eq; [split; discriminate|].
    rewrite (points_saturated 1 3 "quality" 40 ltac:(reflexivity) ltac:(discriminate) eq_refl).
    rewrite (points_saturated 1 3 "durability" 20 ltac:(reflexivity) ltac:(discriminate) eq_refl).
    rewrite (points_saturated 1 3 "value" 10 ltac:(reflexivity) ltac:(discriminate) eq_refl).
    set (len := inject_Z (Z.of_nat (List.length (kv :: rest)))).
    assert (Hlen : 1 <= len).
    { unfold len, Qle. cbn [List.length Qnum Qden inject_Z]. lia. }
    rewrite (points_saturated 1 len "features" 30 ltac:(reflexivity) Hlen eq_refl).
    vm_compute. reflexivity.
Qed.

Lemma general_category_score_witness :
  ("general" = "general" \/ Dict.mem "general" (category_scorecards new) = false) /\
  calculate_quality_score new [("colour", "red")] "general" == 100.
Proof.
  split; [left; reflexivity|].
  apply (general_category_score [("colour", "red")] "general"). left. reflexivity.
Defined.

(** *** Rounding is monotone *)

Lemma round_half_even_floor (z : Q) :
  (Qfloor z <= Num.round_half_even z <= Qfloor z + 1)%Z.
Proof.
  unfold Num.round_half_even.
  destruct (Qcompare _ _); [destruct (Z.even _)| |]; lia.
Qed.

Lemma round_half_even_mono (x y : Q) :
  x <= y -> (Num.round_half_even x <= Num.round_half_even y)%Z.
Proof.
  intros Hxy. pose proof (Qfloor_resp_le _ _ Hxy) as Hf.
  destruct (Z.eq_dec (Qfloor x) (Qfloor y)) as [Heq|Hne].
  - unfold Num.round_half_even. rewrite <- Heq.
    destruct (Qcompare_spec (x - inject_Z (Qfloor x)) (1 # 2)) as [Hx|Hx|Hx];
    destruct (Qcompare_spec (y - inject_Z (Qfloor x)) (1 # 2)) as [Hy|Hy|Hy];
      try (destruct (Z.even (Qfloor x))); try lia; exfalso; lra.
  - pose proof (round_half_even_floor x). pose proof (round_half_even_floor y). lia.
Qed.

Lemma py_round_mono (x y : Q) (nd : nat) :
  x <= y -> Num.py_round x nd <= Num.py_round y nd.
Proof.
  intros Hxy. unfold Num.py_round.
  set (scale := inject_Z (10 ^ Z.of_nat nd)).
  assert (Hs : 0 < scale).
  { unfold scale. change 0 with (inject_Z 0). rewrite <- Zlt_Qlt.
    apply Z.pow_pos_nonneg; lia. }
  assert (Hm : x * scale <= y * scale) by (apply Qmult_le_compat_r; lra).
  apply round_half_even_mono in Hm. rewrite Zle_Qle in Hm.
  unfold Qdiv. apply Qmult_le_compat_r; [exact Hm|].
  apply Qlt_le_weak, Qinv_lt_0_compat. exact Hs.
Qed.

Lemma final_score_monotone (q q' rating rating' : Q) :
  0 <= q -> q <= q' -> q' <= 100 -> 0 <= rating -> rating <= rating' -> rating' <= 5 ->
  0 <= calculate_final_score q rating /\
  calculate_final_score q rating <= calculate_final_score q' rating' /\
  calculate_final_score q' rating' <= 100.
Proof.
  intros H0 Hq H100 Hr0 Hr Hr5. unfold calculate_final_score.
  split; [|split].
  - rewrite <- (ScorerFacts.py_round_0 2). apply py_round_mono.
    apply Qmult_le_0_compat; [exact H0|]. unfold Qdiv. apply Qmult_le_0_compat; [exact Hr0|].
    discriminate.
  - apply py_round_mono.
    assert (Hd : rating / 5 <= rating' / 5).
    { unfold Qdiv. apply Qmult_le_compat_r; [exact Hr | discriminate]. }
    assert (Hd0 : 0 <= rating / 5).
    { unfold Qdiv. apply Qmult_le_0_compat; [exact Hr0 | discriminate]. }
    nra.
  - assert (H : Num.py_round 100 2 == 100) by (vm_compute; reflexivity).
    rewrite <- H. apply py_round_mono.
    assert (Hd : rating' / 5 <= 1).
    { apply Qle_shift_div_r; [reflexivity | lra]. }
    assert (Hd0 : 0 <= rating' / 5).
    { unfold Qdiv. apply Qmult_le_0_compat; [lra | discriminate]. }
    nra.
Qed.

(** X5.  The final score of a percentage at a rating between 0 and 5 is a
    percentage again, and a better rating or a better quality score never
    lowers it. *)
Theorem final_score_range_monotone (q q' rating rating' : Q) :
  0 <= q -> q <= q' -> q' <= 100 -> 0 <= rating -> rating <= rating' -> rating' <= 5 ->
  0 <= calculate_final_score q rating /\
  calculate_final_score q rating <= calculate_final_score q' rating' /\
  calculate_final_score q' rating' <= 100.
Proof. exact (final_score_monotone q q' rating rating'). Qed.

Lemma final_score_range_monotone_witness :
  0 <= 50 /\ 50 <= 80 /\ 80 <= 100 /\ 0 <= 3 /\ 3 <= (9 # 2) /\ (9 # 2) <= 5 /\
  0 <= calculate_final_score 50 3 /\
  calculate_final_score 50 3 <= calculate_final_score 80 (9 # 2) /\
  calculate_final_score 80 (9 # 2) <= 100.
Proof.
  do 6 (split; [discriminate|]).
  apply final_score_range_monotone; discriminate.
Defined.

(** *** The normalizers stay within the scorecard *)

Lemma set_keys (allowed : list string) (k : string) (v : Q) (d : Dict.dict Q) :
  In k allowed -> Forall (fun kv => In (fst kv) allowed) d ->
  Forall (fun kv => In (fst kv) allowed) (Dict.set k v d).
Proof.
  intros Hk Hd. induction d as [|[k0 v0] d IH]; cbn [Dict.set].
  - repeat constructor. exact Hk.
  - inversion Hd; subst. destruct (String.eqb k k0); constructor; auto.
Qed.

Lemma set_if_truthy_keys (allowed : list string) (k : string) (o : option Q)
    (d : Dict.dict Q) :
  In k allowed -> Forall (fun kv => In (fst kv) allowed) d ->
  Forall (fun kv => In (fst kv) allowed) (set_if_truthy k o d).
Proof.
  intros Hk Hd. unfold set_if_truthy. destruct o as [x|]; [|exact Hd].
  destruct (Qeq_bool x 0); [exact Hd | apply set_keys; assumption].
Qed.

Lemma mem_keys (allowed : list string) (d : Dict.dict Q) (feature : string) :
  Forall (fun kv => In (fst kv) allowed) d -> Dict.mem feature d = true -> In feature allowed.
Proof.
  intros Hd Hm. unfold Dict.mem in Hm.
  destruct (Dict.get feature d) as [v|] eqn:Hg; [|discriminate].
  apply ScorerFacts.get_in in Hg. rewrite Forall_forall in Hd. exact (Hd _ Hg).
Qed.

Ltac keys_step :=
  repeat match goal with
  | |- Forall _ (if ?b then _ else _) => destruct b
  | |- Forall _ (set_if_truthy _ _ _) => apply set_if_truthy_keys; [vm_compute; tauto|]
  | |- Forall _ (Dict.set _ _ _) => apply set_keys; [vm_compute; tauto|]
  | |- Forall _ [] => apply Forall_nil
  end.

Lemma normalized_keys (product_specs : specs_dict) (category : string) :
  In category registered ->
  Forall (fun kv => In (fst kv)
                      (map fst (Dict.get_default category [] (category_scorecards new))))
    (_normalize_specs product_specs category).
Proof.
  intros Hin. cbn in Hin.
  repeat (destruct Hin as [<-|Hin];
          [ unfold _normalize_specs; cbn [String.eqb Ascii.eqb Bool.eqb];
            unfold _normalize_headphones_specs, _normalize_trimmer_specs,
              _normalize_mixer_specs, _normalize_smartphone_specs,
              _normalize_laptop_specs, _normalize_clothing_specs,
              _normalize_general_specs;
            cbv zeta; keys_step | ]).
  contradiction.
Qed.

Lemma mem_of_key (feature : string) (d : Dict.dict Q) :
  In feature (map fst d) -> Dict.mem feature d = true.
Proof.
  unfold Dict.mem. induction d as [|[k v] d IH]; cbn [map fst In Dict.get]; [contradiction|].
  intros [->|Hin].
  - rewrite String.eqb_refl. reflexivity.
  - destruct (String.eqb feature k); [reflexivity | exact (IH Hin)].
Qed.

(** The normalized feature set of any product holds only features of the
    scorecard it is scored against. *)
Theorem normalized_features_known (product_specs : specs_dict) (category feature : string) :
  let resolved :=
    if Dict.mem category (category_scorecards new) then category else "general" in
  Dict.mem feature (_normalize_specs product_specs resolved) = true ->
  Dict.mem feature (Dict.get_default resolved [] (category_scorecards new)) = true.
Proof.
  intros resolved Hm.
  assert (Hreg : In resolved registered).
  { unfold resolved. destruct (ScorerFacts.category_cases category) as [Hin|Hout].
    - assert (Hmem : Dict.mem category (category_scorecards new) = true).
      { cbn in Hin.
        repeat (destruct Hin as [<-|Hin]; [reflexivity|]). contradiction. }
      rewrite Hmem. exact Hin.
    - rewrite Hout. cbn. tauto. }
  apply mem_of_key. eapply mem_keys; [apply normalized_keys; exact Hreg | exact Hm].
Qed.

Lemma normalized_features_known_witness :
  Dict.mem "build_quality"
    (_normalize_specs [("material", "metal")] "headphones") = true /\
  Dict.mem "build_quality"
    (Dict.get_default "headphones" [] (category_scorecards new)) = true.
Proof.
  split; [reflexivity|].
  apply (normalized_features_known [("material", "metal")] "headphones" "build_quality").
  reflexivity.
Defined.

(** *** Registering a scorecard *)

Lemma mem_set_other {V} (k k' : string) (v : V) (d : Dict.dict V) :
  k <> k' -> Dict.mem k (Dict.set k' v d) = Dict.mem k d.
Proof.
  intros Hk. unfold Dict.mem. rewrite get_set.
  destruct (String.eqb_spec k k'); [contradiction | reflexivity].
Qed.

Lemma get_set_other {V} (k k' : string) (v : V) (d : Dict.dict V) :
  k <> k' -> Dict.get k (Dict.set k' v d) = Dict.get k d.
Proof.
  intros Hk. rewrite get_set. destruct (String.eqb_spec k k'); [contradiction | reflexivity].
Qed.

(** X6.  A registered scorecard is found again under its category; the
    scorecards and the scores of the other categories stay as they
    were. *)
Theorem custom_scorecard_registration (self : scorer) (category other : string)
    (sc : scorecard) (product_specs : specs_dict) :
  other <> category -> category <> "general" ->
  get_category_scorecard (add_custom_scorecard self category sc) category = Some sc /\
  get_category_scorecard (add_custom_scorecard self category sc) other
  = get_category_scorecard self other /\
  calculate_quality_score (add_custom_scorecard self category sc) product_specs other
  = calculate_quality_score self product_specs other.
Proof.
  intros Hother Hgen.
  assert (Hgen' : "general" <> category) by congruence.
  unfold get_category_scorecard, add_custom_scorecard, calculate_quality_score.
  cbn [category_scorecards reference_values].
  split; [|split].
  - rewrite get_set, String.eqb_refl. reflexivity.
  - rewrite (get_set_other other category sc _ Hother).
    rewrite (get_set_other "general" category sc _ Hgen'). reflexivity.
  - rewrite (mem_set_other other category sc _ Hother).
    destruct (Dict.mem other (category_scorecards self)).
    + rewrite (get_set_other other category sc _ Hother). reflexivity.
    + rewrite (get_set_other "general" category sc _ Hgen'). reflexivity.
Qed.

Lemma custom_scorecard_registration_witness :
  "laptop" <> "shoes" /\ "shoes" <> "general" /\
  get_category_scorecard (add_custom_scorecard new "shoes" [("grip", 100)]) "shoes"
  = Some [("grip", 100)] /\
  get_category_scorecard (add_custom_scorecard new "shoes" [("grip", 100)]) "laptop"
  = get_category_scorecard new "laptop" /\
  calculate_quality_score (add_custom_scorecard new "shoes" [("grip", 100)]) [] "laptop"
  = calculate_quality_score new [] "laptop".
Proof.
  split; [discriminate|]. split; [discriminate|].
  apply custom_scorecard_registration; discriminate.
Defined.

Lemma loop_all_absent (refs normalized : Dict.dict Q) (items : list (string * Q))
    (total : Q) :
  Forall (fun fw => Dict.get (fst fw) normalized = None) items ->
  exists t,
    score_loop refs normalized items total = Some t /\
    t == total + (6 # 10) * ScorerSpec.Qsum (Dict.values items).
Proof.
  intros Hall. revert total.
  induction Hall as [|[f w] items Hf Hall IH]; intros total.
  - exists total. split; [reflexivity|]. cbn. ring.
  - cbn [score_loop]. unfold feature_points. cbn [fst] in Hf. rewrite Hf.
    destruct (IH (total + w * (6 # 10))) as (t & Ht & Hte).
    exists t. split; [exact Ht|]. rewrite Hte. unfold Dict.values.
    cbn [map snd ScorerSpec.Qsum]. ring.
Qed.

Lemma general_get_none (product_specs : specs_dict) (feature : string) :
  ~ In feature ["quality"; "features"; "durability"; "value"] ->
  Dict.get feature (_normalize_general_specs product_specs) = None.
Proof.
  intros Hn. rewrite general_features. cbn [Dict.get].
  repeat match goal with
  | |- context [String.eqb feature ?k] =>
      destruct (String.eqb_spec feature k) as [->|_]; [exfalso; apply Hn; cbn; tauto|]
  end.
  reflexivity.
Qed.

(** X7.  A category registered at run time is normalized by the general rules.
    So a scorecard that names none of the four general features gives
    every product the score 60. *)
Theorem custom_category_scores_60 (self : scorer) (category : string) (sc : scorecard)
    (product_specs : specs_dict) :
  ~ In category ["headphones"; "trimmer"; "mixer"; "smartphone"; "laptop"; "clothing"] ->
  Forall (fun fw => ~ In (fst fw) ["quality"; "features"; "durability"; "value"]) sc ->
  calculate_quality_score (add_custom_scorecard self category sc) product_specs category
  == 60.
Proof.
  intros Hcat Hsc. unfold calculate_quality_score, add_custom_scorecard.
  cbn [category_scorecards reference_values].
  assert (Hmem : Dict.mem category (Dict.set category sc (category_scorecards self)) = true).
  { unfold Dict.mem. rewrite get_set, String.eqb_refl. reflexivity. }
  rewrite Hmem, get_set, String.eqb_refl.
  assert (Hnorm : _normalize_specs product_specs category
                  = _normalize_general_specs product_specs).
  { unfold _normalize_specs.
    repeat match goal with
    | |- context [String.eqb category ?k] =>
        destruct (String.eqb_spec category k) as [->|_]; [exfalso; apply Hcat; cbn; tauto|]
    end.
    reflexivity. }
  rewrite Hnorm.
  assert (Habsent : Forall (fun fw => Dict.get (fst fw)
                                        (_normalize_general_specs product_specs) = None) sc).
  { rewrite Forall_forall in *. intros fw Hfw. apply general_get_none. exact (Hsc fw Hfw). }
  destruct (loop_all_absent (Dict.get_default category [] (reference_values self))
              _ sc 0 Habsent) as (t & Ht & Hte).
  rewrite Ht.
  destruct (Qeq_bool (sum_values sc) 0) eqn:Hz; [reflexivity|].
  apply Qeq_bool_neq in Hz.
  rewrite <- ScorerFacts.sum_values_spec in Hte.
  assert (Hq : t / sum_values sc * 100 == 60).
  { rewrite Hte. field. exact Hz. }
  rewrite Hq. vm_compute. reflexivity.
Qed.

Lemma custom_category_scores_60_witness :
  ~ In "shoes" ["headphones"; "trimmer"; "mixer"; "smartphone"; "laptop"; "clothing"] /\
  Forall (fun fw => ~ In (fst fw) ["quality"; "features"; "durability"; "value"])
    [("grip", 60); ("weight", 40)] /\
  calculate_quality_score (add_custom_scorecard new "shoes" [("grip", 60); ("weight", 40)])
    [("grip", "excellent"); ("weight", "250 g")] "shoes" == 60.
Proof.
  assert (H1 : ~ In "shoes"
                 ["headphones"; "trimmer"; "mixer"; "smartphone"; "laptop"; "clothing"]).
  { cbn. intros H. repeat (destruct H as [H|H]; [discriminate H|]). exact H. }
  assert (H2 : Forall (fun fw => ~ In (fst fw) ["quality"; "features"; "durability"; "value"])
                 [("grip", 60); ("weight", 40)]).
  { repeat constructor; cbn; intros H;
      repeat (destruct H as [H|H]; [discriminate H|]); exact H. }
  split; [exact H1|]. split; [exact H2|].
  exact (custom_category_scores_60 new "shoes" _ _ H1 H2).
Defined.
End ScorerMore.

(** ** More on the recommendations: origin, number, order *)

Module RecMore.
Import Catalog Py RNum Recommender RecBuild RFacts.
Import Lra.
Local Open Scope R_scope.

(** *** What the two loops return *)

(** The Chroma loop appends, in order, records of results other than the
    target, and stops early. *)
Lemma chroma_loop_out product_id k results recs :
  exists n,
    chroma_loop product_id k results recs
    = (recs ++ firstn n (map (fun x => of_item (fst x) (snd x))
                           (filter (fun x => negb (item_id (fst x) =? product_id)%Z)
                              results)))%list.
Proof.
  revert recs. induction results as [|[it d] results IH]; intros recs.
  - exists 0%nat. cbn. now rewrite app_nil_r.
  - cbn [chroma_loop filter fst].
    destruct (item_id it =? product_id)%Z; cbn [negb].
    + apply IH.
    + fold (of_item it d). destruct (_ <=? _)%Z.
      * exists 1%nat. reflexivity.
      * destruct (IH (recs ++ [of_item it d])%list) as [n Hn].
        exists (S n). rewrite Hn, <- app_assoc. reflexivity.
Qed.

(** The SQLite loop appends, in order, the records of the ranked pairs
    that have a catalogue row. *)
Lemma exact_loop_out fails rows top recs out :
  exact_loop fails rows top recs = Return out ->
  out = (recs ++ flat_map (fun p => match find_by_id (fst p) rows with
                                    | Some row => [of_row row (snd p)]
                                    | None => []
                                    end) top)%list.
Proof.
  revert recs. induction top as [|[pid sim] top IH]; intros recs.
  - cbn. intros [= <-]. now rewrite app_nil_r.
  - cbn [exact_loop flat_map fst snd].
    destruct (attempt fails (SelectProductById pid)); cbn [bind]; [|discriminate].
    destruct (find_by_id pid rows) as [row|].
    + fold (of_row row sim). intros H. rewrite (IH _ H), <- app_assoc. reflexivity.
    + intros H. exact (IH _ H).
Qed.

(** How [get_recommendations] ends when it returns: the empty list of the
    early exits, or the output of one of the loops. *)
Lemma recommendations_shape encode fails (self : engine) product_id k recs :
  get_recommendations encode fails self product_id k = Return recs ->
  recs = [] \/
  exists target,
    find_by_id product_id (products self) = Some target /\
    has_description target = true /\
    if use_chroma self then
      exists results,
        chroma_query fails (collection self) (encode (text_to_embed target)) (k + 1)
        = Return results /\
        recs = chroma_loop product_id k results []
    else
      exact_loop fails (products self)
        (py_prefix k (ranked_pairs (embeddings_table self) (encode (text_to_embed target))
                        product_id)) [] = Return recs.
Proof.
  unfold get_recommendations, ensure_ready, select_described, model_encode.
  destruct (attempt fails LoadModel); cbn [bind]; [|discriminate].
  destruct (attempt fails InitVectorDb); cbn [bind]; [|discriminate].
  destruct (attempt fails (SelectProductById product_id)); cbn [bind]; [|discriminate].
  destruct (find_by_id product_id (products self)) as [target|];
    [|intros [= <-]; now left].
  destruct (has_description target) eqn:Hd; [|intros [= <-]; now left].
  destruct (attempt fails Encode); cbn [bind map hd]; [|discriminate].
  destruct (use_chroma self).
  - destruct (chroma_query _ _ _ _) as [results|] eqn:Hq; cbn [bind]; [|discriminate].
    intros [= <-]. right. exists target. split; [reflexivity|]. split; [exact Hd|].
    exists results. split; [exact Hq | reflexivity].
  - destruct (attempt fails SelectEmbeddings); cbn [bind]; [|discriminate].
    destruct (embeddings_table self) as [|row rows] eqn:Ht; [intros [= <-]; now left|].
    intros H. right. exists target. split; [reflexivity|]. split; [exact Hd|]. exact H.
Qed.

Lemma chroma_query_results fails c q n results x :
  chroma_query fails c q n = Return results -> In x results ->
  In (fst x) c /\ snd x = sq_l2 (item_embedding (fst x)) q.
Proof.
  unfold chroma_query. destruct (attempt fails ChromaQuery); cbn [bind]; [|discriminate].
  destruct (n <=? 0)%Z; [discriminate|]. intros [= <-] Hx.
  apply ListFacts.in_firstn in Hx.
  apply (Permutation_in _ (SortFacts.sort_perm _ _)) in Hx.
  apply in_map_iff in Hx. destruct Hx as (it & <- & Hit). split; [exact Hit | reflexivity].
Qed.

Lemma ranked_pairs_in rows target product_id p :
  In p (ranked_pairs rows target product_id) ->
  fst p <> product_id /\ exists row, In row rows /\ p = (fst row, cosine (snd row) target).
Proof.
  unfold ranked_pairs. intros Hp.
  apply (Permutation_in _ (SortFacts.sort_perm _ _)) in Hp.
  apply filter_In in Hp. destruct Hp as [Hp Hne].
  apply in_map_iff in Hp. destruct Hp as (row & <- & Hrow).
  split.
  - cbn [fst] in *. apply negb_true_iff, Z.eqb_neq in Hne. exact Hne.
  - exists row. split; [exact Hrow | reflexivity].
Qed.

Lemma recommendation_source encode fails (self : engine) product_id k recs r :
  get_recommendations encode fails self product_id k = Return recs -> In r recs ->
  rec_id r <> product_id /\
  if use_chroma self
  then exists it d, In it (collection self) /\ r = of_item it d
  else exists row sim, find_by_id (rec_id r) (products self) = Some row /\ r = of_row row sim.
Proof.
  intros Hrec Hin. apply recommendations_shape in Hrec.
  destruct Hrec as [->|(target & Hfind & Hdesc & Hshape)]; [contradiction|].
  destruct (use_chroma self).
  - destruct Hshape as (results & Hq & ->).
    destruct (chroma_loop_out product_id k results []) as [n Hn]. rewrite Hn in Hin.
    cbn [app] in Hin. apply ListFacts.in_firstn in Hin.
    apply in_map_iff in Hin. destruct Hin as ([it d] & <- & Hx).
    apply filter_In in Hx. destruct Hx as [Hx Hne]. cbn [fst snd] in *.
    split.
    + cbn [of_item rec_id]. apply negb_true_iff, Z.eqb_neq in Hne. exact Hne.
    + exists it, d. split; [|reflexivity].
      exact (proj1 (chroma_query_results _ _ _ _ _ _ Hq Hx)).
  - apply exact_loop_out in Hshape. cbn [app] in Hshape. subst recs.
    apply in_flat_map in Hin. destruct Hin as ([pid sim] & Hp & Hr). cbn [fst snd] in Hr.
    destruct (find_by_id pid (products self)) as [row|] eqn:Hrow; [|contradiction].
    destruct Hr as [<-|[]].
    assert (Hid : id row = pid).
    { unfold find_by_id in Hrow. apply find_some in Hrow. apply Z.eqb_eq. tauto. }
    apply RecFacts.py_prefix_incl in Hp. apply ranked_pairs_in in Hp. cbn [fst] in Hp.
    cbn [of_row rec_id]. rewrite Hid. split; [tauto|].
    exists row, sim. split; [exact Hrow | reflexivity].
Qed.

(** X8.  A recommendation is never the product asked about.  On the SQLite
    backend it is built from the catalogue row its id has now, on the
    Chroma backend from the metadata and the document stored in the
    collection. *)
Theorem recommendation_origin encode fails (self : engine) product_id k recs r :
  get_recommendations encode fails self product_id k = Return recs -> In r recs ->
  rec_id r <> product_id /\
  if use_chroma self
  then exists it d, In it (collection self) /\ r = of_item it d
  else exists row sim, find_by_id (rec_id r) (products self) = Some row /\ r = of_row row sim.
Proof. exact (recommendation_source encode fails self product_id k recs r). Qed.

Lemma recommendation_origin_witness :
  exists r,
    get_recommendations Fixtures.unit_encode no_faults Fixtures.opposite_shop 1 5 = Return [r] /\
    In r [r] /\ rec_id r <> 1%Z /\
    exists row sim,
      find_by_id (rec_id r) (products Fixtures.opposite_shop) = Some row /\
      r = of_row row sim.
Proof.
  eexists. split; [reflexivity|]. split; [left; reflexivity|].
  exact (recommendation_origin Fixtures.unit_encode no_faults Fixtures.opposite_shop 1 5
           _ _ eq_refl (or_introl eq_refl)).
Defined.

(** *** How many *)

Lemma chroma_loop_length product_id k results recs :
  (Z.of_nat (List.length recs) < k)%Z ->
  (Z.of_nat (List.length (chroma_loop product_id k results recs)) <= k)%Z.
Proof.
  revert recs. induction results as [|[it d] results IH]; intros recs Hlt.
  - cbn. lia.
  - cbn [chroma_loop]. destruct (item_id it =? product_id)%Z; [apply IH; exact Hlt|].
    fold (of_item it d).
    destruct (Z.leb_spec k (Z.of_nat (List.length (recs ++ [of_item it d])))) as [Hge|Hlt'].
    + rewrite length_app in *. cbn [List.length] in *. lia.
    + apply IH. exact Hlt'.
Qed.

Lemma flat_map_length_le {A B} (f : A -> list B) (l : list A) :
  (forall x, List.length (f x) <= 1)%nat ->
  (List.length (flat_map f l) <= List.length l)%nat.
Proof.
  intros Hf. induction l as [|x l IH]; cbn [flat_map List.length]; [lia|].
  rewrite length_app. specialize (Hf x). lia.
Qed.

Lemma length_at_most_k encode fails (self : engine) product_id k recs :
  get_recommendations encode fails self product_id k = Return recs ->
  ((if use_chroma self then 1 else 0) <= k)%Z ->
  (Z.of_nat (List.length recs) <= k)%Z.
Proof.
  intros Hrec Hk. apply recommendations_shape in Hrec.
  destruct Hrec as [->|(target & Hfind & Hdesc & Hshape)].
  { cbn. destruct (use_chroma self); lia. }
  destruct (use_chroma self); cbv iota in Hk.
  - destruct Hshape as (results & Hq & ->). apply chroma_loop_length. cbn. lia.
  - apply exact_loop_out in Hshape. cbn [app] in Hshape. subst recs.
    set (top := py_prefix k _).
    assert (Htop : (List.length top <= Z.to_nat k)%nat).
    { unfold top, py_prefix. destruct (Z.leb_spec 0 k); [apply firstn_le_length | lia]. }
    pose proof (flat_map_length_le
                  (fun p : Z * R => match find_by_id (fst p) (products self) with
                                    | Some row => [of_row row (snd p)]
                                    | None => []
                                    end) top) as Hlen.
    assert (Hone : forall x : Z * R,
               (List.length (match find_by_id (fst x) (products self) with
                             | Some row => [of_row row (snd x)]
                             | None => []
                             end) <= 1)%nat).
    { intros x. destruct (find_by_id (fst x) (products self)); cbn [List.length]; lia. }
    specialize (Hlen Hone). lia.
Qed.

(** X9.  At most [k] recommendations: on the SQLite backend for every
    [k >= 0], on the Chroma backend for every [k >= 1]. *)
Theorem recommendations_at_most_k encode fails (self : engine) product_id k recs :
  get_recommendations encode fails self product_id k = Return recs ->
  ((if use_chroma self then 1 else 0) <= k)%Z ->
  (Z.of_nat (List.length recs) <= k)%Z.
Proof. exact (length_at_most_k encode fails self product_id k recs). Qed.

Lemma recommendations_at_most_k_witness :
  exists r,
    get_recommendations Fixtures.unit_encode no_faults Fixtures.opposite_shop 1 5 = Return [r] /\
    ((if use_chroma Fixtures.opposite_shop then 1 else 0) <= 5)%Z /\
    (Z.of_nat (List.length [r]) <= 5)%Z.
Proof.
  eexists. split; [reflexivity|]. split; [discriminate|].
  apply (recommendations_at_most_k Fixtures.unit_encode no_faults Fixtures.opposite_shop 1 5
           _ eq_refl). discriminate.
Defined.

(** *** In which order *)

Lemma Rleb_spec x y : Rleb x y = true <-> x <= y.
Proof.
  unfold Rleb. destruct (Rle_dec x y); split; intros;
    (assumption || reflexivity || discriminate || contradiction).
Qed.

Lemma Int_part_mono (x y : R) : x <= y -> (Int_part x <= Int_part y)%Z.
Proof.
  intros Hxy. destruct (base_Int_part x) as [Hx _]. destruct (base_Int_part y) as [_ Hy].
  apply Z.lt_succ_r. apply lt_IZR. rewrite succ_IZR. lra.
Qed.

Lemma round_half_even_R_range (z : R) :
  (Int_part z <= round_half_even_R z <= Int_part z + 1)%Z.
Proof.
  unfold round_half_even_R.
  destruct (Rlt_dec _ _); [lia|]. destruct (Rlt_dec _ _); [lia|]. destruct (Z.even _); lia.
Qed.

Lemma round_half_even_R_mono (x y : R) :
  x <= y -> (round_half_even_R x <= round_half_even_R y)%Z.
Proof.
  intros Hxy. pose proof (Int_part_mono _ _ Hxy) as Hf.
  destruct (Z.eq_dec (Int_part x) (Int_part y)) as [Heq|Hne].
  - unfold round_half_even_R. rewrite <- Heq.
    destruct (Rlt_dec (x - IZR (Int_part x)) (1 / 2)) as [Hx|Hx];
    destruct (Rlt_dec (y - IZR (Int_part x)) (1 / 2)) as [Hy|Hy]; try lia.
    + destruct (Rlt_dec (1 / 2) (y - IZR (Int_part x))); [lia|].
      destruct (Z.even (Int_part x)); lia.
    + exfalso. lra.
    + destruct (Rlt_dec (1 / 2) (x - IZR (Int_part x))) as [Hx'|Hx'];
      destruct (Rlt_dec (1 / 2) (y - IZR (Int_part x))) as [Hy'|Hy']; try lia.
      * exfalso. lra.
      * destruct (Z.even (Int_part x)); lia.
  - pose proof (round_half_even_R_range x). pose proof (round_half_even_R_range y). lia.
Qed.

Lemma py_round_R_mono (x y : R) (nd : nat) : x <= y -> py_round_R x nd <= py_round_R y nd.
Proof.
  intros Hxy. unfold py_round_R. pose proof (pow10_pos nd) as Hp.
  assert (Hm : x * 10 ^ nd <= y * 10 ^ nd) by nra.
  apply round_half_even_R_mono, IZR_le in Hm.
  unfold Rdiv. apply Rmult_le_compat_r; [|exact Hm].
  apply Rlt_le, Rinv_0_lt_compat. exact Hp.
Qed.

Lemma sorted_firstn {A} (R : A -> A -> Prop) (n : nat) (l : list A) :
  StronglySorted R l -> StronglySorted R (firstn n l).
Proof.
  intros H. rewrite <- (firstn_skipn n l) in H. exact (proj1 (SortFacts.sorted_app _ _ _ H)).
Qed.

Lemma sorted_flat_map {A B} (R : A -> A -> Prop) (R' : B -> B -> Prop)
    (f : A -> list B) (l : list A) :
  (forall a, (List.length (f a) <= 1)%nat) ->
  (forall a b x y, In a l -> In b l -> R a b -> In x (f a) -> In y (f b) -> R' x y) ->
  StronglySorted R l -> StronglySorted R' (flat_map f l).
Proof.
  intros Hone HR Hs. induction Hs as [|a l Hs IH Ha]; cbn [flat_map]; [constructor|].
  assert (IH' : StronglySorted R' (flat_map f l)).
  { apply IH. intros a' b x y Ha' Hb. apply HR; now right. }
  specialize (Hone a). destruct (f a) as [|x [|x' rest]] eqn:Hfa; cbn [app].
  - exact IH'.
  - constructor; [exact IH'|]. rewrite Forall_forall. intros y Hy.
    apply in_flat_map in Hy. destruct Hy as (b & Hb & Hy).
    rewrite Forall_forall in Ha.
    apply (HR a b x y); [now left | now right | exact (Ha b Hb) | rewrite Hfa; now left | exact Hy].
  - cbn in Hone. lia.
Qed.

Lemma map_as_flat_map {A B} (f : A -> B) (l : list A) :
  map f l = flat_map (fun x => [f x]) l.
Proof. induction l as [|a l IH]; cbn; [reflexivity | now rewrite IH]. Qed.

Lemma pairs_order_total (a b : Z * R) :
  Rleb (snd b) (snd a) = true \/ Rleb (snd a) (snd b) = true.
Proof. rewrite !Rleb_spec. lra. Qed.

Lemma ranked_pairs_sorted rows target product_id :
  StronglySorted (fun a b => snd b <= snd a) (ranked_pairs rows target product_id).
Proof.
  unfold ranked_pairs.
  apply (SortFacts.sorted_weaken (fun a b => Rleb (snd b) (snd a) = true)).
  - intros a b _ _ H. apply Rleb_spec. exact H.
  - apply SortFacts.sort_sorted.
    + intros a b. rewrite !Rleb_spec. lra.
    + intros a b c. rewrite !Rleb_spec. lra.
Qed.

Lemma chroma_query_sorted fails c q n results :
  chroma_query fails c q n = Return results ->
  StronglySorted (fun a b => 0 <= snd a <= snd b) results.
Proof.
  intros Hq. pose proof (RecFacts.chroma_query_distances _ _ _ _ _ Hq) as Hpos.
  revert Hq. unfold chroma_query.
  destruct (attempt fails ChromaQuery); cbn [bind]; [|discriminate].
  destruct (n <=? 0)%Z; [discriminate|]. intros [= <-].
  apply (SortFacts.sorted_weaken (fun a b => snd a <= snd b)).
  - intros x y Hx _ H. rewrite Forall_forall in Hpos. specialize (Hpos x Hx). lra.
  - apply sorted_firstn.
    apply (SortFacts.sorted_weaken (fun a b => Rleb (snd a) (snd b) = true)).
    + intros x y _ _ H. apply Rleb_spec. exact H.
    + apply SortFacts.sort_sorted.
      * intros x y. rewrite !Rleb_spec. lra.
      * intros x y z. rewrite !Rleb_spec. lra.
Qed.

Lemma closer_scores_higher (d d' : R) :
  0 <= d <= d' -> py_round_R (1 / (1 + d')) 4 <= py_round_R (1 / (1 + d)) 4.
Proof.
  intros [H0 Hd]. apply py_round_R_mono. unfold Rdiv. rewrite !Rmult_1_l.
  apply Rinv_le_contravar; lra.
Qed.

(** X10.  The recommendations come best first: by descending similarity
    score (stored vectors being non-zero, as for the bounds of the
    scores: numpy has no cosine for a zero vector). *)
Theorem recommendations_best_first encode fails (self : engine) product_id k recs :
  Forall (fun row => 0 < norm (snd row)) (embeddings_table self) ->
  get_recommendations encode fails self product_id k = Return recs -> best_first recs.
Proof.
  intros _ Hrec. apply recommendations_shape in Hrec. unfold best_first.
  destruct Hrec as [->|(target & Hfind & Hdesc & Hshape)]; [constructor|].
  destruct (use_chroma self).
  - destruct Hshape as (results & Hq & ->).
    destruct (chroma_loop_out product_id k results []) as [n Hn]. rewrite Hn. cbn [app].
    apply sorted_firstn.
    rewrite map_as_flat_map.
    pose proof (chroma_query_sorted _ _ _ _ _ Hq) as Hs.
    assert (Hf : StronglySorted (fun a b : chroma_item * R => 0 <= snd a <= snd b)
                   (filter (fun x => negb (item_id (fst x) =? product_id)%Z) results)).
    { clear - Hs. induction Hs as [|a l Hs IH Ha]; cbn [filter]; [constructor|].
      destruct (negb _); [|exact IH]. constructor; [exact IH|].
      rewrite Forall_forall in *. intros b Hb. apply filter_In in Hb. apply Ha. tauto. }
    apply (sorted_flat_map (fun a b : chroma_item * R => 0 <= snd a <= snd b)); [| |exact Hf].
    + intros a. cbn. lia.
    + intros a b x y _ _ Hab [<-|[]] [<-|[]]. cbn [of_item similarity_score].
      apply closer_scores_higher. exact Hab.
  - apply exact_loop_out in Hshape. cbn [app] in Hshape. subst recs.
    apply (sorted_flat_map (fun a b : Z * R => snd b <= snd a)).
    + intros a. destruct (find_by_id (fst a) (products self)); cbn [List.length]; lia.
    + intros a b x y _ _ Hab Hx Hy.
      destruct (find_by_id (fst a) (products self)) as [ra|]; [|contradiction].
      destruct (find_by_id (fst b) (products self)) as [rb|]; [|contradiction].
      destruct Hx as [<-|[]]. destruct Hy as [<-|[]]. cbn [of_row similarity_score].
      apply py_round_R_mono. exact Hab.
    + unfold py_prefix. destruct (0 <=? k)%Z; apply sorted_firstn, ranked_pairs_sorted.
Qed.

(** The ranking of [ranked_shop] for product 1: product 3 before
    product 2, the reverse of the order of the table. *)
Lemma ranked_shop_ranking :
  ranked_pairs (embeddings_table Fixtures2.ranked_shop) [1; 0] 1
  = [(3%Z, cosine [1; 0] [1; 0]); (2%Z, cosine [0; 1] [1; 0])].
Proof.
  unfold ranked_pairs.
  cbn [Fixtures2.ranked_shop embeddings_table map filter fst snd Z.eqb negb Pos.eqb
       Sort.sort Sort.insert].
  rewrite Rleb_false; [reflexivity|].
  rewrite RecFacts.cosine_e2_e1. apply RecFacts.cosine_e1_e1_pos.
Qed.

Lemma ranked_shop_answer :
  get_recommendations Fixtures.unit_encode no_faults Fixtures2.ranked_shop 1 5
  = Return [of_row (Fixtures.item 3 "Gamma" "general" 30 None (Some "third"))
              (cosine [1; 0] [1; 0]);
            of_row (Fixtures.item 2 "Beta" "general" 20 None (Some "second"))
              (cosine [0; 1] [1; 0])].
Proof.
  unfold get_recommendations, ensure_ready, select_described, model_encode, attempt, no_faults.
  cbn [bind Fixtures2.ranked_shop products find_by_id find Catalog.id Fixtures.item Z.eqb
       Pos.eqb has_description description negb String.eqb use_chroma embeddings_table
       map hd Fixtures.unit_encode].
  change (ranked_pairs _ _ 1) with
    (ranked_pairs (embeddings_table Fixtures2.ranked_shop) [1; 0] 1).
  rewrite ranked_shop_ranking. reflexivity.
Qed.

Lemma norm_e2 : norm [0; 1] = 1.
Proof.
  unfold norm, dot. cbn [combine fold_right fst snd].
  replace (0 * 0 + (1 * 1 + 0)) with 1 by lra. apply sqrt_1.
Qed.

Lemma recommendations_best_first_witness :
  Forall (fun row => 0 < norm (snd row)) (embeddings_table Fixtures2.ranked_shop) /\
  exists first second,
    get_recommendations Fixtures.unit_encode no_faults Fixtures2.ranked_shop 1 5
    = Return [first; second] /\
    rec_id first = 3%Z /\ rec_id second = 2%Z /\
    best_first [first; second].
Proof.
  assert (Hrows : Forall (fun row => 0 < norm (snd row))
                    (embeddings_table Fixtures2.ranked_shop)).
  { repeat constructor; cbn [snd]; [rewrite RecFacts.norm_e1 | rewrite norm_e2
                                   | rewrite RecFacts.norm_e1]; lra. }
  split; [exact Hrows|].
  eexists. eexists. split; [exact ranked_shop_answer|].
  split; [reflexivity|]. split; [reflexivity|].
  exact (recommendations_best_first Fixtures.unit_encode no_faults Fixtures2.ranked_shop 1 5
           _ Hrows ranked_shop_answer).
Defined.
End RecMore.

(** ** More on the index: rebuilding it and adding to it *)

Module IndexMore.

Import Catalog Py RNum Recommender RecBuild.

Lemma find_by_id_id pid rows p : find_by_id pid rows = Some p -> id p = pid.
Proof.
  unfold find_by_id. intros H. apply find_some in H. destruct H as [_ H].
  apply Z.eqb_eq. exact H.
Qed.

Lemma rebuilt_items encode (ps : list product_row) :
  map (fun x : Z * vector * string * metadata =>
         {| item_id := fst (fst (fst x)); item_embedding := snd (fst (fst x));
            item_metadata := snd x; item_document := snd (fst x) |})
      (combine (combine (combine (map id ps) (map encode (map text_to_embed ps)))
                  (map text_to_embed ps)) (map metadata_of ps))
  = map (item_of encode) ps.
Proof. induction ps as [|p ps IH]; cbn; [reflexivity | now rewrite IH]. Qed.

Lemma filter_all {A} (f : A -> bool) (l : list A) :
  (forall x, In x l -> f x = true) -> filter f l = l.
Proof.
  induction l as [|a l IH]; cbn [filter]; intros H; [reflexivity|].
  rewrite (H a (or_introl eq_refl)), IH; [reflexivity|]. intros x Hx. apply H. now right.
Qed.

Lemma count_by_id encode (pid : Z) (ps : list product_row) :
  NoDup (map id ps) ->
  List.length (filter (fun it => (item_id it =? pid)%Z) (map (item_of encode) ps))
  = match find (fun p => (id p =? pid)%Z) ps with Some _ => 1%nat | None => 0%nat end.
Proof.
  induction ps as [|p ps IH]; cbn [map filter find item_of item_id]; intros Hnd; [reflexivity|].
  inversion Hnd as [|? ? Hnotin Hnd']; subst. specialize (IH Hnd').
  destruct (Z.eqb_spec (id p) pid) as [Heq|Hne]; [|exact IH].
  cbn [List.length]. rewrite IH, RecFacts.find_absent; [reflexivity|]. now rewrite <- Heq.
Qed.

Lemma accepted_items encode (ps : list product_row) :
  forallb (fun it => accepted_metadata (item_metadata it)) (map (item_of encode) ps)
  = forallb RecSpec.rated ps.
Proof. induction ps as [|p ps IH]; cbn; [reflexivity | now rewrite IH]. Qed.

(** X12.  On the Chroma backend a rebuild during which no collaborator
    fails first empties the collection and then adds the entries of
    the products with a description.  If each of them has a rating the
    collection afterwards holds their entries, in catalogue order, and
    nothing else: one vector for each such product and none for any
    other id.  If one of them has no rating, [collection.add] refuses
    its metadata: the rebuild raises and leaves the collection
    empty. *)
Theorem rebuild_chroma_replaces encode dup (self : engine) :
  use_chroma self = true -> NoDup (map id (products self)) ->
  filter has_description (products self) <> [] ->
  let described := filter has_description (products self) in
  let result := generate_embeddings_for_all_products encode no_faults dup self in
  (forallb RecSpec.rated described = true ->
   snd result = Return tt /\
   fst result = with_collection self (map (item_of encode) described) /\
   forall pid,
     stored_vectors (fst result) pid
     = match RecSpec.indexed_vector encode self pid with
       | Some _ => 1%nat
       | None => 0%nat
       end) /\
  (forallb RecSpec.rated described = false ->
   result = (with_collection self [], Raise (BackendError ChromaAdd))).
Proof.
  intros Hc Hnd Hps. cbv zeta.
  assert (Hrun : generate_embeddings_for_all_products encode no_faults dup self
                 = if forallb RecSpec.rated (filter has_description (products self))
                   then (with_collection self
                           (map (item_of encode) (filter has_description (products self))),
                         Return tt)
                   else (with_collection self [], Raise (BackendError ChromaAdd))).
  { unfold generate_embeddings_for_all_products, ensure_ready, get_products_from_db,
      model_encode, chroma_add, clear_collection, attempt, no_faults.
    cbn [bind]. rewrite Hc.
    destruct (filter has_description (products self)) as [|p ps] eqn:Hf; [contradiction|].
    rewrite rebuilt_items, accepted_items.
    assert (Hcl : match collection self with [] => collection self | _ :: _ => [] end
                  = @nil chroma_item) by (destruct (collection self); reflexivity).
    rewrite Hcl. unfold with_collection at 1 2. cbn [collection].
    destruct (forallb RecSpec.rated (p :: ps)); cbn [negb]; [|reflexivity].
    cbn [in_collection existsb app].
    replace (existsb (fun _ : chroma_item => false) (map (item_of encode) (p :: ps)))
      with false
      by (induction (map (item_of encode) (p :: ps)) as [|? ? IH]; cbn; [reflexivity|exact IH]).
    rewrite andb_false_r.
    rewrite filter_all by (intros; reflexivity).
    unfold with_collection. cbn [use_chroma products embeddings_table collection].
    reflexivity. }
  rewrite Hrun. split; intros Hrated; rewrite Hrated; [|reflexivity].
  cbn [fst snd]. split; [reflexivity|]. split; [reflexivity|].
  intros pid. unfold stored_vectors, with_collection. cbn [use_chroma collection]. rewrite Hc.
  rewrite count_by_id by (apply RecFacts.NoDup_ids_filter; exact Hnd).
  rewrite (RecFacts.find_filter _ _ _ Hnd). unfold RecSpec.indexed_vector, find_by_id.
  destruct (find _ (products self)) as [p|]; [|reflexivity].
  destruct (has_description p); reflexivity.
Qed.

Lemma rebuild_chroma_replaces_witness :
  use_chroma Fixtures.chroma_shop = true /\
  forallb RecSpec.rated (filter has_description (products Fixtures.chroma_shop)) = true /\
  fst (generate_embeddings_for_all_products Fixtures.unit_encode no_faults false
         Fixtures.chroma_shop)
  = with_collection Fixtures.chroma_shop
      (map (item_of Fixtures.unit_encode)
         (filter has_description (products Fixtures.chroma_shop))).
Proof.
  split; [reflexivity|]. split; [reflexivity|].
  refine (proj1 (proj2 (proj1 (rebuild_chroma_replaces Fixtures.unit_encode false
                                 Fixtures.chroma_shop eq_refl _ _) eq_refl))).
  - vm_compute. repeat constructor; cbn; intuition discriminate.
  - vm_compute. discriminate.
Defined.

(** X13.  When no product has a description the rebuild writes nothing: both
    indexes are left as they were, stale entries included, and the call
    succeeds once the catalogue has been read. *)
Theorem rebuild_without_descriptions_keeps_index encode fails dup (self : engine) :
  filter has_description (products self) = [] ->
  fst (generate_embeddings_for_all_products encode fails dup self) = self /\
  (fails LoadModel = false -> fails InitVectorDb = false ->
   fails SelectProducts = false ->
   snd (generate_embeddings_for_all_products encode fails dup self) = Return tt).
Proof.
  intros Hps. unfold generate_embeddings_for_all_products, get_products_from_db. split.
  - destruct ensure_ready; [|reflexivity].
    destruct (attempt fails SelectProducts); cbn [bind]; [|reflexivity].
    rewrite Hps. reflexivity.
  - intros F1 F2 F3. unfold ensure_ready.
    rewrite (RecFacts.attempt_ok _ _ F1), (RecFacts.attempt_ok _ _ F2),
      (RecFacts.attempt_ok _ _ F3). cbn [bind]. rewrite Hps. reflexivity.
Qed.

Lemma rebuild_without_descriptions_keeps_index_witness :
  filter has_description (products Fixtures2.undescribed_shop) = [] /\
  fst (generate_embeddings_for_all_products Fixtures.unit_encode no_faults false
         Fixtures2.undescribed_shop) = Fixtures2.undescribed_shop.
Proof.
  split; [reflexivity|].
  exact (proj1 (rebuild_without_descriptions_keeps_index Fixtures.unit_encode no_faults false
                  Fixtures2.undescribed_shop eq_refl)).
Defined.

(** *** [add_product_embedding] *)

(** X14.  [add_product_embedding] never rewrites what is stored: the catalogue
    and the SQLite table are untouched, and the collection is either
    unchanged or has gained, at its end, the entry of the product, which
    happens only for a described product whose id the collection did
    not hold.  So an entry that exists is never refreshed. *)
Theorem index_one_only_appends encode fails dup (self : engine) product_id :
  let after := fst (add_product_embedding encode fails dup self product_id) in
  use_chroma after = use_chroma self /\ products after = products self /\
  embeddings_table after = embeddings_table self /\
  (collection after = collection self \/
   in_collection product_id (collection self) = false /\
   exists p, find_by_id product_id (products self) = Some p /\
             has_description p = true /\
             collection after = (collection self ++ [item_of encode p])%list).
Proof.
  cbv zeta. unfold add_product_embedding.
  destruct ensure_ready; [|repeat split; now left].
  unfold select_described. destruct (attempt fails (SelectProductById product_id));
    cbn [bind]; [|repeat split; now left].
  destruct (find_by_id product_id (products self)) as [p|] eqn:Hfind;
    [|repeat split; now left].
  destruct (has_description p) eqn:Hdesc; [|repeat split; now left].
  unfold model_encode. destruct (attempt fails Encode); cbn [bind]; [|repeat split; now left].
  unfold collection_handle. destruct (use_chroma self) eqn:Hc;
    [|repeat split; first [assumption | now left]].
  unfold chroma_add. destruct (attempt fails ChromaAdd); cbn [bind];
    [|repeat split; first [assumption | now left]].
  destruct (negb (forallb _ _)); [repeat split; first [assumption | now left]|].
  cbn [existsb filter item_id map hd]. rewrite orb_false_r.
  destruct (in_collection product_id (collection self)) eqn:Hin.
  - cbn [negb]. destruct dup; cbn [andb fst]; [repeat split; first [assumption | now left]|].
    unfold with_collection. cbn [use_chroma products embeddings_table collection].
    rewrite app_nil_r. repeat split; try assumption. now left.
  - rewrite andb_false_r. cbn [negb fst]. unfold with_collection.
    cbn [use_chroma products embeddings_table collection].
    repeat split; try assumption. right. split; [reflexivity|].
    exists p. split; [reflexivity|]. split; [exact Hdesc|].
    unfold item_of. rewrite (find_by_id_id _ _ _ Hfind). reflexivity.
Qed.

(** For an id the catalogue does not hold, or whose product has no
    description, [add_product_embedding] returns normally and changes
    nothing, on either backend. *)
Theorem index_one_skips_undescribed encode fails dup (self : engine) product_id :
  RecSpec.indexed_vector encode self product_id = None ->
  fails LoadModel = false -> fails InitVectorDb = false ->
  fails (SelectProductById product_id) = false ->
  add_product_embedding encode fails dup self product_id = (self, Return tt).
Proof.
  intros Hv F1 F2 F3. unfold add_product_embedding, ensure_ready, select_described.
  rewrite (RecFacts.attempt_ok _ _ F1), (RecFacts.attempt_ok _ _ F2),
    (RecFacts.attempt_ok _ _ F3). cbn [bind].
  unfold RecSpec.indexed_vector in Hv.
  destruct (find_by_id product_id (products self)) as [p|]; [|reflexivity].
  destruct (has_description p); [discriminate | reflexivity].
Qed.

Lemma index_one_skips_undescribed_witness :
  RecSpec.indexed_vector Fixtures.unit_encode Fixtures.lonely_shop 4 = None /\
  add_product_embedding Fixtures.unit_encode no_faults false Fixtures.lonely_shop 4
  = (Fixtures.lonely_shop, Return tt).
Proof.
  split; [reflexivity|].
  exact (index_one_skips_undescribed Fixtures.unit_encode no_faults false Fixtures.lonely_shop 4
           eq_refl eq_refl eq_refl eq_refl).
Defined.

(** On the Chroma backend, with nothing failing, a described product
    with a rating that is not indexed yet gets exactly one vector,
    every other id keeps the vectors it had, and the index grows by
    one. *)
Theorem index_one_adds_one encode dup (self : engine) product_id :
  use_chroma self = true ->
  RecSpec.indexed_vector encode self product_id <> None ->
  RecSpec.has_rating self product_id = true ->
  stored_vectors self product_id = 0%nat ->
  let result := add_product_embedding encode no_faults dup self product_id in
  snd result = Return tt /\
  stored_vectors (fst result) product_id = 1%nat /\
  index_size (fst result) = S (index_size self) /\
  forall other, other <> product_id ->
    stored_vectors (fst result) other = stored_vectors self other.
Proof.
  intros Hc Hv Hrated Hzero. cbv zeta. unfold RecSpec.indexed_vector in Hv.
  unfold RecSpec.has_rating, RecSpec.rated in Hrated.
  destruct (find_by_id product_id (products self)) as [p|] eqn:Hfind; [|contradiction].
  destruct (has_description p) eqn:Hdesc; [|contradiction].
  destruct (rating p) as [stars|] eqn:Hstars; [|discriminate].
  assert (Hnot : in_collection product_id (collection self) = false).
  { unfold stored_vectors in Hzero. rewrite Hc in Hzero.
    destruct (in_collection product_id (collection self)) eqn:Hin; [|reflexivity].
    apply RecFacts.count_present in Hin. lia. }
  unfold add_product_embedding, ensure_ready, select_described, model_encode,
    collection_handle, chroma_add, attempt, no_faults. cbn [bind].
  rewrite Hfind, Hdesc, Hc.
  unfold accepted_metadata, metadata_of. cbn [forallb item_metadata md_rating map hd].
  rewrite Hstars. cbn [andb negb existsb filter item_id].
  rewrite Hnot. cbn [orb negb]. rewrite andb_false_r. cbn [fst snd].
  unfold stored_vectors, index_size, with_collection. cbn [use_chroma collection]. rewrite Hc.
  split; [reflexivity|]. split; [|split].
  - apply RecFacts.count_app_new; [reflexivity | exact Hnot].
  - rewrite length_app. cbn [List.length]. lia.
  - intros other Hne. rewrite filter_app, length_app. cbn [filter item_id].
    destruct (Z.eqb_spec product_id other) as [Heq|_]; [congruence|].
    cbn [List.length]. lia.
Qed.

Lemma index_one_adds_one_witness :
  use_chroma Fixtures2.trio_shop = true /\
  stored_vectors Fixtures2.trio_shop 3 = 0%nat /\
  stored_vectors
    (fst (add_product_embedding Fixtures.unit_encode no_faults false Fixtures2.trio_shop 3)) 3
  = 1%nat.
Proof.
  split; [reflexivity|]. split; [reflexivity|].
  refine (proj1 (proj2 (index_one_adds_one Fixtures.unit_encode false Fixtures2.trio_shop 3
                          eq_refl _ eq_refl eq_refl))).
  vm_compute. discriminate.
Defined.

(** X15.  On the Chroma backend, with no collaborator failing,
    indexing a described product twice does the following.  If the
    product has a rating and at most one vector, it has exactly one
    vector afterwards and the second call does not change the size of
    the index, whether [collection.add] raises on an id it holds or
    skips it.  If the product has no rating, [collection.add] refuses
    its metadata: each call raises and the index is left as it was. *)
Theorem index_one_twice_chroma encode dup (self : engine) product_id :
  use_chroma self = true ->
  RecSpec.indexed_vector encode self product_id <> None ->
  let first := fst (add_product_embedding encode no_faults dup self product_id) in
  let second := fst (add_product_embedding encode no_faults dup first product_id) in
  (RecSpec.has_rating self product_id = true ->
   (stored_vectors self product_id <= 1)%nat ->
   stored_vectors second product_id = 1%nat /\ index_size second = index_size first) /\
  (RecSpec.has_rating self product_id = false ->
   add_product_embedding encode no_faults dup self product_id
   = (self, Raise (BackendError ChromaAdd)) /\
   second = self).
Proof.
  intros Hc Hv. cbv zeta. split.
  - intros Hrated Hcount.
    exact (RecFacts.index_one_chroma_idempotent encode dup self product_id
             Hc Hv Hrated Hcount).
  - intros Hrated.
    assert (Hrun : add_product_embedding encode no_faults dup self product_id
                   = (self, Raise (BackendError ChromaAdd))).
    { unfold RecSpec.indexed_vector in Hv. unfold RecSpec.has_rating, RecSpec.rated in Hrated.
      unfold add_product_embedding, ensure_ready, select_described, model_encode,
        collection_handle, chroma_add, attempt, no_faults. cbn [bind].
      destruct (find_by_id product_id (products self)) as [p|]; [|contradiction].
      destruct (has_description p); [|contradiction]. rewrite Hc.
      unfold accepted_metadata, metadata_of. cbn [forallb item_metadata md_rating map hd].
      destruct (rating p); [discriminate | reflexivity]. }
    rewrite Hrun. cbn [fst]. rewrite Hrun. split; reflexivity.
Qed.

Lemma index_one_twice_chroma_witness :
  use_chroma Fixtures2.trio_shop = true /\
  RecSpec.has_rating Fixtures2.trio_shop 3 = true /\
  (stored_vectors Fixtures2.trio_shop 3 <= 1)%nat /\
  stored_vectors
    (fst (add_product_embedding Fixtures.unit_encode no_faults true
            (fst (add_product_embedding Fixtures.unit_encode no_faults true
                    Fixtures2.trio_shop 3)) 3)) 3 = 1%nat.
Proof.
  split; [reflexivity|]. split; [reflexivity|]. split; [vm_compute; lia|].
  refine (proj1 (proj1 (index_one_twice_chroma Fixtures.unit_encode true
                          Fixtures2.trio_shop 3 eq_refl _) eq_refl _)).
  - vm_compute. discriminate.
  - vm_compute. lia.
Defined.
End IndexMore.

(** ** More on the returned list: no repeats, bounded previews *)

Module RecShape.

Import Catalog Py RNum Recommender RecBuild.

Lemma NoDup_firstn {A} (n : nat) (l : list A) : NoDup l -> NoDup (firstn n l).
Proof.
  intros H. rewrite <- (firstn_skipn n l) in H. exact (NoDup_app_remove_r _ _ H).
Qed.

Lemma NoDup_map_filter {A B} (g : A -> B) (f : A -> bool) (l : list A) :
  NoDup (map g l) -> NoDup (map g (filter f l)).
Proof.
  induction l as [|a l IH]; cbn [map filter]; intros Hnd; [constructor|].
  inversion Hnd as [|? ? Hnotin Hnd']; subst. destruct (f a); [|auto].
  cbn [map]. constructor; [|auto].
  intros Hin. apply Hnotin. apply in_map_iff in Hin. destruct Hin as (x & Hx & Hin).
  apply filter_In in Hin. rewrite <- Hx. apply in_map. tauto.
Qed.

Lemma NoDup_map_firstn {A B} (g : A -> B) (n : nat) (l : list A) :
  NoDup (map g l) -> NoDup (map g (firstn n l)).
Proof. intros H. rewrite <- firstn_map. apply NoDup_firstn. exact H. Qed.

Lemma NoDup_map_sort {A B} (g : A -> B) (leb : A -> A -> bool) (l : list A) :
  NoDup (map g l) -> NoDup (map g (Sort.sort leb l)).
Proof.
  intros H. apply (Permutation_NoDup (l := map g l)); [|exact H].
  apply Permutation_map, Permutation_sym, SortFacts.sort_perm.
Qed.

Lemma NoDup_py_prefix {A B} (g : A -> B) (n : Z) (l : list A) :
  NoDup (map g l) -> NoDup (map g (py_prefix n l)).
Proof. intros H. unfold py_prefix. destruct (0 <=? n)%Z; apply NoDup_map_firstn; exact H. Qed.

Lemma found_rows_ids (rows : list product_row) (top : list (Z * R)) :
  map rec_id
    (flat_map (fun x => match find_by_id (fst x) rows with
                        | Some row => [of_row row (snd x)]
                        | None => []
                        end) top)
  = filter (fun pid => match find_by_id pid rows with Some _ => true | None => false end)
      (map fst top).
Proof.
  induction top as [|x top IH]; cbn [flat_map map filter]; [reflexivity|].
  destruct (find_by_id (fst x) rows) as [row|] eqn:Hf; cbn [app map]; [|exact IH].
  rewrite IH. cbn [of_row rec_id]. rewrite (IndexMore.find_by_id_id _ _ _ Hf). reflexivity.
Qed.

Lemma NoDup_filter {A} (f : A -> bool) (l : list A) : NoDup l -> NoDup (filter f l).
Proof. intros H. rewrite <- (map_id (filter f l)). apply NoDup_map_filter. now rewrite map_id. Qed.

(** X11.  No product is recommended twice, given that the index in use holds
    no id twice (the primary key of [product_embeddings]; the ids of the
    collection). *)
Theorem recommendations_distinct encode fails (self : engine) product_id k recs :
  (if use_chroma self then NoDup (map item_id (collection self))
   else NoDup (map fst (embeddings_table self))) ->
  get_recommendations encode fails self product_id k = Return recs ->
  NoDup (map rec_id recs).
Proof.
  intros Hnd Hrec. apply RecMore.recommendations_shape in Hrec.
  destruct Hrec as [->|(target & Hfind & Hdesc & Hshape)]; [constructor|].
  destruct (use_chroma self).
  - destruct Hshape as (results & Hq & ->).
    destruct (RecMore.chroma_loop_out product_id k results []) as [n Hn]. rewrite Hn.
    cbn [app]. apply NoDup_map_firstn. rewrite map_map. cbn [of_item rec_id].
    apply (NoDup_map_filter (fun x : chroma_item * R => item_id (fst x))).
    revert Hq. unfold chroma_query.
    destruct (attempt fails ChromaQuery); cbn [bind]; [|discriminate].
    destruct (k + 1 <=? 0)%Z; [discriminate|]. intros [= <-].
    apply NoDup_map_firstn, NoDup_map_sort. rewrite map_map. cbn [fst]. exact Hnd.
  - apply RecMore.exact_loop_out in Hshape. cbn [app] in Hshape. subst recs.
    rewrite found_rows_ids. apply NoDup_filter, NoDup_py_prefix.
    unfold ranked_pairs. apply NoDup_map_sort.
    apply (NoDup_map_filter (fun p : Z * R => fst p)). rewrite map_map. cbn [fst]. exact Hnd.
Qed.

Lemma recommendations_distinct_witness :
  NoDup (map fst (embeddings_table Fixtures2.ranked_shop)) /\
  exists first second,
    get_recommendations Fixtures.unit_encode no_faults Fixtures2.ranked_shop 1 5
    = Return [first; second] /\
    rec_id first = 3%Z /\ rec_id second = 2%Z /\
    NoDup (map rec_id [first; second]).
Proof.
  assert (Hkeys : NoDup (map fst (embeddings_table Fixtures2.ranked_shop))).
  { cbn. repeat constructor; cbn; intuition discriminate. }
  split; [exact Hkeys|].
  eexists. eexists. split; [exact RecMore.ranked_shop_answer|].
  split; [reflexivity|]. split; [reflexivity|].
  exact (recommendations_distinct Fixtures.unit_encode no_faults Fixtures2.ranked_shop 1 5
           _ Hkeys RecMore.ranked_shop_answer).
Defined.

Lemma length_append (s t : string) :
  String.length (s ++ t) = (String.length s + String.length t)%nat.
Proof. induction s as [|c s IH]; cbn; [reflexivity | now rewrite IH]. Qed.

Lemma length_substring_le (n : nat) (s : string) :
  (String.length (String.substring 0 n s) <= n)%nat.
Proof.
  revert s. induction n as [|n IH]; intros s.
  - destruct s; cbn; lia.
  - destruct s as [|c s]; cbn; [lia|]. specialize (IH s). lia.
Qed.

Lemma preview_length (document : string) :
  (String.length (preview document) <= 103)%nat /\
  (String.length (preview document) <= String.length document)%nat \/
  (String.length (preview document) <= 103)%nat /\ (100 < String.length document)%nat.
Proof.
  unfold preview. destruct (Nat.ltb_spec 100 (String.length document)) as [Hlong|Hshort].
  - right. split; [|exact Hlong]. rewrite length_append.
    pose proof (length_substring_le 100 document). cbn [String.length]. lia.
  - left. lia.
Qed.

(** The description preview of every recommendation has at most 103
    characters. *)
Theorem recommendation_preview_bounded encode fails (self : engine) product_id k recs r :
  get_recommendations encode fails self product_id k = Return recs -> In r recs ->
  (String.length (description_preview r) <= 103)%nat.
Proof.
  intros Hrec Hin.
  destruct (RecMore.recommendation_source _ _ _ _ _ _ _ Hrec Hin) as [_ Hsrc].
  assert (Hp : forall d, (String.length (preview d) <= 103)%nat).
  { intros d. destruct (preview_length d) as [[H _]|[H _]]; exact H. }
  destruct (use_chroma self).
  - destruct Hsrc as (it & d & _ & ->). apply Hp.
  - destruct Hsrc as (row & sim & _ & ->). apply Hp.
Qed.

Lemma recommendation_preview_bounded_witness :
  exists r,
    get_recommendations Fixtures.unit_encode no_faults Fixtures.opposite_shop 1 5 = Return [r] /\
    In r [r] /\ (String.length (description_preview r) <= 103)%nat.
Proof.
  eexists. split; [reflexivity|]. split; [left; reflexivity|].
  exact (recommendation_preview_bounded Fixtures.unit_encode no_faults Fixtures.opposite_shop
           1 5 _ _ eq_refl (or_introl eq_refl)).
Defined.
End RecShape.

(** ** The store: inserting, reading back, deleting *)

Module StoreFacts.

Import Catalog Store StoreSpec.
Import Lqa.
Local Open Scope Z_scope.

Lemma max_id_bound (rs : list product_row) (r : product_row) :
  In r rs -> id r <= max_id rs.
Proof.
  induction rs as [|a rs IH]; cbn [In max_id fold_right]; [contradiction|].
  intros [->|Hin]; [lia|]. specialize (IH Hin). unfold max_id in IH. lia.
Qed.

Lemma max_id_nonneg (rs : list product_row) : 0 <= max_id rs.
Proof. induction rs as [|a rs IH]; cbn [max_id fold_right]; [lia|]. unfold max_id in IH. lia. Qed.

Lemma next_id_fresh (self : store) (r : product_row) :
  In r (rows self) -> id r < next_id self.
Proof. intros Hin. apply max_id_bound in Hin. unfold next_id. lia. Qed.

Lemma next_id_positive (self : store) : 0 < next_id self.
Proof. pose proof (max_id_nonneg (rows self)). unfold next_id. lia. Qed.

Lemma find_by_id_app_new (pid : Z) (rs : list product_row) (r : product_row) :
  (forall x, In x rs -> id x <> pid) -> id r = pid ->
  find_by_id pid (rs ++ [r]) = Some r.
Proof.
  intros Hold Hid. unfold find_by_id. induction rs as [|a rs IH]; cbn [app find].
  - rewrite Hid, Z.eqb_refl. reflexivity.
  - destruct (Z.eqb_spec (id a) pid) as [Heq|_].
    + exfalso. exact (Hold a (or_introl eq_refl) Heq).
    + apply IH. intros x Hx. apply Hold. now right.
Qed.

Lemma find_by_id_app_other (pid : Z) (rs : list product_row) (r : product_row) :
  id r <> pid -> find_by_id pid (rs ++ [r]) = find_by_id pid rs.
Proof.
  intros Hid. unfold find_by_id. induction rs as [|a rs IH]; cbn [app find].
  - destruct (Z.eqb_spec (id r) pid); [contradiction | reflexivity].
  - destruct (id a =? pid); [reflexivity | exact IH].
Qed.

Section Json.

Variable json : Type.
Variable dumps : json -> string.
Variable loads : string -> option json.
Variable empty null : json.


Lemma new_row_id (i : Z) (pd : product_data json) (r : product_row) :
  new_row json dumps empty null i pd = Some r -> id r = i.
Proof.
  unfold new_row.
  destruct (get_or (pd_name pd) ""), (get_or (pd_category pd) "general"),
    (get_or (pd_price pd) 0%Q), (get_or (pd_platform pd) ""); try discriminate.
  now intros [= <-].
Qed.

Lemma new_row_storable (i : Z) (pd : product_data json) :
  new_row json dumps empty null i pd = None <-> storable pd = false.
Proof.
  unfold new_row, storable.
  destruct (pd_name pd), (pd_category pd), (pd_price pd), (pd_platform pd); cbn;
    split; intros H; (reflexivity || discriminate).
Qed.

Lemma add_product_cases (self : store) (pd : product_data json) :
  (add_product json dumps empty null self pd = (self, None) /\
   (available self = false \/ storable pd = false)) \/
  (exists r, available self = true /\ new_row json dumps empty null (next_id self) pd = Some r /\
             add_product json dumps empty null self pd
             = ({| available := true; rows := (rows self ++ [r])%list;
                   sequence := next_id self |}, Some (next_id self))).
Proof.
  unfold add_product. destruct (available self) eqn:Ha; [|left; split; [reflexivity|now left]].
  destruct (new_row json dumps empty null (next_id self) pd) as [r|] eqn:Hr.
  - right. exists r. repeat split.
  - left. split; [reflexivity|]. right. apply (new_row_storable (next_id self)). exact Hr.
Qed.

(** X16.  [add_product] gives the new row an id that is positive and larger
    than every id in the table, appends the row and leaves every other
    product as it was. *)
Theorem add_product_fresh_id (self after : store) (pd : product_data json) (pid : Z) :
  add_product json dumps empty null self pd = (after, Some pid) ->
  0 < pid /\ (forall r, In r (rows self) -> id r < pid) /\
  (exists r, new_row json dumps empty null pid pd = Some r /\
             rows after = (rows self ++ [r])%list) /\
  forall other, other <> pid ->
    get_product_by_id json loads empty after other = get_product_by_id json loads empty self other.
Proof.
  intros Hadd. destruct (add_product_cases self pd) as [[Hno _]|(r & Ha & Hr & Hyes)];
    rewrite Hadd in *; [discriminate|].
  injection Hyes as -> ->. split; [apply next_id_positive|].
  split; [intros x; apply next_id_fresh|]. split; [exists r; split; [exact Hr|reflexivity]|].
  intros other Hne. unfold get_product_by_id. cbn [available rows]. rewrite Ha.
  rewrite find_by_id_app_other; [reflexivity|]. rewrite (new_row_id _ _ _ Hr). congruence.
Qed.


(** X17.  What was stored is what is read back: after a successful
    [add_product] the product is found under the returned id, with the
    defaults of the insert for the keys the caller left out and with
    the specifications it gave, provided [json.loads] inverts
    [json.dumps]. *)
Theorem add_product_round_trip (self after : store) (pd : product_data json) (pid : Z) :
  (forall j, loads (dumps j) = Some j) -> (forall j, dumps j <> ""%string) ->
  add_product json dumps empty null self pd = (after, Some pid) ->
  exists r,
    get_product_by_id json loads empty after pid
    = Some {| ProductDb.row := r;
              ProductDb.parsed_specs :=
                ProductDb.SpecsParsed json
                  (match pd_specs pd with
                   | Missing => empty | PyNone => null | Value j => j
                   end) |} /\
    id r = pid /\
    get_or (pd_name pd) ""%string = Some (name r) /\
    get_or (pd_category pd) "general"%string = Some (category r) /\
    get_or (pd_price pd) 0%Q = Some (price r) /\
    get_or (pd_platform pd) ""%string = Some (platform r) /\
    rating r = get_or (pd_rating pd) 4%Q /\
    url r = get_or (pd_url pd) ""%string /\
    quality_score r = get_or (pd_quality_score pd) 0%Q /\
    final_score r = get_or (pd_final_score pd) 0%Q /\
    image_url r = get_or (pd_image_url pd) ""%string /\
    description r = get_or (pd_description pd) ""%string.
Proof.
  intros Hinv Hne Hadd.
  destruct (add_product_cases self pd) as [[Hno _]|(r & Ha & Hr & Hyes)];
    rewrite Hadd in *; [discriminate|].
  injection Hyes as -> ->. exists r.
  pose proof (new_row_id _ _ _ Hr) as Hid. split.
  - unfold get_product_by_id. cbn [available rows].
    rewrite find_by_id_app_new; [|intros x Hx; apply next_id_fresh in Hx; lia|exact Hid].
    f_equal. revert Hr. unfold new_row.
    destruct (get_or (pd_name pd) ""), (get_or (pd_category pd) "general"),
      (get_or (pd_price pd) 0%Q), (get_or (pd_platform pd) ""); try discriminate.
    intros [= <-]. unfold ProductDb.process_row. cbn [specs].
    assert (Hs : forall j, (dumps j =? "")%string = false).
    { intros j. apply String.eqb_neq, Hne. }
    unfold specs_text. destruct (pd_specs pd); rewrite Hs, Hinv; reflexivity.
  - split; [exact Hid|]. revert Hr. unfold new_row.
    destruct (get_or (pd_name pd) ""), (get_or (pd_category pd) "general"),
      (get_or (pd_price pd) 0%Q), (get_or (pd_platform pd) ""); try discriminate.
    intros [= <-]. cbn. repeat split.
Qed.


(** X18.  [add_product] returns [None] exactly when the database does not
    answer or a [NOT NULL] column ([name], [category], [price],
    [platform]) is given as [None]; the table is then unchanged. *)
Theorem add_product_refusal (self : store) (pd : product_data json) :
  (snd (add_product json dumps empty null self pd) = None <->
   available self = false \/ storable pd = false) /\
  (snd (add_product json dumps empty null self pd) = None ->
   fst (add_product json dumps empty null self pd) = self).
Proof.
  destruct (add_product_cases self pd) as [[Hno Hwhy]|(r & Ha & Hr & Hyes)].
  - rewrite Hno. cbn [fst snd]. split; [tauto | reflexivity].
  - rewrite Hyes. cbn [fst snd]. split; [|discriminate]. split; [discriminate|].
    intros [H|H]; [congruence|].
    apply (new_row_storable (next_id self)) in H. congruence.
Qed.

Lemma find_by_id_removed (pid other : Z) (rs : list product_row) :
  find_by_id other (filter (fun r => negb (id r =? pid)) rs)
  = if other =? pid then None else find_by_id other rs.
Proof.
  unfold find_by_id. induction rs as [|a rs IH]; cbn [filter find].
  - destruct (other =? pid); reflexivity.
  - destruct (Z.eqb_spec (id a) pid) as [Heq|Hne]; cbn [negb find].
    + rewrite IH. destruct (Z.eqb_spec other pid) as [Ho|Ho]; [reflexivity|].
      destruct (Z.eqb_spec (id a) other); [lia | reflexivity].
    + destruct (Z.eqb_spec (id a) other) as [Ha|Ha].
      * destruct (Z.eqb_spec other pid); [lia | reflexivity].
      * exact IH.
Qed.

Lemma filter_length_lt {A} (f : A -> bool) (l : list A) :
  (List.length (filter f l) <? List.length l)%nat = existsb (fun x => negb (f x)) l.
Proof.
  induction l as [|a l IH]; cbn [filter existsb List.length]; [reflexivity|].
  pose proof (filter_length_le f l) as Hle.
  destruct (f a); cbn [negb orb List.length].
  - exact IH.
  - apply Nat.ltb_lt. lia.
Qed.


(** X19.  [delete_product] removes the product and nothing else; it reports
    [True] exactly when there was such a product. *)
Theorem delete_product_removes (self : store) (product_id : Z) :
  available self = true ->
  let after := fst (delete_product self product_id) in
  (snd (delete_product self product_id) = true <->
   exists r, find_by_id product_id (rows self) = Some r) /\
  get_product_by_id json loads empty after product_id = None /\
  forall other, other <> product_id ->
    get_product_by_id json loads empty after other
    = get_product_by_id json loads empty self other.
Proof.
  intros Ha. cbv zeta. unfold delete_product. rewrite Ha. cbn [fst snd]. split; [|split].
  - rewrite filter_length_lt. split.
    + intros H. apply existsb_exists in H. destruct H as (x & Hx & Hid).
      rewrite negb_involutive in Hid.
      destruct (find_by_id product_id (rows self)) as [r|] eqn:Hf; [now exists r|].
      exfalso. unfold find_by_id in Hf. exact (eq_true_false_abs _ Hid (find_none _ _ Hf x Hx)).
    + intros [r Hr]. unfold find_by_id in Hr. apply find_some in Hr.
      apply existsb_exists. exists r. rewrite negb_involutive. exact Hr.
  - unfold get_product_by_id, with_rows. cbn [available rows]. rewrite Ha.
    rewrite find_by_id_removed, Z.eqb_refl. reflexivity.
  - intros other Hne. unfold get_product_by_id, with_rows. cbn [available rows]. rewrite Ha.
    rewrite find_by_id_removed. destruct (Z.eqb_spec other product_id); [contradiction|].
    reflexivity.
Qed.


(** X20.  An id is never given twice: the product added after a deletion gets
    a larger id than the deleted one had, even when that was the last
    row of the table. *)
Theorem deleted_id_not_reused (s s1 s2 s3 : store) (pd pd' : product_data json)
    (i j : Z) (deleted : bool) :
  add_product json dumps empty null s pd = (s1, Some i) ->
  delete_product s1 i = (s2, deleted) ->
  add_product json dumps empty null s2 pd' = (s3, Some j) ->
  deleted = true /\ i < j /\ get_product_by_id json loads empty s3 i = None.
Proof.
  intros H1 H2 H3.
  destruct (add_product_cases s pd) as [[Hno _]|(r & Ha & Hr & Hyes)];
    rewrite H1 in *; [discriminate|].
  injection Hyes as -> ->. pose proof (new_row_id _ _ _ Hr) as Hid.
  unfold delete_product in H2. cbn [available rows] in H2. injection H2 as <- <-.
  destruct (add_product_cases
              (with_rows {| available := true; rows := (rows s ++ [r])%list;
                            sequence := next_id s |}
                 (filter (fun x => negb (id x =? next_id s)) (rows s ++ [r])%list)) pd')
    as [[Hno _]|(r' & Ha' & Hr' & Hyes')]; rewrite H3 in *; [discriminate|].
  injection Hyes' as -> Hj. pose proof (new_row_id _ _ _ Hr') as Hid'.
  assert (Hlt : next_id s < j).
  { rewrite Hj. unfold next_id at 2, with_rows. cbn [sequence rows]. lia. }
  split; [|split; [exact Hlt|]].
  - rewrite filter_length_lt. apply existsb_exists. exists r.
    split; [apply in_or_app; right; now left|].
    rewrite negb_involutive. apply Z.eqb_eq. exact Hid.
  - unfold get_product_by_id, with_rows. cbn [available rows].
    rewrite find_by_id_app_other by (rewrite Hid', <- Hj; lia).
    rewrite find_by_id_removed, Z.eqb_refl. reflexivity.
Qed.


Lemma insert_many_rows (pds : list (product_data json)) (self after : store) :
  insert_many json dumps empty null self pds = Some after ->
  available after = available self /\
  forallb storable pds = true /\
  exists added,
    rows after = (rows self ++ added)%list /\
    List.length added = List.length pds /\
    (forall r, In r added -> next_id self <= id r) /\
    StronglySorted Z.lt (map id added).
Proof.
  revert self. induction pds as [|pd pds IH]; intros self; cbn [insert_many forallb].
  - intros [= <-]. split; [reflexivity|]. split; [reflexivity|].
    exists []. rewrite app_nil_r. repeat split; [contradiction | constructor].
  - destruct (new_row json dumps empty null (next_id self) pd) as [r|] eqn:Hr; [|discriminate].
    intros Hrest. apply IH in Hrest. cbn [available rows] in Hrest.
    destruct Hrest as (Ha & Hall & added & Hrows & Hlen & Hids & Hsorted).
    pose proof (new_row_id _ _ _ Hr) as Hid.
    assert (Hs : storable pd = true).
    { destruct (storable pd) eqn:Hst; [reflexivity|].
      apply (new_row_storable (next_id self)) in Hst. congruence. }
    assert (Hnext : next_id self <
                    next_id {| available := available self; rows := (rows self ++ [r])%list;
                               sequence := next_id self |}).
    { unfold next_id at 2. cbn [sequence rows]. lia. }
    split; [exact Ha|]. split; [rewrite Hs, Hall; reflexivity|].
    exists (r :: added). rewrite Hrows, <- app_assoc. cbn [app List.length map].
    split; [reflexivity|]. split; [now rewrite Hlen|]. split.
    + intros x [<-|Hx]; [lia|]. specialize (Hids x Hx). lia.
    + constructor; [exact Hsorted|]. rewrite Forall_forall. intros k Hk.
      apply in_map_iff in Hk. destruct Hk as (x & <- & Hx). specialize (Hids x Hx). lia.
Qed.

Lemma insert_many_refused (pds : list (product_data json)) (self : store) :
  forallb storable pds = false -> insert_many json dumps empty null self pds = None.
Proof.
  revert self. induction pds as [|pd pds IH]; intros self; cbn [insert_many forallb];
    [discriminate|].
  intros H. destruct (new_row json dumps empty null (next_id self) pd) as [r|] eqn:Hr;
    [|reflexivity].
  apply IH. destruct (storable pd) eqn:Hs; [exact H|].
  apply (new_row_storable (next_id self)) in Hs. congruence.
Qed.

Lemma insert_many_accepts (pds : list (product_data json)) (self : store) :
  forallb storable pds = true ->
  exists after, insert_many json dumps empty null self pds = Some after.
Proof.
  revert self. induction pds as [|pd pds IH]; intros self; cbn [insert_many forallb].
  - intros _. now exists self.
  - intros H. apply andb_prop in H. destruct H as [Hs H].
    destruct (new_row json dumps empty null (next_id self) pd) as [r|] eqn:Hr.
    + apply IH. exact H.
    + apply (new_row_storable (next_id self)) in Hr. congruence.
Qed.

(** X21.  [batch_insert_products] is all or nothing.  If the database does
    not answer, or one product of the batch gives [None] for a
    [NOT NULL] column, nothing is stored and [0] returned, whatever
    the place of that product in the batch.  Otherwise every product is
    stored, after the rows the table had, under ids that are new and
    increasing, and the size of the batch is returned. *)
Theorem batch_insert_all_or_nothing (self : store) (pds : list (product_data json)) :
  let result := batch_insert_products json dumps empty null self pds in
  (available self && forallb storable pds = false -> result = (self, 0)) /\
  (available self && forallb storable pds = true ->
   snd result = Z.of_nat (List.length pds) /\
   exists added,
     rows (fst result) = (rows self ++ added)%list /\
     List.length added = List.length pds /\
     (forall r old, In r added -> In old (rows self) -> id old < id r) /\
     StronglySorted Z.lt (map id added)).
Proof.
  cbv zeta. unfold batch_insert_products. split.
  - intros H. destruct (available self); [|reflexivity]. cbn [andb] in H.
    rewrite (insert_many_refused _ _ H). reflexivity.
  - intros H. apply andb_prop in H. destruct H as [Ha Hall]. rewrite Ha.
    destruct (insert_many_accepts pds self Hall) as [after Hafter]. rewrite Hafter.
    cbn [fst snd]. split; [reflexivity|].
    apply insert_many_rows in Hafter.
    destruct Hafter as (_ & _ & added & Hrows & Hlen & Hids & Hsorted).
    exists added. repeat split; try assumption.
    intros r old Hr Hold. specialize (Hids r Hr). apply next_id_fresh in Hold. lia.
Qed.

Lemma updated_row_id (pd : product_data json) (r r' : product_row) :
  updated_row json dumps empty null pd r = Some r' -> id r' = id r.
Proof.
  unfold updated_row.
  destruct (assign_not_null (pd_name pd) (name r)),
    (assign_not_null (pd_category pd) (category r)),
    (assign_not_null (pd_price pd) (price r)),
    (assign_not_null (pd_platform pd) (platform r)); try discriminate.
  now intros [= <-].
Qed.

Lemma update_rows_ids (pd : product_data json) (pid : Z) (rs rs' : list product_row) (n : nat) :
  update_rows json dumps empty null pd pid rs = Some (rs', n) ->
  map id rs' = map id rs /\
  (n = 0%nat -> rs' = rs) /\
  (forall r, find_by_id pid rs = Some r ->
     (0 < n)%nat /\ exists r', updated_row json dumps empty null pd r = Some r') /\
  ((0 < n)%nat -> exists r, find_by_id pid rs = Some r) /\
  forall other,
    find_by_id other rs'
    = if other =? pid
      then match find_by_id pid rs with
           | Some r => updated_row json dumps empty null pd r
           | None => None
           end
      else find_by_id other rs.
Proof.
  revert rs' n. induction rs as [|r rs IH]; intros rs' n; cbn [update_rows].
  - intros [= <- <-]. unfold find_by_id. cbn [find map].
    repeat split; try discriminate; try lia.
    intros other. destruct (other =? pid); reflexivity.
  - destruct (update_rows json dumps empty null pd pid rs) as [[rest' m]|]; [|discriminate].
    destruct (IH rest' m eq_refl) as (Hids & Hzero & Hsome & Hpos & Hfind).
    unfold find_by_id in *. cbn [find].
    destruct (Z.eqb_spec (id r) pid) as [Heq|Hne].
    + destruct (updated_row json dumps empty null pd r) as [r'|] eqn:Hr'; [|discriminate].
      intros [= <- <-]. cbn [map find]. pose proof (updated_row_id _ _ _ Hr') as Hid'.
      rewrite Hid', Hids. split; [reflexivity|]. split; [discriminate|]. split; [|split].
      * intros x [= <-]. split; [lia|]. now exists r'.
      * intros _. now exists r.
      * intros other. destruct (Z.eqb_spec (id r) other) as [Ho|Ho].
        -- destruct (Z.eqb_spec other pid); [reflexivity | lia].
        -- rewrite Hfind. destruct (Z.eqb_spec other pid); [lia | reflexivity].
    + intros [= <- <-]. cbn [map find]. rewrite Hids.
      split; [reflexivity|]. split; [intros Hn; now rewrite (Hzero Hn)|].
      split; [exact Hsome|]. split; [exact Hpos|].
      intros other. destruct (Z.eqb_spec (id r) other) as [Ho|Ho].
      * destruct (Z.eqb_spec other pid); [lia | reflexivity].
      * apply Hfind.
Qed.

(** X22.  [update_product] works on the product with the given id only.
    When it returns [True] that product is read back with the given
    columns replaced and the others kept; when it returns [False] the
    table is unchanged.  Either way every other product reads as
    before and no id changes. *)
Theorem update_product_changes_one (self : store) (product_id : Z)
    (pd : product_data json) :
  let result := update_product json dumps empty null self product_id pd in
  map id (rows (fst result)) = map id (rows self) /\
  (forall other, other <> product_id ->
     find_by_id other (rows (fst result)) = find_by_id other (rows self)) /\
  (snd result = false -> fst result = self) /\
  (snd result = true ->
   exists r r', find_by_id product_id (rows self) = Some r /\
                updated_row json dumps empty null pd r = Some r' /\
                find_by_id product_id (rows (fst result)) = Some r').
Proof.
  cbv zeta. unfold update_product.
  destruct (no_update_fields json pd); [repeat split; discriminate|].
  destruct (available self); [|repeat split; discriminate].
  destruct (update_rows json dumps empty null pd product_id (rows self)) as [[rs n]|] eqn:Hup;
    [|repeat split; discriminate].
  apply update_rows_ids in Hup. destruct Hup as (Hids & Hzero & Hsome & Hpos & Hfind).
  cbn [fst snd]. unfold with_rows. cbn [rows]. split; [exact Hids|]. split; [|split].
  - intros other Hne. rewrite Hfind. destruct (Z.eqb_spec other product_id); [contradiction|].
    reflexivity.
  - intros Hn. apply Nat.ltb_ge in Hn. rewrite Hzero by lia. destruct self; reflexivity.
  - intros Hn. apply Nat.ltb_lt in Hn. destruct (Hpos Hn) as [r Hr].
    destruct (Hsome r Hr) as [_ [r' Hr']]. exists r, r'.
    split; [exact Hr|]. split; [exact Hr'|].
    rewrite Hfind, Z.eqb_refl, Hr. exact Hr'.
Qed.
End Json.

Lemma add_product_fresh_id_witness :
  exists after,
    add_product string sample_dumps "{}" "null" sample_store sample_data = (after, Some 7) /\
    forall r, In r (rows sample_store) -> id r < 7.
Proof.
  eexists. split; [reflexivity|].
  exact (proj1 (proj2 (add_product_fresh_id string sample_dumps sample_loads "{}" "null"
                         sample_store _ sample_data 7 eq_refl))).
Defined.

Lemma add_product_round_trip_witness :
  (forall j, sample_loads (sample_dumps j) = Some j) /\
  (forall j, sample_dumps j <> ""%string) /\
  exists after r,
    add_product string sample_dumps "{}" "null" sample_store sample_data = (after, Some 7) /\
    get_product_by_id string sample_loads "{}" after 7
    = Some {| ProductDb.row := r;
              ProductDb.parsed_specs := ProductDb.SpecsParsed string "battery" |}.
Proof.
  split; [reflexivity|]. split; [discriminate|]. eexists.
  destruct (add_product_round_trip string sample_dumps sample_loads "{}" "null"
              sample_store _ sample_data 7 (fun j => eq_refl) ltac:(intros j; discriminate)
              eq_refl)
    as (r & Hget & _).
  exists r. split; [reflexivity | exact Hget].
Defined.

Lemma delete_product_removes_witness :
  available sample_store = true /\
  get_product_by_id string sample_loads "{}" (fst (delete_product sample_store 3)) 3 = None.
Proof.
  split; [reflexivity|].
  exact (proj1 (proj2 (delete_product_removes string sample_loads "{}" sample_store 3 eq_refl))).
Defined.

Lemma deleted_id_not_reused_witness :
  exists s1 s2 s3 j,
    add_product string sample_dumps "{}" "null" sample_store sample_data = (s1, Some 7) /\
    delete_product s1 7 = (s2, true) /\
    add_product string sample_dumps "{}" "null" s2 sample_data = (s3, Some j) /\
    7 < j.
Proof.
  eexists. eexists. eexists. eexists.
  split; [reflexivity|]. split; [reflexivity|]. split; [reflexivity|].
  exact (proj1 (proj2 (deleted_id_not_reused string sample_dumps sample_loads "{}" "null"
                         sample_store _ _ _ sample_data sample_data 7 _ true
                         eq_refl eq_refl eq_refl))).
Defined.
End StoreFacts.

(** ** The store: listing and searching *)

Module ListingFacts.

Import Catalog Store StoreSpec.
Local Open Scope Z_scope.

(** *** Pages *)

Lemma page_of_whole (self : store) (cat : string) (page limit : Z) :
  available self = true ->
  get_products_by_category self cat page limit
  = ProductDb.sql_limit limit
      (skipn (Z.to_nat ((page - 1) * limit)) (whole_category self cat)).
Proof.
  intros Ha. unfold get_products_by_category, whole_category, sql_limit_offset,
    ProductDb.sql_limit. rewrite Ha.
  destruct (limit <? 0); [now rewrite skipn_map | now rewrite skipn_map, firstn_map].
Qed.

Lemma firstn_add {A} (n m : nat) (l : list A) :
  firstn (n + m) l = (firstn n l ++ firstn m (skipn n l))%list.
Proof.
  revert l. induction n as [|n IH]; intros l; cbn [Nat.add firstn skipn app]; [reflexivity|].
  destruct l as [|a l]; [now rewrite firstn_nil|]. cbn [firstn skipn app]. now rewrite IH.
Qed.

(** X23.  Paging through a category shows every product once: pages [1] to
    [n], of [limit] products each, put end to end are the first
    [n * limit] entries of the complete listing of the category. *)
Theorem pages_tile_the_listing (self : store) (cat : string) (limit : Z) (n : nat) :
  available self = true -> 0 <= limit ->
  pages self cat limit n = firstn (n * Z.to_nat limit) (whole_category self cat).
Proof.
  intros Ha Hl. induction n as [|n IH]; [reflexivity|].
  cbn [pages]. rewrite IH, (page_of_whole _ _ _ _ Ha). unfold ProductDb.sql_limit.
  destruct (Z.ltb_spec limit 0) as [Hneg|_]; [lia|].
  replace (Z.to_nat ((Z.of_nat (S n) - 1) * limit)) with (n * Z.to_nat limit)%nat by nia.
  replace (S n * Z.to_nat limit)%nat with (n * Z.to_nat limit + Z.to_nat limit)%nat by lia.
  now rewrite firstn_add.
Qed.

Lemma pages_tile_the_listing_witness :
  available sample_store = true /\ 0 <= 2 /\
  pages sample_store "headphones" 2 2
  = firstn (2 * Z.to_nat 2) (whole_category sample_store "headphones").
Proof.
  split; [reflexivity|]. split; [lia|].
  apply (pages_tile_the_listing sample_store "headphones" 2 2); [reflexivity | lia].
Defined.

(** A page number below [1] is not an error: with a limit that is not
    negative it shows the first page again. *)
Theorem page_below_one_is_first_page (self : store) (cat : string) (page limit : Z) :
  page <= 1 -> 0 <= limit ->
  get_products_by_category self cat page limit
  = get_products_by_category self cat 1 limit.
Proof.
  intros Hp Hl. unfold get_products_by_category, sql_limit_offset.
  replace (Z.to_nat ((page - 1) * limit)) with 0%nat by nia.
  replace (Z.to_nat ((1 - 1) * limit)) with 0%nat by nia. reflexivity.
Qed.

Lemma page_below_one_is_first_page_witness :
  (-3 <= 1) /\ (0 <= 2) /\
  get_products_by_category sample_store "headphones" (-3) 2
  = get_products_by_category sample_store "headphones" 1 2.
Proof.
  split; [lia|]. split; [lia|].
  apply (page_below_one_is_first_page sample_store "headphones" (-3) 2); lia.
Defined.

(** *** [LIKE] *)

Lemma like_percent_step (p t : string) :
  like (String "%" p) t
  = like p t || match t with
                | EmptyString => false
                | String _ t' => like (String "%" p) t'
                end.
Proof. destruct t; reflexivity. Qed.

Lemma like_percent_nil (t : string) : like "%" t = true.
Proof.
  induction t as [|c t IH]; [reflexivity|].
  rewrite like_percent_step, IH. apply orb_true_r.
Qed.

Lemma like_percent_cons (p t : string) :
  like p t = true -> like (String "%" p) t = true.
Proof. intros H. rewrite like_percent_step, H. reflexivity. Qed.

Lemma like_prefix (q t : string) :
  wildcard_free q = true ->
  like (q ++ "%") t = Text.starts_with (Text.lower q) (Text.lower t).
Proof.
  revert t. induction q as [|c q IH]; intros t Hq.
  - cbn [append Text.lower Text.starts_with]. apply like_percent_nil.
  - cbn [wildcard_free] in Hq. apply andb_prop in Hq. destruct Hq as [Hc Hq].
    apply andb_prop in Hc. destruct Hc as [Hpc Hus].
    apply negb_true_iff in Hpc. apply negb_true_iff in Hus.
    cbn [append like]. rewrite Hpc.
    destruct t as [|d t]; [reflexivity|].
    rewrite Hus. cbn [orb Text.lower Text.starts_with]. rewrite (IH t Hq). reflexivity.
Qed.

Lemma like_substring (q t : string) :
  wildcard_free q = true ->
  like (String "%" (q ++ "%")) t = occurs_in q t.
Proof.
  intros Hq. unfold occurs_in. induction t as [|d t IH].
  - rewrite like_percent_step, (like_prefix _ _ Hq). cbn [Text.lower Text.contains].
    now rewrite !orb_false_r.
  - rewrite like_percent_step, (like_prefix _ _ Hq), IH. reflexivity.
Qed.

Lemma in_sql_limit {A} (n : Z) (l : list A) (x : A) :
  In x (ProductDb.sql_limit n l) -> In x l.
Proof.
  unfold ProductDb.sql_limit. destruct (n <? 0); [tauto | apply ListFacts.in_firstn].
Qed.

Lemma in_scan_order (cat : option string) (rs : list product_row) (r : product_row) :
  In r (scan_order cat rs) <-> In r rs.
Proof.
  unfold scan_order. destruct (category_given cat); [reflexivity|].
  symmetry. apply in_rev.
Qed.

(** X24.  For a query without [%] and [_], [search_products] returns only
    products whose name or description holds the query, letters
    compared without regard to case, and, when a category is given,
    only products of that category.  Up to the limit it returns all of
    them: a product is left out only if [limit] products were
    returned. *)
Theorem search_products_matches (self : store) (query : string) (cat : option string)
    (limit : Z) :
  available self = true -> wildcard_free query = true ->
  let found := search_products self query cat limit in
  (forall l, In l found ->
     exists r, In r (rows self) /\ l = listing_of r /\
       (occurs_in query (name r) = true \/
        exists d, description r = Some d /\ occurs_in query d = true) /\
       forall c, cat = Some c -> c <> ""%string -> category r = c) /\
  (forall r, In r (rows self) -> occurs_in query (name r) = true ->
     (forall c, cat = Some c -> category r = c) ->
     In (listing_of r) found \/ Z.of_nat (List.length found) = limit).
Proof.
  intros Ha Hq. cbv zeta. unfold search_products. rewrite Ha. split.
  - intros l Hl. apply in_map_iff in Hl. destruct Hl as (r & <- & Hr).
    apply in_sql_limit in Hr.
    apply (Permutation_in _ (SortFacts.sort_perm _ _)) in Hr.
    apply in_scan_order in Hr.
    apply filter_In in Hr. destruct Hr as [Hin Hw]. exists r.
    split; [exact Hin|]. split; [reflexivity|].
    unfold search_where in Hw. apply andb_prop in Hw. destruct Hw as [Hm Hc].
    cbn [append] in Hm. rewrite (like_substring _ _ Hq) in Hm. split.
    + apply orb_prop in Hm. destruct Hm as [Hm|Hm]; [now left|]. right.
      unfold like_column in Hm. destruct (description r) as [d|]; [|discriminate].
      exists d. rewrite (like_substring _ _ Hq) in Hm. split; [reflexivity | exact Hm].
    + intros c -> Hne. apply String.eqb_neq in Hne. rewrite Hne in Hc.
      apply String.eqb_eq. exact Hc.
  - intros r Hin Hname Hcat.
    assert (Hw : In r (Sort.sort ProductDb.alternatives_order
                         (scan_order cat (filter (search_where query cat) (rows self))))).
    { apply (Permutation_in _ (Permutation_sym (SortFacts.sort_perm _ _))).
      apply in_scan_order, filter_In. split; [exact Hin|]. unfold search_where. cbn [append].
      rewrite (like_substring _ _ Hq), Hname. cbn [orb andb].
      destruct cat as [c|]; [|reflexivity].
      destruct (c =? "")%string; [reflexivity|]. apply String.eqb_eq. now apply Hcat. }
    rewrite length_map. unfold ProductDb.sql_limit.
    destruct (Z.ltb_spec limit 0) as [Hneg|Hpos]; [left; now apply in_map|].
    set (sorted := Sort.sort _ _) in *.
    destruct (ListFacts.firstn_length_cases (Z.to_nat limit) sorted) as [Hall|Hfull].
    + left. apply in_map. rewrite <- (firstn_skipn (Z.to_nat limit) sorted) in Hw.
      rewrite Hall, app_nil_r in Hw. exact Hw.
    + right. rewrite Hfull. lia.
Qed.

Lemma search_products_matches_witness :
  available sample_store = true /\ wildcard_free "hp" = true /\
  forall r, In r (rows sample_store) -> occurs_in "hp" (name r) = true ->
    (forall c, Some "headphones"%string = Some c -> category r = c) ->
    In (listing_of r) (search_products sample_store "hp" (Some "headphones"%string) 3) \/
    Z.of_nat (List.length (search_products sample_store "hp" (Some "headphones"%string) 3)) = 3.
Proof.
  split; [reflexivity|]. split; [reflexivity|].
  exact (proj2 (search_products_matches sample_store "hp" (Some "headphones"%string) 3
                  eq_refl eq_refl)).
Defined.

(** X25.  A [%] or [_] in the query is a wildcard, not a character: the
    query [_] finds every product with a name of at least one
    character, and the query [%], like the empty query, every
    product. *)
Theorem search_wildcards_match_anything (r : product_row) (cat : option string) :
  search_where "%" cat r = search_where "" cat r /\
  search_where "" None r = true /\
  (name r <> ""%string -> search_where "_" None r = true).
Proof.
  assert (H2 : forall t, like "%%" t = true)
    by (intros t; apply like_percent_cons, like_percent_nil).
  assert (H3 : forall t, like "%%%" t = true) by (intros t; apply like_percent_cons, H2).
  unfold search_where, like_column. cbn [append]. split; [|split].
  - rewrite H2, H3. reflexivity.
  - rewrite H2. reflexivity.
  - intros Hne. destruct (name r) as [|c t] eqn:Hn; [contradiction|].
    rewrite like_percent_step.
    replace (like "_%" (String c t)) with (like "%" t) by reflexivity.
    rewrite like_percent_nil. reflexivity.
Qed.
End ListingFacts.

(** ** The routes *)

Module RouteFacts.

Import Catalog Py RNum Recommender Routes.
Local Open Scope Z_scope.

Lemma validate_all_length {A B} (f : A -> option B) (l : list A) (ys : list B) :
  validate_all f l = Some ys -> List.length ys = List.length l.
Proof.
  revert ys. induction l as [|x l IH]; intros ys; cbn [validate_all].
  - now intros [= <-].
  - destruct (f x); [|discriminate]. destruct (validate_all f l); [|discriminate].
    intros [= <-]. cbn [List.length]. now rewrite (IH _ eq_refl).
Qed.

Lemma validate_all_refuses {A B} (f : A -> option B) (l : list A) (x : A) :
  In x l -> f x = None -> validate_all f l = None.
Proof.
  intros Hin Hx. induction l as [|a l IH]; [contradiction|]. cbn [validate_all].
  destruct Hin as [->|Hin]; [now rewrite Hx|].
  destruct (f a); [|reflexivity]. now rewrite (IH Hin).
Qed.

Lemma validate_all_each {A B} (f : A -> option B) (l : list A) (ys : list B) :
  validate_all f l = Some ys -> Forall2 (fun x y => f x = Some y) l ys.
Proof.
  revert ys. induction l as [|x l IH]; intros ys; cbn [validate_all].
  - intros [= <-]. constructor.
  - destruct (f x) as [y|] eqn:Hy; [|discriminate].
    destruct (validate_all f l) as [ys'|]; [|discriminate].
    intros [= <-]. constructor; [exact Hy | now apply IH].
Qed.

(** X26.  The recommendations route answers with status 200, 404 or 500.  A
    body is never empty; for a limit of at least [1] it holds at most
    [limit] entries and never more than [20]; and it holds, in order,
    the recommendations of the engine, each with a rating. *)
Theorem recommendations_route_answers encode fails (engine : engine) product_id limit :
  let answer := get_product_recommendations encode fails engine product_id limit in
  (forall status, answer = HTTPException status -> status = 404 \/ status = 500) /\
  (forall body, answer = Ok body ->
     body <> [] /\
     (1 <= limit -> Z.of_nat (List.length body) <= Z.min limit 20) /\
     exists recs,
       get_recommendations encode fails engine product_id (Z.min limit 20) = Return recs /\
       Forall2 (fun r b => rec_rating r = Some (rr_rating b) /\ rec_id r = rr_id b /\
                           similarity_score r = rr_similarity_score b) recs body).
Proof.
  cbv zeta. unfold get_product_recommendations.
  assert (Hcap : (if 20 <? limit then 20 else limit) = Z.min limit 20).
  { destruct (Z.ltb_spec 20 limit); lia. }
  rewrite Hcap.
  destruct (get_recommendations encode fails engine product_id (Z.min limit 20))
    as [[|r recs]|e] eqn:Hrec.
  - split; [intros s [= <-]; now left | discriminate].
  - destruct (validate_all validate_recommendation (r :: recs)) as [body|] eqn:Hv.
    + split; [discriminate|]. intros b [= <-].
      pose proof (validate_all_length _ _ _ Hv) as Hlen. split; [|split].
      * intros ->. discriminate.
      * intros Hl. rewrite Hlen.
        apply (RecMore.length_at_most_k _ _ _ _ _ _ Hrec). destruct (use_chroma engine); lia.
      * exists (r :: recs). split; [reflexivity|].
        apply validate_all_each in Hv. revert Hv. apply Forall2_impl.
        intros x y. unfold validate_recommendation.
        destruct (rec_rating x); [|discriminate]. intros [= <-]. repeat split.
    + split; [intros s [= <-]; now right | discriminate].
  - split; [intros s [= <-]; now right | discriminate].
Qed.

(** For a product that is not in the catalogue, or has no description,
    the route answers 404. *)
Theorem recommendations_route_not_found encode fails (engine : engine) product_id limit :
  fails LoadModel = false -> fails InitVectorDb = false ->
  fails (SelectProductById product_id) = false ->
  RecSpec.indexed_vector encode engine product_id = None ->
  get_product_recommendations encode fails engine product_id limit = HTTPException 404.
Proof.
  intros F1 F2 F3 Hv.
  unfold get_product_recommendations, get_recommendations, ensure_ready, select_described.
  rewrite (RecFacts.attempt_ok _ _ F1), (RecFacts.attempt_ok _ _ F2).
  cbn [bind]. unfold RecSpec.indexed_vector in Hv.
  destruct (20 <? limit); rewrite (RecFacts.attempt_ok _ _ F3); cbn [bind];
    (destruct (find_by_id product_id (products engine)) as [p|]; [|reflexivity]);
    (destruct (has_description p); [discriminate | reflexivity]).
Qed.

Lemma recommendations_route_not_found_witness :
  RecSpec.indexed_vector Fixtures.unit_encode Fixtures.lonely_shop 4 = None /\
  get_product_recommendations Fixtures.unit_encode no_faults Fixtures.lonely_shop 4 5
  = HTTPException 404.
Proof.
  split; [reflexivity|].
  exact (recommendations_route_not_found Fixtures.unit_encode no_faults Fixtures.lonely_shop 4 5
           eq_refl eq_refl eq_refl eq_refl).
Defined.

(** X27.  One recommended product without a rating fails the whole request:
    the route answers 500, whatever the other recommendations are. *)
Theorem recommendations_route_needs_ratings encode fails (engine : engine) product_id limit
    recs r :
  get_recommendations encode fails engine product_id (Z.min limit 20) = Return recs ->
  In r recs -> rec_rating r = None ->
  get_product_recommendations encode fails engine product_id limit = HTTPException 500.
Proof.
  intros Hrec Hin Hr. unfold get_product_recommendations.
  assert (Hcap : (if 20 <? limit then 20 else limit) = Z.min limit 20).
  { destruct (Z.ltb_spec 20 limit); lia. }
  rewrite Hcap, Hrec. destruct recs as [|x recs]; [contradiction|].
  rewrite (validate_all_refuses _ _ r Hin); [reflexivity|].
  unfold validate_recommendation. now rewrite Hr.
Qed.

Lemma recommendations_route_needs_ratings_witness :
  exists r,
    get_recommendations Fixtures.unit_encode no_faults Fixtures2.unrated_shop 1 (Z.min 5 20)
    = Return [r] /\
    In r [r] /\ rec_rating r = None /\
    get_product_recommendations Fixtures.unit_encode no_faults Fixtures2.unrated_shop 1 5
    = HTTPException 500.
Proof.
  eexists. split; [reflexivity|]. split; [left; reflexivity|]. split; [reflexivity|].
  exact (recommendations_route_needs_ratings Fixtures.unit_encode no_faults
           Fixtures2.unrated_shop 1 5 _ _ eq_refl (or_introl eq_refl) eq_refl).
Defined.
End RouteFacts.

(** ** The analysis route *)

Module AnalyzeFacts.

Import Catalog QualityScorer Routes.
Import Lqa.
Local Open Scope Q_scope.

Lemma selected_matches rows cat max_price min_score limit r :
  In r (ProductDb.select_alternatives rows cat max_price min_score limit) ->
  In r rows /\ ProductDb.alternatives_where cat max_price min_score r = true.
Proof.
  unfold ProductDb.select_alternatives. intros H. apply ListingFacts.in_sql_limit in H.
  apply (Permutation_in _ (SortFacts.sort_perm _ _)) in H. apply filter_In in H. exact H.
Qed.

Lemma selected_at_most rows cat max_price min_score (limit : Z) :
  (0 <= limit)%Z ->
  (List.length (ProductDb.select_alternatives rows cat max_price min_score limit)
   <= Z.to_nat limit)%nat.
Proof.
  intros Hl. unfold ProductDb.select_alternatives, ProductDb.sql_limit.
  destruct (Z.ltb_spec limit 0); [lia|]. apply firstn_le_length.
Qed.

Lemma saving_share (p b : Q) : 0 < p -> b <= p * (8 # 10) -> 20 <= (p - b) / p * 100.
Proof.
  intros Hp Hb.
  assert (He : (p - b) / p * 100 == ((p - b) * 100) / p) by (field; lra).
  rewrite He. apply Qle_shift_div_l; [exact Hp|]. lra.
Qed.

Lemma Forall2_right {A B} (R : A -> B -> Prop) (P : B -> Prop) (l : list A) (l' : list B) :
  Forall2 R l l' -> (forall x y, In x l -> R x y -> P y) -> Forall P l'.
Proof.
  intros H. induction H as [|x y l l' Hxy _ IH]; intros HP; constructor.
  - exact (HP x y (or_introl eq_refl) Hxy).
  - apply IH. intros a b Ha. apply HP. now right.
Qed.

Section Analyze.

Variable scrape_product : string -> option Scraped.product_data.
Variable extract_product_info : string -> option Scraped.product_data.
Variable json : Type.
Variable json_loads : string -> option json.
Variable empty_object : json.

(** X28.  No request is answered with status 400: whatever goes wrong, the
    missing URL and image and the page that cannot be read included,
    the status is 500. *)
Theorem analyze_bad_request_is_500 (scorer : scorer) (db : ProductDb.database)
    (url image : option string) :
  (forall status,
     analyze_product scrape_product extract_product_info json json_loads empty_object
       scorer db url image = HTTPException status -> status = 500%Z) /\
  (read_request scrape_product extract_product_info url image = inl (Http 400) ->
   analyze_product scrape_product extract_product_info json json_loads empty_object
     scorer db url image = HTTPException 500) /\
  (truthy url = false -> truthy image = false ->
   read_request scrape_product extract_product_info url image = inl (Http 400)).
Proof.
  unfold analyze_product. split; [|split].
  - intros status. destruct (analyze_body _ _ _ _ _ _ _ _ _); [|discriminate].
    now intros [= <-].
  - intros H. unfold analyze_body. rewrite H. reflexivity.
  - intros Hu Hi. unfold read_request. rewrite Hu, Hi. reflexivity.
Qed.

(** X29.  Every alternative of an analysis costs at most 80% of the analysed
    product and has a final score of at least 90% of its final score;
    there are at most ten; the recommendation is the first of them.
    With a recommendation the saving is the price difference, and, for
    a product with a positive price, at least 20% of that price;
    without one the saving is zero. *)
Theorem analyze_alternatives_save (scorer : scorer) (db : ProductDb.database)
    (url image : option string) (body : AnalysisResponse) :
  analyze_product scrape_product extract_product_info json json_loads empty_object
    scorer db url image = Ok body ->
  let original := original_product body in
  (List.length (alternatives body) <= 10)%nat /\
  recommendation body = hd_error (alternatives body) /\
  Forall (fun a => alt_price a <= pi_price original * (8 # 10) /\
                   pi_final_score original * (9 # 10) <= alt_final_score a)
    (alternatives body) /\
  (recommendation body = None ->
   savings_amount body = 0 /\ savings_percentage body == 0) /\
  (forall best, recommendation body = Some best ->
     savings_amount body = pi_price original - alt_price best /\
     (0 < pi_price original -> 20 <= savings_percentage body)).
Proof.
  unfold analyze_product, analyze_body.
  destruct (read_request scrape_product extract_product_info url image) as [e|pd];
    [discriminate|].
  cbv zeta.
  set (quality := calculate_quality_score scorer (Scraped.specs pd) (Scraped.category pd)).
  set (final := calculate_final_score quality (Scraped.rating pd)).
  set (alts := ProductDb.find_alternatives json json_loads empty_object db
                 (Scraped.category pd) final (Scraped.price pd * (8 # 10)) 10).
  assert (Halts : (List.length alts <= 10)%nat /\
                  forall alt, In alt alts ->
                    ProductDb.alternatives_where (Scraped.category pd)
                      (Scraped.price pd * (8 # 10)) (final * (9 # 10))
                      (ProductDb.row json alt) = true).
  { unfold alts, ProductDb.find_alternatives, ProductDb.execute_query.
    destruct (ProductDb.available db); [|split; [cbn; lia | contradiction]]. split.
    - rewrite length_map. apply (selected_at_most _ _ _ _ 10). lia.
    - intros alt Hin. apply in_map_iff in Hin. destruct Hin as (r & <- & Hr).
      rewrite DbFacts.row_process_row. exact (proj2 (selected_matches _ _ _ _ _ _ Hr)). }
  destruct Halts as [Hlen Hwhere].
  destruct (validate_all (fun alt => validate_alternative (ProductDb.row json alt)) alts)
    as [valid|] eqn:Hv; [|discriminate].
  intros [= <-].
  cbn [original_product alternatives recommendation savings_amount savings_percentage
       pi_price pi_final_score].
  pose proof (RouteFacts.validate_all_length _ _ _ Hv) as Hvlen.
  pose proof (RouteFacts.validate_all_each _ _ _ Hv) as Heach.
  assert (Hone : forall alt a, In alt alts ->
                   validate_alternative (ProductDb.row json alt) = Some a ->
                   alt_price a = price (ProductDb.row json alt) /\
                   alt_price a <= Scraped.price pd * (8 # 10) /\
                   final * (9 # 10) <= alt_final_score a).
  { intros alt a Hin Ha. specialize (Hwhere alt Hin).
    unfold ProductDb.alternatives_where, ProductDb.score_at_least in Hwhere.
    apply andb_prop in Hwhere. destruct Hwhere as [Hcp Hs].
    apply andb_prop in Hcp. destruct Hcp as [_ Hp]. apply Qle_bool_iff in Hp.
    revert Ha. unfold validate_alternative.
    destruct (rating (ProductDb.row json alt)); [|discriminate].
    destruct (Catalog.url (ProductDb.row json alt)); [|discriminate].
    destruct (quality_score (ProductDb.row json alt)); [|discriminate].
    destruct (final_score (ProductDb.row json alt)) as [f|]; [|discriminate].
    apply Qle_bool_iff in Hs. intros [= <-]. cbn [alt_price alt_final_score].
    split; [reflexivity|]. split; assumption. }
  split; [rewrite Hvlen; exact Hlen|]. split; [reflexivity|]. split; [|split].
  - apply (Forall2_right _ _ _ _ Heach). intros alt a Hin Ha.
    exact (proj2 (Hone alt a Hin Ha)).
  - destruct Heach as [|alt a alts' valid' Ha _]; cbn [hd_error]; [|discriminate].
    intros _. split; [reflexivity|].
    destruct (Qlt_le_dec 0 (Scraped.price pd)); [|apply ScorerFacts.py_round_0].
    rewrite (ScorerFacts.py_round_comp _ 0); [apply ScorerFacts.py_round_0|].
    unfold Qdiv. ring.
  - intros best. destruct Heach as [|alt a alts' valid' Ha _]; cbn [hd_error]; [discriminate|].
    intros [= <-]. destruct (Hone alt a (or_introl eq_refl) Ha) as (Hprice & Hcap & _).
    rewrite Hprice. split; [reflexivity|]. intros Hpos.
    destruct (Qlt_le_dec 0 (Scraped.price pd)) as [_|Hno]; [|lra].
    apply Qle_trans with (Num.py_round (inject_Z 2000 / 100) 2).
    + apply Qle_lteq. right. symmetry.
      rewrite (ScorerFacts.py_round_2_fixed 2000). reflexivity.
    + apply ScorerMore.py_round_mono. apply Qle_trans with 20; [discriminate|].
      apply saving_share; [exact Hpos|]. rewrite <- Hprice. exact Hcap.
Qed.

End Analyze.

Lemma analyze_alternatives_save_witness :
  exists body,
    analyze_product Fixtures3.scrape_good (fun _ => None) unit Fixtures.no_json tt
      QualityScorer.new Fixtures3.linked_catalog (Some "good"%string) None = Ok body /\
    (List.length (alternatives body) <= 10)%nat.
Proof.
  eexists. split; [reflexivity|].
  exact (proj1 (analyze_alternatives_save Fixtures3.scrape_good (fun _ => None) unit
                  Fixtures.no_json tt QualityScorer.new Fixtures3.linked_catalog
                  (Some "good"%string) None _ eq_refl)).
Defined.
End AnalyzeFacts.

(** ** The collector *)

Module CollectorFacts.

Import Catalog QualityScorer Collector.
Import Lqa.
Local Open Scope Q_scope.

Section Collect.

Variable scrape_product : string -> option Scraped.product_data.
Variable json : Type.
Variable dumps : json -> string.
Variable empty null : json.
Variable json_of_specs : specs_dict -> json.

(** The row [add_product] writes for a scraped product. *)
Lemma scored_row (pd : Scraped.product_data) (q f : Q) (i : Z) :
  exists r,
    Store.new_row json dumps empty null i (scored json json_of_specs pd q f) = Some r /\
    id r = i /\ category r = Scraped.category pd /\ price r = Scraped.price pd /\
    rating r = Some (Scraped.rating pd) /\
    quality_score r = Some q /\ final_score r = Some f.
Proof.
  unfold Store.new_row, scored. cbn [Store.pd_name Store.pd_category Store.pd_price
    Store.pd_platform Store.get_or].
  destruct (Scraped.platform pd); cbn [field_of Store.get_or]; eexists;
    (split; [reflexivity|]); cbn; repeat split.
Qed.

Lemma collect_step (scorer : scorer) (db : Store.store) (count : Z) (url : string) :
  Store.available db = true ->
  match scrape_product url with
  | None =>
      collect_one scrape_product json dumps empty null json_of_specs scorer (db, count) url
      = (db, count)
  | Some pd =>
      exists r db',
        collect_one scrape_product json dumps empty null json_of_specs scorer (db, count) url
        = (db', (count + 1)%Z) /\
        Store.available db' = true /\ Store.rows db' = (Store.rows db ++ [r])%list /\
        category r = Scraped.category pd /\
        quality_score r
        = Some (calculate_quality_score scorer (Scraped.specs pd) (Scraped.category pd)) /\
        final_score r
        = Some (calculate_final_score
                  (calculate_quality_score scorer (Scraped.specs pd) (Scraped.category pd))
                  (Scraped.rating pd))
  end.
Proof.
  intros Ha. unfold collect_one. destruct (scrape_product url) as [pd|]; [|reflexivity].
  cbv zeta. unfold Store.add_product. rewrite Ha.
  destruct (scored_row pd
              (calculate_quality_score scorer (Scraped.specs pd) (Scraped.category pd))
              (calculate_final_score
                 (calculate_quality_score scorer (Scraped.specs pd) (Scraped.category pd))
                 (Scraped.rating pd))
              (Store.next_id db)) as (r & Hr & _ & Hc & _ & _ & Hq & Hf).
  rewrite Hr.
  pose proof (StoreFacts.next_id_positive db) as Hpos.
  destruct (Z.eqb_spec (Store.next_id db) 0) as [H0|_]; [lia|].
  exists r. eexists. split; [reflexivity|]. cbn [Store.available Store.rows].
  repeat split; assumption.
Qed.

Lemma collect_run (scorer : scorer) (urls : list string) (db : Store.store) (count : Z) :
  Store.available db = true ->
  exists added,
    let result := fold_left
                    (collect_one scrape_product json dumps empty null json_of_specs scorer)
                    urls (db, count) in
    Store.rows (fst result) = (Store.rows db ++ added)%list /\
    snd result = (count + Z.of_nat (List.length added))%Z /\
    Forall2 (fun pd r =>
               category r = Scraped.category pd /\
               quality_score r
               = Some (calculate_quality_score scorer (Scraped.specs pd)
                         (Scraped.category pd)) /\
               final_score r
               = Some (calculate_final_score
                         (calculate_quality_score scorer (Scraped.specs pd)
                            (Scraped.category pd))
                         (Scraped.rating pd)))
      (readable scrape_product urls) added.
Proof.
  revert db count. induction urls as [|url urls IH]; intros db count Ha; cbn [fold_left].
  - exists []. cbn. rewrite app_nil_r. repeat split; [lia | constructor].
  - pose proof (collect_step scorer db count url Ha) as Hstep.
    unfold readable. cbn [flat_map]. fold (readable scrape_product urls).
    destruct (scrape_product url) as [pd|].
    + destruct Hstep as (r & db' & Hrun & Ha' & Hrows & Hc & Hq & Hf). rewrite Hrun.
      destruct (IH db' (count + 1)%Z Ha') as (added & Hrows' & Hcount & Hall).
      exists (r :: added). cbv zeta in *. rewrite Hrows', Hrows, <- app_assoc, Hcount.
      cbn [app List.length]. split; [reflexivity|]. split; [lia|].
      constructor; [repeat split; assumption | exact Hall].
    + rewrite Hstep. exact (IH db count Ha).
Qed.

(** X30.  [collect_category_data] adds one product for every page the
    scraper could read, in the order of the list, and returns their
    number.  Each is stored under the category the scraper found,
    whatever category the call names, with the quality score of the
    scorer for its specifications, between 0 and 100, and the final
    score computed from it and the scraped rating. *)
Theorem collected_products_are_scored (scorer : scorer) (db : Store.store)
    (requested : string) (urls : list string) :
  Store.available db = true ->
  let result := collect_category_data scrape_product json dumps empty null json_of_specs
                  scorer db requested urls in
  exists added,
    Store.rows (fst result) = (Store.rows db ++ added)%list /\
    snd result = Z.of_nat (List.length added) /\
    Forall2 (fun pd r =>
               category r = Scraped.category pd /\
               (exists q, quality_score r = Some q /\ 0 <= q <= 100 /\
                  final_score r = Some (calculate_final_score q (Scraped.rating pd))))
      (readable scrape_product urls) added.
Proof.
  intros Ha. cbv zeta. unfold collect_category_data.
  destruct (collect_run scorer urls db 0 Ha) as (added & Hrows & Hcount & Hall).
  cbv zeta in *. exists added. split; [exact Hrows|]. split; [rewrite Hcount; lia|].
  revert Hall. apply Forall2_impl. intros pd r (Hc & Hq & Hf). split; [exact Hc|].
  eexists. split; [exact Hq|]. split; [apply ScorerMore.score_in_range | exact Hf].
Qed.

(** Without a database nothing is counted and nothing stored. *)
Lemma collect_unavailable (scorer : scorer) (db : Store.store) (requested : string)
    (urls : list string) :
  Store.available db = false ->
  collect_category_data scrape_product json dumps empty null json_of_specs
    scorer db requested urls = (db, 0%Z).
Proof.
  intros Ha. unfold collect_category_data. induction urls as [|url urls IH]; [reflexivity|].
  cbn [fold_left]. unfold collect_one at 2. destruct (scrape_product url); [|exact IH].
  cbv zeta. unfold Store.add_product. rewrite Ha. exact IH.
Qed.

End Collect.

Lemma collected_products_are_scored_witness :
  Store.available StoreSpec.sample_store = true /\
  exists added,
    Store.rows
      (fst (collect_category_data Fixtures3.scrape_good string StoreSpec.sample_dumps
              "{}" "null" (fun _ => "specs"%string) QualityScorer.new
              StoreSpec.sample_store "trimmer" ["bad"; "good"; "worse"]%string))
    = (Store.rows StoreSpec.sample_store ++ added)%list /\
    List.length added = 1%nat.
Proof.
  split; [reflexivity|].
  destruct (collected_products_are_scored Fixtures3.scrape_good string StoreSpec.sample_dumps
              "{}" "null" (fun _ => "specs"%string) QualityScorer.new StoreSpec.sample_store
              "trimmer" ["bad"; "good"; "worse"]%string eq_refl)
    as (added & Hrows & _ & Hall).
  exists added. split; [exact Hrows|].
  apply Forall2_length in Hall. rewrite <- Hall. reflexivity.
Defined.
End CollectorFacts.

(** ** Rounding to a double *)

Module DoubleFacts.
Import Double.
Import Lqa.
Local Open Scope Q_scope.

Lemma pow2_pos (z : Z) : 0 < pow2 z.
Proof. apply Qpower_0_lt. reflexivity. Qed.

Lemma pow2_add (a b : Z) : pow2 (a + b) == pow2 a * pow2 b.
Proof. apply Qpower_plus. discriminate. Qed.

Lemma pow2_lt (a b : Z) : (a < b)%Z -> pow2 a < pow2 b.
Proof. intros H. apply Qpower_lt_compat_l; [exact H | reflexivity]. Qed.

Lemma pow2_le (a b : Z) : (a <= b)%Z -> pow2 a <= pow2 b.
Proof. intros H. apply Qpower_le_compat_l; [exact H | discriminate]. Qed.

Lemma pow2_lt_inv (a b : Z) : pow2 a < pow2 b -> (a < b)%Z.
Proof. intros H. apply (Qpower_lt_compat_l_inv 2); [exact H | reflexivity]. Qed.

Lemma pow2_of_Z (n : Z) : (0 <= n)%Z -> pow2 n == inject_Z (2 ^ n).
Proof. intros H. unfold pow2. rewrite (Zpower_Qpower 2 n H). reflexivity. Qed.

Lemma log2_bounds (n : Z) :
  (0 < n)%Z -> pow2 (Z.log2 n) <= inject_Z n /\ inject_Z n < pow2 (Z.log2 n + 1).
Proof.
  intros Hn. destruct (Z.log2_spec n Hn) as [Hlo Hhi].
  pose proof (Z.log2_nonneg n) as H0.
  rewrite !pow2_of_Z by lia. rewrite <- Zle_Qle, <- Zlt_Qlt.
  split; [exact Hlo|]. exact Hhi.
Qed.

Lemma exponent_spec (a : Q) :
  0 < a -> pow2 (exponent a) <= a /\ a < pow2 (exponent a + 1).
Proof.
  intros Ha.
  assert (Hn : (0 < Qnum a)%Z).
  { destruct a as [n d]. unfold Qlt in Ha. cbn in *. lia. }
  destruct (log2_bounds (Qnum a) Hn) as [Hnlo Hnhi].
  destruct (log2_bounds (Z.pos (Qden a)) eq_refl) as [Hdlo Hdhi].
  set (ln := Z.log2 (Qnum a)) in *. set (ld := Z.log2 (Z.pos (Qden a))) in *.
  assert (Hfrac : a * inject_Z (Z.pos (Qden a)) == inject_Z (Qnum a)).
  { destruct a as [n d]. unfold Qeq. cbn. lia. }
  pose proof (pow2_pos ld) as Pld. pose proof (pow2_pos (ld + 1)) as Pld1.
  assert (Hup : a < pow2 (ln - ld + 1)).
  { apply (Qmult_lt_r _ _ (pow2 ld) Pld).
    rewrite <- pow2_add. replace (ln - ld + 1 + ld)%Z with (ln + 1)%Z by lia.
    apply Qle_lt_trans with (a * inject_Z (Z.pos (Qden a))).
    - apply Qmult_le_l; [exact Ha | exact Hdlo].
    - rewrite Hfrac. exact Hnhi. }
  assert (Hlow : pow2 (ln - ld - 1) <= a).
  { apply (Qmult_le_r _ _ (pow2 (ld + 1)) Pld1).
    rewrite <- pow2_add. replace (ln - ld - 1 + (ld + 1))%Z with ln by lia.
    apply Qle_trans with (a * inject_Z (Z.pos (Qden a))).
    - rewrite Hfrac. exact Hnlo.
    - apply Qmult_le_l; [exact Ha | apply Qlt_le_weak; exact Hdhi]. }
  unfold exponent. fold ln ld.
  destruct (Qle_bool (pow2 (ln - ld)) a) eqn:Htest.
  - apply Qle_bool_iff in Htest. split; assumption.
  - split; [exact Hlow|]. replace (ln - ld - 1 + 1)%Z with (ln - ld)%Z by lia.
    apply Qnot_le_lt. intros H. apply Qle_bool_iff in H. congruence.
Qed.

Lemma exponent_unique (a : Q) (k : Z) :
  0 < a -> pow2 k <= a -> a < pow2 (k + 1) -> exponent a = k.
Proof.
  intros Ha Hlo Hhi. destruct (exponent_spec a Ha) as [Elo Ehi].
  assert (H1 : (k < exponent a + 1)%Z) by (apply pow2_lt_inv; lra).
  assert (H2 : (exponent a < k + 1)%Z) by (apply pow2_lt_inv; lra).
  lia.
Qed.

Lemma exponent_comp (a b : Q) : a == b -> 0 < a -> exponent a = exponent b.
Proof.
  intros Hab Ha. assert (Hb : 0 < b) by lra.
  destruct (exponent_spec b Hb) as [Elo Ehi].
  apply exponent_unique; lra.
Qed.

Lemma abs_of_nonzero (x : Q) : ~ x == 0 -> 0 < Qabs x.
Proof.
  intros Hx. apply Qabs_case; intros H.
  - destruct (Qlt_le_dec 0 x) as [Hp|Hn]; [exact Hp|]. exfalso. apply Hx. lra.
  - destruct (Qlt_le_dec x 0) as [Hp|Hn]; [lra|]. exfalso. apply Hx. lra.
Qed.

Lemma quantum_pos (x : Q) : 0 < quantum x.
Proof. apply pow2_pos. Qed.

Lemma quantum_comp (x y : Q) : x == y -> ~ x == 0 -> quantum x = quantum y.
Proof.
  intros Hxy Hx. unfold quantum. f_equal. f_equal. f_equal.
  apply exponent_comp; [now rewrite Hxy | apply abs_of_nonzero; exact Hx].
Qed.

Lemma to_double_comp (x y : Q) : x == y -> to_double x == to_double y.
Proof.
  intros Hxy. unfold to_double.
  destruct (Qeq_bool x 0) eqn:Hx.
  - apply Qeq_bool_iff in Hx. assert (Hy : y == 0) by lra.
    apply Qeq_bool_iff in Hy. rewrite Hy. reflexivity.
  - apply Qeq_bool_neq in Hx.
    assert (Hy : Qeq_bool y 0 = false).
    { destruct (Qeq_bool y 0) eqn:E; [|reflexivity].
      apply Qeq_bool_iff in E. exfalso. apply Hx. lra. }
    rewrite Hy, <- (quantum_comp x y Hxy Hx).
    rewrite (ScorerFacts.round_half_even_comp (x / quantum x) (y / quantum x));
      [reflexivity|]. unfold Qdiv. apply Qmult_comp; [exact Hxy | reflexivity].
Qed.

Lemma to_double_0 : to_double 0 = 0.
Proof. reflexivity. Qed.

(** Rounding moves a number by at most half the distance between
    doubles. *)
Lemma to_double_close (x : Q) : Qabs (to_double x - x) <= quantum x / 2.
Proof.
  pose proof (quantum_pos x) as Hq. unfold to_double.
  destruct (Qeq_bool x 0) eqn:Hx.
  - apply Qeq_bool_iff in Hx.
    assert (H : Qabs (0 - x) == 0).
    { assert (H0 : 0 - x == 0) by lra. rewrite H0. reflexivity. }
    apply Qle_shift_div_l; [reflexivity|]. lra.
  - pose proof (ScorerFacts.round_half_even_close (x / quantum x)) as Hr.
    set (m := inject_Z (Num.round_half_even (x / quantum x))) in *.
    assert (He : m * quantum x - x == (m - x / quantum x) * quantum x).
    { field. lra. }
    rewrite He, Qabs_Qmult, (Qabs_pos (quantum x)) by lra.
    apply Qle_shift_div_l; [reflexivity|].
    assert (H2 : Qabs (m - x / quantum x) * quantum x <= (1 # 2) * quantum x).
    { apply Qmult_le_compat_r; [exact Hr | lra]. }
    lra.
Qed.

(** In the normal range the distance between doubles is at most
    [2 ** -52] times the number. *)
Lemma quantum_normal (x : Q) :
  pow2 (-1022) <= Qabs x -> quantum x <= Qabs x * pow2 (-52).
Proof.
  intros Hx. pose proof (pow2_pos (-1022)) as Hp.
  assert (Ha : 0 < Qabs x) by lra.
  destruct (exponent_spec (Qabs x) Ha) as [Elo Ehi].
  assert (He : (-1022 < exponent (Qabs x) + 1)%Z) by (apply pow2_lt_inv; lra).
  unfold quantum. rewrite Z.max_l by lia.
  replace (exponent (Qabs x) - 52)%Z with (exponent (Qabs x) + -52)%Z by lia.
  rewrite pow2_add. apply Qmult_le_compat_r; [exact Elo|].
  apply Qlt_le_weak, pow2_pos.
Qed.

Lemma to_double_relative (x : Q) :
  pow2 (-1022) <= Qabs x -> Qabs (to_double x - x) <= Qabs x * pow2 (-53).
Proof.
  intros Hx. pose proof (to_double_close x) as Hc. pose proof (quantum_normal x Hx) as Hq.
  assert (H53 : pow2 (-53) == pow2 (-52) * (1 # 2)) by reflexivity.
  rewrite H53. unfold Qdiv in Hc. change (/ 2) with (1 # 2) in Hc.
  set (u := pow2 (-52)) in *. nra.
Qed.
End DoubleFacts.

(** ** The final score in doubles *)

Module FinalScore64.
Import Double DoubleFacts QualityScorer64.
Import Lqa.
Local Open Scope Q_scope.

Lemma round_half_even_nearest (y : Q) (m : Z) :
  Qabs (y - inject_Z m) < 1 # 2 -> Num.round_half_even y = m.
Proof.
  intros Hy. pose proof (ScorerFacts.round_half_even_close y) as Hc.
  set (a := Num.round_half_even y) in *.
  apply Qabs_Qle_condition in Hc. destruct Hc as [Hc1 Hc2].
  apply Qabs_Qlt_condition in Hy. destruct Hy as [Hy1 Hy2].
  assert (H1 : inject_Z (a + -1) < inject_Z m).
  { rewrite inject_Z_plus. change (inject_Z (-1)) with (-1 # 1). lra. }
  assert (H2 : inject_Z m < inject_Z (a + 1)).
  { rewrite inject_Z_plus. change (inject_Z 1) with 1. lra. }
  rewrite <- Zlt_Qlt in H1, H2. lia.
Qed.

(** The double nearest to a number of hundredths rounds back to it. *)
Lemma hundredths_round_back (m : Z) :
  (Z.abs m < 2 ^ 52)%Z ->
  Num.py_round (to_double (inject_Z m / 100)) 2 == inject_Z m / 100.
Proof.
  intros Hm. set (x := inject_Z m / 100).
  unfold Num.py_round. change (inject_Z (10 ^ Z.of_nat 2)) with 100.
  rewrite (round_half_even_nearest (to_double x * 100) m); [reflexivity|].
  destruct (Z.eq_dec m 0) as [->|Hnz].
  { reflexivity. }
  assert (Hx : Qabs x == inject_Z (Z.abs m) / 100).
  { unfold x, Qdiv. rewrite Qabs_Qmult. reflexivity. }
  assert (Hone : 1 <= inject_Z (Z.abs m)).
  { change 1 with (inject_Z 1). rewrite <- Zle_Qle. lia. }
  assert (Hbig : inject_Z (Z.abs m) < inject_Z (2 ^ 52)) by (rewrite <- Zlt_Qlt; exact Hm).
  assert (Hnormal : pow2 (-1022) <= Qabs x).
  { rewrite Hx. apply Qle_trans with (1 # 100); [discriminate|].
    apply Qle_shift_div_l; [reflexivity|]. lra. }
  pose proof (to_double_relative x Hnormal) as Hrel.
  assert (He : to_double x * 100 - inject_Z m == (to_double x - x) * 100).
  { unfold x. field. }
  rewrite He, Qabs_Qmult. change (Qabs 100) with 100.
  rewrite Hx in Hrel.
  change (pow2 (-53)) with (1 # 9007199254740992) in Hrel.
  change (inject_Z (2 ^ 52)) with 4503599627370496 in Hbig.
  set (am := inject_Z (Z.abs m)) in *. set (d := Qabs (to_double x - x)) in *.
  unfold Qdiv in Hrel. change (/ 100) with (1 # 100) in Hrel. lra.
Qed.

Lemma is_double_eq (q : Q) : is_double q = true -> to_double q == q.
Proof. unfold is_double. apply Qeq_bool_iff. Qed.

Lemma final_score_at_5 (q : Q) :
  is_double q = true -> calculate_final_score q 5 == round q 2.
Proof.
  intros Hq. unfold calculate_final_score, round, mul.
  apply to_double_comp, ScorerFacts.py_round_comp.
  assert (H1 : div 5 5 == 1) by (vm_compute; reflexivity).
  rewrite <- (is_double_eq q Hq) at 2. apply to_double_comp.
  rewrite H1. ring.
Qed.

Lemma final_score_at_0 (q : Q) : calculate_final_score q 0 == 0.
Proof.
  unfold calculate_final_score, round, mul.
  change (div 0 5) with 0.
  assert (H : Qeq_bool (q * 0) 0 = true) by (apply Qeq_bool_iff; ring).
  unfold to_double at 2. rewrite H.
  assert (H0 : Qeq_bool (Num.py_round 0 2) 0 = true)
    by (apply Qeq_bool_iff, ScorerFacts.py_round_0).
  unfold to_double. rewrite H0. reflexivity.
Qed.

(** C6.  Computed in doubles, the final score is the double nearest
    to a number of hundredths that lies within 0.005 of the double
    product [quality_score * (rating / 5.0)].  At rating 5 it is the
    quality score rounded to two decimals, which is the quality score
    itself when that is the double of a number of hundredths; at
    rating 0 it is 0. *)
Theorem final_score_rounds_double (q rating : Q) :
  is_double q = true ->
  (exists m : Z,
      calculate_final_score q rating == to_double (inject_Z m / 100) /\
      Qabs (inject_Z m / 100 - mul q (div rating 5)) <= 1 # 200) /\
  calculate_final_score q 5 == round q 2 /\
  (forall m : Z, (Z.abs m < 2 ^ 52)%Z -> q == to_double (inject_Z m / 100) ->
     calculate_final_score q 5 == q) /\
  calculate_final_score q 0 == 0.
Proof.
  intros Hq. split; [|split; [|split]].
  - destruct (ScorerFacts.py_round_2_close (mul q (div rating 5))) as [[m Hm] Hclose].
    exists m. split.
    + unfold calculate_final_score, round. apply to_double_comp. exact Hm.
    + rewrite <- Hm. exact Hclose.
  - exact (final_score_at_5 q Hq).
  - intros m Hm Hqm. rewrite (final_score_at_5 q Hq). unfold round.
    rewrite Hqm at 2. apply to_double_comp.
    rewrite (ScorerFacts.py_round_comp q (to_double (inject_Z m / 100)) 2 Hqm).
    apply hundredths_round_back. exact Hm.
  - apply final_score_at_0.
Qed.

Lemma final_score_rounds_double_witness :
  is_double (241 # 4) = true /\
  calculate_final_score (241 # 4) 5 == round (241 # 4) 2.
Proof.
  split; [vm_compute; reflexivity|].
  exact (proj1 (proj2 (final_score_rounds_double (241 # 4) 5 eq_refl))).
Defined.

(** C6, counterexample.  A quality score with more than two decimals,
    here the double nearest to 430/9 = 47.77..., is not its own final
    score at rating 5: that is 47.78.  And the rounding is that of the
    double product: for 60.25 at rating 4.5 the product of the numbers
    is 54.225, which rounds half-even to 54.22, but the double product
    lies above it and the final score is 54.23. *)
Lemma final_score_not_identity_at_5 :
  let q := to_double (430 # 9) in
  is_double q = true /\
  calculate_final_score q 5 == to_double (4778 # 100) /\
  ~ calculate_final_score q 5 == q /\
  (241 # 4) * ((9 # 2) / 5) == 54225 # 1000 /\
  Num.py_round ((241 # 4) * ((9 # 2) / 5)) 2 == 5422 # 100 /\
  calculate_final_score (241 # 4) (9 # 2) == to_double (5423 # 100).
Proof.
  cbv zeta. split; [vm_compute; reflexivity|]. split; [vm_compute; reflexivity|].
  split; [|split; [reflexivity|split; [vm_compute; reflexivity | vm_compute; reflexivity]]].
  intros H. apply Qeq_bool_iff in H. vm_compute in H. discriminate.
Qed.
End FinalScore64.

(** ** The alternative finder with the floor in doubles *)

Module Db64Facts.
Import Catalog ProductDb SortFacts ListFacts.
Import Double DoubleFacts.
Import Lqa.
Local Open Scope Q_scope.

Lemma where_matches cat floor max_price r :
  alternatives_where cat max_price floor r = true <-> DbSpec64.matches cat floor max_price r.
Proof.
  unfold alternatives_where, DbSpec64.matches, score_at_least.
  rewrite !andb_true_iff, String.eqb_eq, Qle_bool_iff.
  destruct (final_score r) as [s|].
  - rewrite Qle_bool_iff. split.
    + intros [[H1 H2] H3]. repeat split; try assumption. exists s. split; [reflexivity | exact H3].
    + intros (H1 & H2 & s' & [= <-] & H3). tauto.
  - split.
    + intros [_ H]. discriminate.
    + intros (_ & _ & s' & H & _). discriminate.
Qed.

(** The query meets the contract for whatever floor it is given. *)
Lemma select_contract rows cat floor max_price limit :
  (0 <= limit)%Z ->
  DbSpec64.contract rows cat floor max_price limit
    (select_alternatives rows cat max_price floor limit).
Proof.
  intros Hlim. unfold select_alternatives, sql_limit.
  destruct (Z.ltb_spec limit 0) as [Hneg|_]; [lia|].
  set (matching := filter (alternatives_where cat max_price floor) rows).
  set (sorted := Sort.sort alternatives_order matching).
  set (n := Z.to_nat limit).
  assert (Hperm : Permutation sorted matching) by apply sort_perm.
  assert (Hsorted : StronglySorted (fun a b => alternatives_order a b = true) sorted)
    by (apply sort_sorted; [apply DbFacts.order_total | apply DbFacts.order_trans]).
  assert (Hin : forall r, In r sorted ->
                  In r rows /\ DbSpec64.matches cat floor max_price r).
  { intros r Hr. apply (Permutation_in _ Hperm) in Hr. apply filter_In in Hr.
    destruct Hr as [Hr Hm]. split; [exact Hr | apply where_matches; exact Hm]. }
  assert (Hscore : forall r, In r sorted -> exists s, final_score r = Some s).
  { intros r Hr. destruct (Hin r Hr) as [_ (_ & _ & s & Hs & _)]. now exists s. }
  assert (Hbefore : StronglySorted DbSpec.before sorted).
  { apply (sorted_weaken (fun a b => alternatives_order a b = true)); [|exact Hsorted].
    intros a b Ha Hb Hab. destruct (Hscore a Ha) as [sa Hsa], (Hscore b Hb) as [sb Hsb].
    exact (DbFacts.order_before a b sa sb Hsa Hsb Hab). }
  rewrite <- (firstn_skipn n sorted) in Hbefore.
  apply sorted_app in Hbefore. destruct Hbefore as [Hb1 Hb2].
  unfold DbSpec64.contract. split; [|split; [|split; [|split; [|split]]]].
  - intros r Hr. apply Hin. eapply in_firstn; exact Hr.
  - exact Hb1.
  - apply firstn_le_length.
  - exists (skipn n sorted). split; [|split].
    + rewrite firstn_skipn. exact Hperm.
    + apply firstn_length_cases.
    + exact Hb2.
  - intros r. apply where_matches.
  - intros Hnone. destruct (firstn n sorted) as [|r l] eqn:E; [reflexivity|].
    exfalso. assert (Hr : In r sorted).
    { apply (in_firstn n). rewrite E. now left. }
    destruct (Hin r Hr) as [Hr1 Hr2]. exact (Hnone r Hr1 Hr2).
Qed.

(** The double [0.9]. *)
Lemma nine_tenths : to_double (9 # 10) == 8106479329266893 # 9007199254740992.
Proof. vm_compute. reflexivity. Qed.

(** The floor is nine tenths of the target up to two roundings. *)
Lemma band_floor_close (target_score : Q) :
  target_score == 0 \/ pow2 (-1000) <= Qabs target_score ->
  Qabs (DbSpec64.band_floor target_score - target_score * (9 # 10))
  <= Qabs target_score * pow2 (-52).
Proof.
  intros [H0|Ht].
  { unfold DbSpec64.band_floor, mul, to_double.
    assert (Hz : Qeq_bool (target_score * to_double (9 # 10)) 0 = true).
    { apply Qeq_bool_iff. rewrite H0. ring. }
    unfold to_double in Hz. rewrite Hz.
    assert (He : 0 - target_score * (9 # 10) == 0) by (rewrite H0; ring).
    rewrite He, H0. discriminate. }
  unfold DbSpec64.band_floor, mul.
  set (c := 8106479329266893 # 9007199254740992).
  rewrite (to_double_comp (target_score * to_double (9 # 10)) (target_score * c))
    by (rewrite nine_tenths; reflexivity).
  assert (Hx : Qabs (target_score * c) == Qabs target_score * c).
  { rewrite Qabs_Qmult. reflexivity. }
  assert (Hnormal : pow2 (-1022) <= Qabs (target_score * c)).
  { rewrite Hx. apply Qle_trans with (pow2 (-1000) * c).
    - vm_compute. discriminate.
    - apply Qmult_le_compat_r; [exact Ht | discriminate]. }
  pose proof (to_double_relative _ Hnormal) as Hrel. rewrite Hx in Hrel.
  change (pow2 (-53)) with (1 # 9007199254740992) in Hrel.
  change (pow2 (-52)) with (1 # 4503599627370496).
  pose proof (Qabs_nonneg target_score) as Hnn.
  assert (Hsplit : to_double (target_score * c) - target_score * (9 # 10)
                   == (to_double (target_score * c) - target_score * c)
                      + target_score * (c - (9 # 10))) by ring.
  rewrite Hsplit.
  apply Qle_trans with (Qabs (to_double (target_score * c) - target_score * c)
                        + Qabs (target_score * (c - (9 # 10)))); [apply Qabs_triangle|].
  rewrite (Qabs_Qmult target_score).
  assert (Hc : Qabs (c - (9 # 10)) == 1 # 45035996273704960) by (vm_compute; reflexivity).
  rewrite Hc.
  set (a := Qabs target_score) in *.
  set (d := Qabs (to_double (target_score * c) - target_score * c)) in *.
  unfold c in Hrel. lra.
Qed.

Section Json.
Variable json : Type.
Variable json_loads : string -> option json.
Variable empty_object : json.

(** C5.  For every table behind a working connection and every
    non-negative limit, [find_alternatives] returns rows of the table
    that have the category, a price within the cap and a final score
    not below the floor the code computes, the double product
    [target_score * 0.9]; ordered by descending final score, then
    ascending price; at most [limit] of them; the matching rows left
    out exist only when the limit is reached and none of them ranks
    before a returned one; and the list is empty when nothing matches.
    The floor is nine tenths of the target score up to two roundings:
    it is off by at most [2 ** -52] times the target score (for a
    target score that is zero or not below [2 ** -1000] in size). *)
Theorem find_alternatives_double_contract self cat target_score max_price limit :
  available self = true -> (0 <= limit)%Z ->
  DbSpec64.contract (products self) cat (DbSpec64.band_floor target_score) max_price limit
    (map (row json)
       (ProductDb64.find_alternatives json json_loads empty_object self cat
          target_score max_price limit)) /\
  (target_score == 0 \/ pow2 (-1000) <= Qabs target_score ->
   Qabs (DbSpec64.band_floor target_score - target_score * (9 # 10))
   <= Qabs target_score * pow2 (-52)).
Proof.
  intros Hav Hlim. split; [|apply band_floor_close].
  unfold ProductDb64.find_alternatives, execute_query. rewrite Hav.
  rewrite DbFacts.rows_of_processed. apply select_contract. exact Hlim.
Qed.

End Json.

Lemma find_alternatives_double_contract_witness :
  available Fixtures.working_catalog = true /\ (0 <= 10)%Z /\
  DbSpec64.contract (products Fixtures.working_catalog) "headphones"
    (DbSpec64.band_floor 80) 1000 10
    (map (row unit)
       (ProductDb64.find_alternatives unit Fixtures.no_json tt Fixtures.working_catalog
          "headphones" 80 1000 10)).
Proof.
  split; [reflexivity|]. split; [discriminate|].
  exact (proj1 (find_alternatives_double_contract unit Fixtures.no_json tt
                  Fixtures.working_catalog "headphones" 80 1000 10 eq_refl
                  ltac:(discriminate))).
Defined.

(** C5, counterexample.  The floor is not nine tenths of the target.
    For target 62 it is the double above 55.8, so a headphone stored
    with the score 55.8, nine tenths of 62, is not returned.  For
    target 7 it is the double below 6.3, so a headphone stored with
    that score is returned although its score is below nine tenths of
    7. *)
Lemma band_floor_is_not_nine_tenths :
  let edge := to_double (558 # 10) in
  let below := to_double (63 # 10) in
  edge == to_double (62 * (9 # 10)) /\
  ProductDb64.find_alternatives unit Fixtures.no_json tt (DbSpec64.one_product edge)
    "headphones" 62 1000 10 = [] /\
  below < 7 * (9 # 10) /\
  map (fun p => id (row unit p))
    (ProductDb64.find_alternatives unit Fixtures.no_json tt (DbSpec64.one_product below)
       "headphones" 7 1000 10) = [1%Z].
Proof.
  cbv zeta. split; [vm_compute; reflexivity|]. split; [vm_compute; reflexivity|].
  split; [vm_compute; reflexivity | vm_compute; reflexivity].
Qed.
End Db64Facts.
